(** * UWB geofencing alert system: a shallow embedding and its properties

    The development follows the layout of the repository:
    - [Geofence]: [services/geofencing_service.py] ([Zone], [GeofencingService]);
    - [Codec]: the frame codec of [main.py] (CRC, auth packet, location frames);
    - [Dashboard]: the broadcaster and the location-update pipeline of [main.py].

    Python [float] values are modelled by rationals ([Q]) wherever a
    statement ranges over all inputs: every finite float is a rational and
    the comparisons of the code, on finite floats, are the rational ones.
    The rationals have no NaN, no infinity and no rounding; what the code
    does with those is in [Binary64], on the binary64 floats themselves.
    Python [int] values are [Z], [bytes] are [list byte]. *)

From Stdlib Require Import ZArith QArith Qround Lqa Lia List Bool.
From Stdlib.Strings Require Import Byte.
From Stdlib.Floats Require PrimFloat.
From stdpp Require Import base option list gmap strings.

Open Scope Z_scope.

(** ** Exceptions

    Python code either returns a value or raises; [result] keeps the two
    apart so that "never raises" is a statement about the embedding. *)

Inductive exn : Type :=
| ValueError
| StructError
| IndexError
| UnicodeEncodeError
| ConnectionClosed.

Inductive result (A : Type) : Type :=
| Ok (a : A)
| Raise (e : exn).

Arguments Ok {A} a.
Arguments Raise {A} e.

Definition bind {A B : Type} (r : result A) (k : A -> result B) : result B :=
  match r with
  | Ok a => k a
  | Raise e => Raise e
  end.

#[global] Instance result_ret : MRet result := @Ok.
#[global] Instance result_bind : MBind result := fun _ _ k r => bind r k.

Definition is_ok {A : Type} (r : result A) : bool :=
  match r with Ok _ => true | Raise _ => false end.

(** ** Rational comparisons as booleans *)

Definition Qlt_bool (a b : Q) : bool := negb (Qle_bool b a).
Definition Qge_bool (a b : Q) : bool := Qle_bool b a.
Definition Qgt_bool (a b : Q) : bool := Qlt_bool b a.

(** ** Planar geometry (the part of Shapely the service uses)

    A [Polygon] is its exterior ring, a closed list of vertices.
    [polygon_touches] holds for the points of the boundary (the point meets
    the polygon but not its interior), [polygon_contains] for the points of
    the interior: the two DE-9IM predicates of the source, for a point
    argument. *)

Module Shapely.

Definition Point : Type := (Q * Q)%type.
Definition Polygon : Type := list Point.

(** Consecutive vertices of the ring. *)
Fixpoint edges (ring : list Point) : list (Point * Point) :=
  match ring with
  | a :: ((b :: _) as rest) => (a, b) :: edges rest
  | _ => []
  end.

(** Twice the signed area of the triangle [a b p]: positive when [p] is to
    the left of the directed line [a -> b]. *)
Definition is_left (a b p : Point) : Q :=
  ((fst b - fst a) * (snd p - snd a) - (snd b - snd a) * (fst p - fst a))%Q.

Definition between (u v w : Q) : bool :=
  (Qle_bool u w && Qle_bool w v) || (Qle_bool v w && Qle_bool w u).

Definition on_segment (p : Point) (e : Point * Point) : bool :=
  let '(a, b) := e in
  Qeq_bool (is_left a b p) 0
  && between (fst a) (fst b) (fst p)
  && between (snd a) (snd b) (snd p).

(** Contribution of one edge to the winding number of the ring around [p]. *)
Definition winding_step (p : Point) (e : Point * Point) : Z :=
  let '(a, b) := e in
  if Qle_bool (snd a) (snd p) then
    if Qlt_bool (snd p) (snd b) && Qlt_bool 0 (is_left a b p) then 1 else 0
  else
    if Qle_bool (snd b) (snd p) && Qlt_bool (is_left a b p) 0 then (-1) else 0.

Definition winding_number (poly : Polygon) (p : Point) : Z :=
  fold_right (fun e acc => winding_step p e + acc) 0 (edges poly).

Definition polygon_touches (poly : Polygon) (p : Point) : bool :=
  existsb (on_segment p) (edges poly).

Definition polygon_contains (poly : Polygon) (p : Point) : bool :=
  negb (polygon_touches poly p) && negb (winding_number poly p =? 0).

End Shapely.

(** ** [Zone] on binary64 floats

    Python's [float] is IEEE 754 binary64, and so is [PrimFloat.float]: the
    comparisons and the arithmetic below are the ones the interpreter
    performs, NaN, infinities and rounding included. [Zone.__post_init__]
    and [Zone.get_center] use nothing else of a float; the polygon is kept
    as the ring of vertices handed to Shapely. *)

Module Binary64.

Import PrimFloat.

Record Zone : Type := mkZone {
  min_x : float;
  min_y : float;
  max_x : float;
  max_y : float;
  name : string;
  _polygon : list (float * float);
}.

(** Python's [a >= b] and [a < b] on floats: false whenever [a] or [b] is
    NaN. *)
Definition ge (a b : float) : bool := (b <=? a)%float.
Definition lt (a b : float) : bool := (a <? b)%float.

(** [Zone(min_x, min_y, max_x, max_y, name)]: the dataclass constructor
    followed by [__post_init__], with its two tests in the order and the
    form of the source ([if self.min_x >= self.max_x: raise ValueError]). *)
Definition Zone_init (x0 y0 x1 y1 : float) (nm : string) : result Zone :=
  if ge x0 x1 then Raise ValueError
  else if ge y0 y1 then Raise ValueError
  else Ok (mkZone x0 y0 x1 y1 nm
             [(x0, y0); (x1, y0); (x1, y1); (x0, y1); (x0, y0)]).

Definition get_center (z : Zone) : float * float :=
  let center_x := ((min_x z + max_x z) / 2)%float in
  let center_y := ((min_y z + max_y z) / 2)%float in
  (center_x, center_y).

(** [Zone(1.0, 1.0, float("nan"), 2.0)], [Zone(float("nan"), 1.0, 2.0, 2.0)]
    and [Zone(1.0, float("nan"), 2.0, 2.0)]. *)
Definition zone_nan_max_x : result Zone :=
  Zone_init 1 1 nan 2 "danger_zone".
Definition zone_nan_min_x : result Zone :=
  Zone_init nan 1 2 2 "danger_zone".
Definition zone_nan_min_y : result Zone :=
  Zone_init 1 nan 2 2 "danger_zone".

(** [Zone(2.0, 1.0, 1.0, 2.0)] and [Zone(1.0, 1.0, 2.0, 2.0)]. *)
Definition zone_unordered : result Zone :=
  Zone_init 2 1 1 2 "danger_zone".
Definition zone_unit : result Zone :=
  Zone_init 1 1 2 2 "danger_zone".

(** [Zone(1.0, 1.0, 1.0000000000000002, 2.0)]: [max_x] is the float next
    above [min_x]. *)
Definition zone_one_ulp : result Zone :=
  Zone_init 1 1 0x1.0000000000001p+0 2 "danger_zone".

End Binary64.

(** ** [services/geofencing_service.py]

    [Zone] on finite bounds, read as rationals: the two tests of
    [__post_init__] are then the rational comparisons, and the polygon
    predicates of Shapely can be stated for every point of the plane. The
    methods whose result depends on rounding ([get_center]) are in
    [Binary64] only. *)

Module Geofence.

Import Shapely.

Record Zone : Type := mkZone {
  min_x : Q;
  min_y : Q;
  max_x : Q;
  max_y : Q;
  name : string;
  _polygon : Polygon;
}.

(** The ring built by [__post_init__], counter-clockwise and closed. *)
Definition rectangle_ring (x0 y0 x1 y1 : Q) : Polygon :=
  [(x0, y0); (x1, y0); (x1, y1); (x0, y1); (x0, y0)].

(** [Zone(min_x, min_y, max_x, max_y, name)] for finite bounds: the
    dataclass constructor followed by [__post_init__]. On NaN or infinite
    bounds the constructor is [Binary64.Zone_init]. *)
Definition Zone_init (x0 y0 x1 y1 : Q) (nm : string) : result Zone :=
  if Qge_bool x0 x1 then Raise ValueError
  else if Qge_bool y0 y1 then Raise ValueError
  else Ok (mkZone x0 y0 x1 y1 nm (rectangle_ring x0 y0 x1 y1)).

Definition contains_point (z : Zone) (x y : Q) : bool :=
  let point := (x, y) in
  polygon_contains (_polygon z) point || polygon_touches (_polygon z) point.

Definition get_corners (z : Zone) : list (Q * Q) :=
  [(min_x z, min_y z); (max_x z, min_y z);
   (max_x z, max_y z); (min_x z, max_y z)].

(** [time.time()]: the clock is the stream of its future readings; a call
    takes the first one. *)
Definition Clock : Type := nat -> Q.

Definition time_time (clk : Clock) : Q * Clock :=
  (clk 0%nat, fun k => clk (S k)).

(** The clock that reads [t] at every call. *)
Definition frozen (t : Q) : Clock := fun _ => t.

(** The keys of the hysteresis map: a tag id and a zone name. *)
Abbreviation Key := (Z * string)%type (only parsing).

(** One element of the list returned by [process_positions]
    (the dict with keys [tag_id], [zone], [position]). *)
Record Alert : Type := mkAlert {
  alert_tag_id : Z;
  alert_zone : Zone;
  alert_position : Q * Q;
}.

(** The fields of a [GeofencingService]. [on_danger] says whether a callback
    is registered; its invocations are recorded in [danger_calls], in
    order. A Python dict that is only read by key is a [gmap]. *)
Record GeofencingService : Type := mkService {
  zones : list Zone;
  on_danger : bool;
  retrigger_after_sec : option Q;
  target_tag_ids : option (gset Z);
  _fired : gmap Key Q;
  latest_positions : gmap Z (Q * Q);
  danger_calls : list Alert;
}.

(** [GeofencingService(zones, on_danger=..., retrigger_after_sec=...,
    target_tag_ids=...)]; [settings_retrigger] is
    [settings.RETRIGGER_AFTER_SEC]. *)
Definition GeofencingService_init (settings_retrigger : Q) (zs : list Zone)
    (cb : bool) (retrigger : option Q) (targets : option (gset Z))
    : GeofencingService :=
  mkService zs cb
    (Some (match retrigger with Some r => r | None => settings_retrigger end))
    targets ∅ ∅ [].

Definition set_fired (svc : GeofencingService) (f : gmap Key Q)
    : GeofencingService :=
  mkService (zones svc) (on_danger svc) (retrigger_after_sec svc)
    (target_tag_ids svc) f (latest_positions svc) (danger_calls svc).

Definition set_latest_positions (svc : GeofencingService)
    (lp : gmap Z (Q * Q)) : GeofencingService :=
  mkService (zones svc) (on_danger svc) (retrigger_after_sec svc)
    (target_tag_ids svc) (_fired svc) lp (danger_calls svc).

Definition call_on_danger (svc : GeofencingService) (a : Alert)
    : GeofencingService :=
  mkService (zones svc) (on_danger svc) (retrigger_after_sec svc)
    (target_tag_ids svc) (_fired svc) (latest_positions svc)
    (danger_calls svc ++ [a]).

Definition _can_fire (svc : GeofencingService) (clk : Clock) (key : Key)
    : bool * Clock :=
  match retrigger_after_sec svc with
  | None => (bool_decide (_fired svc !! key = None), clk)
  | Some r =>
      match _fired svc !! key with
      | None => (true, clk)
      | Some last_time =>
          let '(now, clk) := time_time clk in
          (Qge_bool (now - last_time) r, clk)
      end
  end.

Definition _mark_fired (svc : GeofencingService) (clk : Clock) (key : Key)
    : GeofencingService * Clock :=
  let '(now, clk) := time_time clk in
  (set_fired svc (<[key := now]> (_fired svc)), clk).

Definition _clear_if_outside (svc : GeofencingService) (tag_id : Z)
    (zone : Zone) (pos : Q * Q) : GeofencingService :=
  let '(x, y) := pos in
  if negb (contains_point zone x y) then
    let key := (tag_id, name zone) in
    set_fired svc (delete key (_fired svc))
  else svc.

(** The state the two loops of [process_positions] thread: the service, the
    clock and the local list [alerts]. *)
Definition LoopState : Type := (GeofencingService * Clock * list Alert)%type.

(** The body of [for zone in self.zones]. *)
Definition zone_body (tag_id : Z) (x y : Q) (st : LoopState) (zone : Zone)
    : LoopState :=
  let '(svc, clk, alerts) := st in
  let svc := _clear_if_outside svc tag_id zone (x, y) in
  if contains_point zone x y then
    let key := (tag_id, name zone) in
    let '(can, clk) := _can_fire svc clk key in
    if can then
      let '(svc, clk) := _mark_fired svc clk key in
      let alert := mkAlert tag_id zone (x, y) in
      let alerts := alerts ++ [alert] in
      let svc := if on_danger svc then call_on_danger svc alert else svc in
      (svc, clk, alerts)
    else (svc, clk, alerts)
  else (svc, clk, alerts).

(** [if self.target_tag_ids and (tag_id not in self.target_tag_ids)]:
    [None] and the empty set are both falsy. *)
Definition filtered_out (svc : GeofencingService) (tag_id : Z) : bool :=
  match target_tag_ids svc with
  | None => false
  | Some s => negb (bool_decide (s = ∅)) && negb (bool_decide (tag_id ∈ s))
  end.

(** The body of [for tag_id, (x, y) in positions.items()]. *)
Definition position_body (st : LoopState) (item : Z * (Q * Q)) : LoopState :=
  let '(tag_id, (x, y)) := item in
  let '(svc, _, _) := st in
  if filtered_out svc tag_id then st
  else fold_left (zone_body tag_id x y) (zones svc) st.

(** [dict.update]: later items win. *)
Definition dict_update (m : gmap Z (Q * Q)) (items : list (Z * (Q * Q)))
    : gmap Z (Q * Q) :=
  fold_left (fun m kv => <[fst kv := snd kv]> m) items m.

(** [positions] is the list of the items of the dict, in its iteration
    order; the keys of a dict are pairwise different. *)
Definition process_positions (svc : GeofencingService) (clk : Clock)
    (positions : list (Z * (Q * Q))) : list Alert * GeofencingService * Clock :=
  let svc := set_latest_positions svc
               (dict_update (latest_positions svc) positions) in
  let alerts := [] in
  let '(svc, clk, alerts) := fold_left position_body positions (svc, clk, alerts) in
  (alerts, svc, clk).

End Geofence.

(** ** Bytes and strings

    A Python [str] is the list of its code points; [bytes] is [list byte]. *)

Definition pystr : Type := list Z.

Definition byte_to_Z (b : byte) : Z := Z.of_N (Byte.to_N b).

Definition Z_to_byte (z : Z) : byte :=
  default x00 (Byte.of_N (Z.to_N (z mod 256))).

(** A literal of the source, as a [str]. *)
Definition str_lit (s : string) : pystr :=
  map (fun b => byte_to_Z b) (String.list_byte_of_string s).

(** [s.encode()]: UTF-8; a lone surrogate cannot be encoded. *)
Definition utf8_encode_point (c : Z) : result (list byte) :=
  if c <? 0 then Raise UnicodeEncodeError
  else if c <? 0x80 then Ok [Z_to_byte c]
  else if c <? 0x800 then
    Ok [Z_to_byte (Z.lor 0xC0 (Z.shiftr c 6));
        Z_to_byte (Z.lor 0x80 (Z.land c 0x3F))]
  else if c <? 0x10000 then
    if (0xD800 <=? c) && (c <=? 0xDFFF) then Raise UnicodeEncodeError
    else
      Ok [Z_to_byte (Z.lor 0xE0 (Z.shiftr c 12));
          Z_to_byte (Z.lor 0x80 (Z.land (Z.shiftr c 6) 0x3F));
          Z_to_byte (Z.lor 0x80 (Z.land c 0x3F))]
  else if c <? 0x110000 then
    Ok [Z_to_byte (Z.lor 0xF0 (Z.shiftr c 18));
        Z_to_byte (Z.lor 0x80 (Z.land (Z.shiftr c 12) 0x3F));
        Z_to_byte (Z.lor 0x80 (Z.land (Z.shiftr c 6) 0x3F));
        Z_to_byte (Z.lor 0x80 (Z.land c 0x3F))]
  else Raise UnicodeEncodeError.

Fixpoint encode (s : pystr) : result (list byte) :=
  match s with
  | [] => Ok []
  | c :: s' =>
      bs ← utf8_encode_point c;
      rest ← encode s';
      Ok (bs ++ rest)
  end.

(** ** [hashlib.md5] (RFC 1321), on 32-bit words held in [Z] *)

Module Hashlib.

Definition mask32 : Z := 0xFFFFFFFF.
Definition add32 (a b : Z) : Z := Z.land (a + b) mask32.
Definition not32 (a : Z) : Z := Z.lxor a mask32.

Definition left_rotate (x c : Z) : Z :=
  Z.land (Z.lor (Z.shiftl x c) (Z.shiftr x (32 - c))) mask32.

Definition md5_s : list Z :=
  [7; 12; 17; 22; 7; 12; 17; 22; 7; 12; 17; 22; 7; 12; 17; 22;
   5; 9; 14; 20; 5; 9; 14; 20; 5; 9; 14; 20; 5; 9; 14; 20;
   4; 11; 16; 23; 4; 11; 16; 23; 4; 11; 16; 23; 4; 11; 16; 23;
   6; 10; 15; 21; 6; 10; 15; 21; 6; 10; 15; 21; 6; 10; 15; 21].

Definition md5_K : list Z :=
  [0xd76aa478; 0xe8c7b756; 0x242070db; 0xc1bdceee;
   0xf57c0faf; 0x4787c62a; 0xa8304613; 0xfd469501;
   0x698098d8; 0x8b44f7af; 0xffff5bb1; 0x895cd7be;
   0x6b901122; 0xfd987193; 0xa679438e; 0x49b40821;
   0xf61e2562; 0xc040b340; 0x265e5a51; 0xe9b6c7aa;
   0xd62f105d; 0x02441453; 0xd8a1e681; 0xe7d3fbc8;
   0x21e1cde6; 0xc33707d6; 0xf4d50d87; 0x455a14ed;
   0xa9e3e905; 0xfcefa3f8; 0x676f02d9; 0x8d2a4c8a;
   0xfffa3942; 0x8771f681; 0x6d9d6122; 0xfde5380c;
   0xa4beea44; 0x4bdecfa9; 0xf6bb4b60; 0xbebfbc70;
   0x289b7ec6; 0xeaa127fa; 0xd4ef3085; 0x04881d05;
   0xd9d4d039; 0xe6db99e5; 0x1fa27cf8; 0xc4ac5665;
   0xf4292244; 0x432aff97; 0xab9423a7; 0xfc93a039;
   0x655b59c3; 0x8f0ccc92; 0xffeff47d; 0x85845dd1;
   0x6fa87e4f; 0xfe2ce6e0; 0xa3014314; 0x4e0811a1;
   0xf7537e82; 0xbd3af235; 0x2ad7d2bb; 0xeb86d391].

(** Little-endian bytes of a word, and back. *)
Fixpoint le_bytes (n : nat) (v : Z) : list byte :=
  match n with
  | O => []
  | S n' => Z_to_byte v :: le_bytes n' (Z.shiftr v 8)
  end.

Fixpoint le_word (bs : list byte) : Z :=
  match bs with
  | [] => 0
  | b :: bs' => byte_to_Z b + 256 * le_word bs'
  end.

(** The message followed by the bit [1], zeros up to 56 modulo 64, and the
    64-bit length in bits. *)
Definition md5_pad (msg : list byte) : list byte :=
  let len := Z.of_nat (length msg) in
  let zeros := Z.to_nat ((55 - len) mod 64) in
  msg ++ [x80] ++ repeat x00 zeros ++ le_bytes 8 (Z.land (8 * len) 0xFFFFFFFFFFFFFFFF).

Fixpoint chunks (fuel : nat) (k : nat) (bs : list byte) : list (list byte) :=
  match fuel with
  | O => []
  | S fuel' =>
      match bs with
      | [] => []
      | _ => firstn k bs :: chunks fuel' k (skipn k bs)
      end
  end.

Definition md5_state : Type := (Z * Z * Z * Z)%type.

Definition md5_round (M : list Z) (st : md5_state) (i : Z) : md5_state :=
  let '(A, B, C, D) := st in
  let '(F, g) :=
    if i <? 16 then (Z.lor (Z.land B C) (Z.land (not32 B) D), i)
    else if i <? 32 then
      (Z.lor (Z.land D B) (Z.land (not32 D) C), (5 * i + 1) mod 16)
    else if i <? 48 then (Z.lxor (Z.lxor B C) D, (3 * i + 5) mod 16)
    else (Z.lxor C (Z.lor B (not32 D)), (7 * i) mod 16) in
  let F := add32 (add32 (add32 F A) (nth (Z.to_nat i) md5_K 0))
                 (nth (Z.to_nat g) M 0) in
  (D, add32 B (left_rotate F (nth (Z.to_nat i) md5_s 0)), B, C).

Definition md5_chunk (st : md5_state) (chunk : list byte) : md5_state :=
  let M := map le_word (chunks 16 4 chunk) in
  let '(a0, b0, c0, d0) := st in
  let '(A, B, C, D) :=
    fold_left (md5_round M) (map Z.of_nat (seq 0 64)) st in
  (add32 a0 A, add32 b0 B, add32 c0 C, add32 d0 D).

Definition md5_digest (msg : list byte) : list byte :=
  let padded := md5_pad msg in
  let '(a, b, c, d) :=
    fold_left md5_chunk (chunks (length padded) 64 padded)
      (0x67452301, 0xefcdab89, 0x98badcfe, 0x10325476) in
  le_bytes 4 a ++ le_bytes 4 b ++ le_bytes 4 c ++ le_bytes 4 d.

Definition hex_digit (d : Z) : Z :=
  if d <? 10 then 48 + d else 87 + d.

(** [hashlib.md5(msg).hexdigest()]: two lower-case hexadecimal digits for
    each byte of the digest. *)
Definition md5_hexdigest (msg : list byte) : pystr :=
  flat_map (fun b => [hex_digit (byte_to_Z b / 16); hex_digit (byte_to_Z b mod 16)])
    (md5_digest msg).

End Hashlib.

(** ** The [struct] module: big-endian packing and unpacking *)

Module Struct.

(** The [n] big-endian bytes of [v]. *)
Fixpoint be_bytes (n : nat) (v : Z) : list byte :=
  match n with
  | O => []
  | S n' => Z_to_byte (Z.shiftr v (8 * Z.of_nat n')) :: be_bytes n' v
  end.

Definition be_value (bs : list byte) : Z :=
  fold_left (fun acc b => 256 * acc + byte_to_Z b) bs 0.

(** [struct.pack] of one unsigned field of [n] bytes ('B', '>H', '>I'):
    a value out of range raises [struct.error]. *)
Definition pack_unsigned (n : nat) (v : Z) : result (list byte) :=
  if (0 <=? v) && (v <? 2 ^ (8 * Z.of_nat n)) then Ok (be_bytes n v)
  else Raise StructError.

(** [struct.unpack] of one unsigned field of [n] bytes: the buffer must
    have exactly [n] bytes. *)
Definition unpack_unsigned (n : nat) (bs : list byte) : result Z :=
  if (length bs =? n)%nat then Ok (be_value bs) else Raise StructError.

(** Two's complement reading of an unsigned value of [n] bytes. *)
Definition to_signed (n : nat) (v : Z) : Z :=
  if v <? 2 ^ (8 * Z.of_nat n - 1) then v else v - 2 ^ (8 * Z.of_nat n).

(** [struct.unpack] of one signed field ('>h', '>i'). *)
Definition unpack_signed (n : nat) (bs : list byte) : result Z :=
  v ← unpack_unsigned n bs; Ok (to_signed n v).

End Struct.

(** [data[lo:hi]] for indices that are not negative: never raises. *)
Definition slice (data : list byte) (lo hi : Z) : list byte :=
  firstn (Z.to_nat (hi - lo)) (skipn (Z.to_nat lo) data).

(** [data[i]] for an index that is not negative. *)
Definition index (data : list byte) (i : Z) : result Z :=
  match data !! Z.to_nat i with
  | Some b => Ok (byte_to_Z b)
  | None => Raise IndexError
  end.

Definition len {A : Type} (l : list A) : Z := Z.of_nat (length l).

(** ** The frame codec of [main.py] *)

Module Codec.

Import Struct.

Record TagLocationInfo : Type := mkTagLocationInfo {
  tag_id : Z;
  x_coordinate : Q;
  y_coordinate : Q;
  z_coordinate : Q;
  map_id : Z;
  battery : Z;
  sleep_flag : bool;
  charging_flag : bool;
  timestamp : Z;
  floor_number : Z;
  positioning_indication : Z;
  coordinate_type : string;
}.

(** The fields of a [UWBCollector] the codec and the pipeline read. *)
Record UWBCollector : Type := mkCollector {
  username : pystr;
  password : pystr;
  salt : pystr;
  target_tag_id : Z;
}.

Definition UWBCollector_init (user pass : pystr) (target : Z) : UWBCollector :=
  mkCollector user pass (str_lit "abcdefghijklmnopqrstuvwxyz20191107salt") target.

(** One pass of the inner loop of [_calculate_crc16_modbus]. *)
Definition crc_shift (crc : Z) : Z :=
  if negb (Z.land crc 0x0001 =? 0) then Z.lxor (Z.shiftr crc 1) 0xA001
  else Z.shiftr crc 1.

(** The body of [for byte in data]. *)
Definition crc_byte (crc : Z) (b : byte) : Z :=
  Nat.iter 8 crc_shift (Z.lxor crc (byte_to_Z b)).

Definition _calculate_crc16_modbus (data : list byte) : Z :=
  fold_left crc_byte data 0xFFFF.

Definition _create_auth_packet (self : UWBCollector) : result (list byte) :=
  pwd_bytes ← encode (password self);
  let pwd_md5 := Hashlib.md5_hexdigest pwd_bytes in
  salted ← encode (pwd_md5 ++ salt self);
  let salt_pwd := Hashlib.md5_hexdigest salted in
  frame_header ← pack_unsigned 2 0xCC5F;
  frame_type ← pack_unsigned 1 0x27;
  username_len ← pack_unsigned 4 (len (username self));
  username_bytes ← encode (username self);
  password_len ← pack_unsigned 4 (len salt_pwd);
  password_bytes ← encode salt_pwd;
  let crc_data :=
    frame_type ++ username_len ++ username_bytes ++ password_len ++ password_bytes in
  let crc := _calculate_crc16_modbus crc_data in
  crc_bytes ← pack_unsigned 2 crc;
  frame_tail ← pack_unsigned 2 0xAABB;
  Ok (frame_header ++ crc_data ++ crc_bytes ++ frame_tail).

(** How the loop over the records ended: by exhausting [range(num_tags)]
    or through its [break]. *)
Inductive LoopExit : Type := Exhausted | Broke.

(** One pass of [for _ in range(num_tags)] after the [break] test: the
    record at [offset] and the offset after it. *)
Definition parse_record (frame_type : Z) (ctype : string)
    (data : list byte) (offset : Z) : result (TagLocationInfo * Z) :=
  tag ← unpack_unsigned 4 (slice data offset (offset + 4));
  let offset := offset + 4 in
  x_coord ← unpack_signed 4 (slice data offset (offset + 4));
  let offset := offset + 4 in
  y_coord ← unpack_signed 4 (slice data offset (offset + 4));
  let offset := offset + 4 in
  z_coord ← unpack_signed 2 (slice data offset (offset + 2));
  let offset := offset + 2 in
  map ← index data offset;
  let offset := offset + 1 in
  batt ← index data offset;
  let offset := offset + 1 in
  sleep_charge_flag ← index data offset;
  let sleep := negb (Z.land (Z.shiftr sleep_charge_flag 4) 0x0F =? 0) in
  let charging := negb (Z.land sleep_charge_flag 0x0F =? 0) in
  let offset := offset + 1 in
  ts ← unpack_unsigned 4 (slice data offset (offset + 4));
  let offset := offset + 4 in
  floor ← index data offset;
  let offset := offset + 1 in
  indication ← index data offset;
  let offset := offset + 1 in
  let '(x, y, z) :=
    if frame_type =? 0xB4 then
      ((inject_Z x_coord / 10000000)%Q, (inject_Z y_coord / 10000000)%Q, 0%Q)
    else
      ((inject_Z x_coord / 100)%Q, (inject_Z y_coord / 100)%Q,
       (inject_Z z_coord / 100)%Q) in
  Ok (mkTagLocationInfo tag x y z map batt sleep charging ts floor
        indication ctype, offset).

(** [for _ in range(num_tags)], with [n] passes left. *)
Fixpoint records_loop (frame_type : Z) (ctype : string) (data : list byte)
    (n : nat) (offset : Z) (tags : list TagLocationInfo)
    : result (LoopExit * list TagLocationInfo) :=
  match n with
  | O => Ok (Exhausted, tags)
  | S n' =>
      if offset + 23 >? len data - 4 then Ok (Broke, tags)
      else
        '(tag_info, offset) ← parse_record frame_type ctype data offset;
        records_loop frame_type ctype data n' offset (tags ++ [tag_info])
  end.

(** The [try] block of [_parse_tag_location_data]. *)
Definition parse_body (data : list byte) : result (list TagLocationInfo) :=
  header ← unpack_unsigned 2 (slice data 0 2);
  frame_type ← index data 2;
  if negb (header =? 0xCC5F) then Ok []
  else
    let coordinate :=
      if frame_type =? 0x81 then Some "relative"%string
      else if frame_type =? 0xB4 then Some "longitude_latitude"%string
      else if frame_type =? 0xB5 then Some "global"%string
      else None in
    match coordinate with
    | None => Ok []
    | Some ctype =>
        num_tags ← index data 3;
        if num_tags =? 0 then Ok []
        else
          let expected_size := 4 + (num_tags * 23) + 4 in
          if len data <? expected_size then Ok []
          else
            '(_, tags) ← records_loop frame_type ctype data
                           (Z.to_nat num_tags) 4 [];
            Ok tags
    end.

(** The whole method: the length test, then the [try] block whose
    [except Exception] branch returns the empty list. *)
Definition _parse_tag_location_data (data : list byte)
    : result (list TagLocationInfo) :=
  if len data <? 5 then Ok []
  else
    match parse_body data with
    | Ok tags => Ok tags
    | Raise _ => Ok []
    end.

End Codec.

(** ** The broadcaster and the pipeline of [main.py] *)

Module Dashboard.

Import Geofence Codec.

(** A dashboard client is a [WebSocket] object, known by its identity. *)
Definition Client : Type := positive.

(** The JSON messages sent to the dashboard. *)
Inductive Message : Type :=
| position_update (tag : Z) (x y : Q) (batt : Z) (ts : Z) (in_danger_zone : bool)
| alert (tag : Z) (zone_name : string) (position : Q * Q) (ts : Z).

(** The far end of a client: whether its connection is open, and what it
    has received so far. *)
Record Channel : Type := mkChannel {
  is_open : bool;
  inbox : list Message;
}.

(** What is outside the process: the connections of the clients, the clock
    and the tags that were sent a buzzer request. [published] is the trace
    of the messages handed to the broadcaster, in order. *)
Record World : Type := mkWorld {
  channels : gmap Client Channel;
  clock : Clock;
  buzzed : list Z;
  published : list Message;
}.

(** [app_state]. *)
Record AppState : Type := mkAppState {
  geofencing : GeofencingService;
  dashboard_clients : gset Client;
  app_latest_positions : gmap Z (Q * Q);
}.

(** [await client.send_json(message)]: raises on a connection that is
    closed or unknown, delivers otherwise. *)
Definition send_json (chs : gmap Client Channel) (client : Client)
    (message : Message) : result (gmap Client Channel) :=
  match chs !! client with
  | Some ch =>
      if is_open ch then
        Ok (<[client := mkChannel true (inbox ch ++ [message])]> chs)
      else Raise ConnectionClosed
  | None => Raise ConnectionClosed
  end.

(** The body of [for client in app_state.dashboard_clients], with its
    [try]/[except]. *)
Definition broadcast_body (message : Message)
    (st : gmap Client Channel * gset Client) (client : Client)
    : gmap Client Channel * gset Client :=
  let '(chs, disconnected) := st in
  match send_json chs client message with
  | Ok chs' => (chs', disconnected)
  | Raise _ => (chs, disconnected ∪ {[client]})
  end.

(** A set is iterated in the order of its [elements]. *)
Definition _broadcast_to_dashboard (app : AppState) (w : World)
    (message : Message) : AppState * World :=
  let disconnected := ∅ in
  let '(chs, disconnected) :=
    fold_left (broadcast_body message) (elements (dashboard_clients app))
      (channels w, disconnected) in
  (mkAppState (geofencing app) (dashboard_clients app ∖ disconnected)
     (app_latest_positions app),
   mkWorld chs (clock w) (buzzed w) (published w ++ [message])).

(** [_send_buzzer_vibration]: every failure is caught and logged; what is
    kept is that the request was made. *)
Definition _send_buzzer_vibration (w : World) (tag : Z) : World :=
  mkWorld (channels w) (clock w) (buzzed w ++ [tag]) (published w).

(** [int(v)] on a float: truncation towards zero. *)
Definition int_of_Q (v : Q) : Z := Z.quot (Qnum v) (Zpos (Qden v)).

Definition _send_alert (app : AppState) (w : World) (alert_info : Alert)
    : AppState * World :=
  let tag := alert_tag_id alert_info in
  let zone := alert_zone alert_info in
  let '(x, y) := alert_position alert_info in
  let w := _send_buzzer_vibration w tag in
  let '(now, clk) := time_time (clock w) in
  let w := mkWorld (channels w) clk (buzzed w) (published w) in
  _broadcast_to_dashboard app w
    (alert tag (name zone) (x, y) (int_of_Q (now * 1000)%Q)).

(** The body of [for tag in target_tags]; the list [alerts] of the pass is
    returned with the new state. *)
Definition update_body (app : AppState) (w : World) (tag : TagLocationInfo)
    : AppState * World * list Alert :=
  let pos := (x_coordinate tag, y_coordinate tag) in
  let app := mkAppState (geofencing app) (dashboard_clients app)
               (<[tag_id tag := pos]> (app_latest_positions app)) in
  let positions := [(tag_id tag, pos)] in
  let '(alerts, svc, clk) := process_positions (geofencing app) (clock w) positions in
  let app := mkAppState svc (dashboard_clients app) (app_latest_positions app) in
  let w := mkWorld (channels w) clk (buzzed w) (published w) in
  let '(app, w) :=
    fold_left (fun st a => _send_alert (fst st) (snd st) a) alerts (app, w) in
  let '(app, w) :=
    _broadcast_to_dashboard app w
      (position_update (tag_id tag) (x_coordinate tag) (y_coordinate tag)
         (battery tag) (timestamp tag) (0 <? len alerts)) in
  (app, w, alerts).

Definition _process_location_update (self : UWBCollector) (app : AppState)
    (w : World) (tags : list TagLocationInfo) : AppState * World :=
  let target_tags :=
    if target_tag_id self =? 0 then tags
    else filter (fun t => tag_id t = target_tag_id self) tags in
  (* an empty [target_tags] returns at once: the loop has no pass *)
  fold_left (fun st tag => fst (update_body (fst st) (snd st) tag))
    target_tags (app, w).

(** The answer of [GET /api/tags/{tag_id}/position]: the JSON body, or the
    404 response. A position is a pair, which is truthy whatever it
    holds. *)
Inductive Response : Type :=
| tag_position (tag : Z) (x y : Q)
| not_found (status_code : Z).

Definition get_tag_position (app : AppState) (tag : Z) : Response :=
  match app_latest_positions app !! tag with
  | Some pos => tag_position tag pos.1 pos.2
  | None => not_found 404
  end.

(** The connection loop of [lifespan]: what it did, given the outcome of
    [connect()] at each attempt. [streaming] says whether the receive task
    was created. *)
Record Startup : Type := mkStartup {
  attempts_made : nat;
  sleeps : nat;
  authenticated : bool;
  streaming : bool;
  gave_up : bool;
}.

Definition max_retries : Z := 3.

(** [for attempt in range(1, max_retries + 1)], over the attempts left. *)
Fixpoint connect_loop (connect : Z -> bool) (attempts : list Z) (st : Startup)
    : Startup :=
  match attempts with
  | [] => st
  | attempt :: rest =>
      let st := mkStartup (S (attempts_made st)) (sleeps st)
                  (authenticated st) (streaming st) (gave_up st) in
      if connect attempt then
        (* authenticate, create the receive task, break *)
        mkStartup (attempts_made st) (sleeps st) true true (gave_up st)
      else if attempt <? max_retries then
        connect_loop connect rest
          (mkStartup (attempts_made st) (S (sleeps st))
             (authenticated st) (streaming st) (gave_up st))
      else
        connect_loop connect rest
          (mkStartup (attempts_made st) (sleeps st)
             (authenticated st) (streaming st) true)
  end.

Definition lifespan_connect (connect : Z -> bool) : Startup :=
  connect_loop connect (map Z.of_nat (seq 1 (Z.to_nat max_retries)))
    (mkStartup 0 0 false false false).

End Dashboard.

(** ** Notions used in the statements *)

Section Notions.

Import Struct Codec.

(** The frame-type test of the decoder. *)
Definition recognized (ft : Z) : Prop := ft = 0x81 \/ ft = 0xB4 \/ ft = 0xB5.

Definition ctype_of (ft : Z) : string :=
  if ft =? 0x81 then "relative"
  else if ft =? 0xB4 then "longitude_latitude" else "global".

(** CRC-16/MODBUS as the specification words it: a reflected CRC that
    takes the bits of the message least-significant first, with polynomial
    [poly] and initial value [init]. *)
Definition bits_lsb_first (b : byte) : list bool :=
  map (fun k => Z.testbit (byte_to_Z b) (Z.of_nat k)) (seq 0 8).

Definition crc_feed (poly : Z) (crc : Z) (bit : bool) : Z :=
  let feedback := xorb (Z.testbit crc 0) bit in
  if feedback then Z.lxor (Z.shiftr crc 1) poly else Z.shiftr crc 1.

Definition crc16_reflected (poly init : Z) (data : list byte) : Z :=
  fold_left (crc_feed poly) (flat_map bits_lsb_first data) init.

Definition crc16_modbus_reference : list byte -> Z :=
  crc16_reflected 0xA001 0xFFFF.

(** The bytes of the lower-case hexadecimal MD5 digest of [msg]. *)
Definition md5_hex (msg : list byte) : list byte :=
  map Z_to_byte (Hashlib.md5_hexdigest msg).

(** A client whose connection is open: [send_json] to it succeeds. *)
Definition live (chs : gmap Dashboard.Client Dashboard.Channel)
    (c : Dashboard.Client) : Prop :=
  exists ch, chs !! c = Some ch /\ Dashboard.is_open ch = true.

(** Between [chs] and [chs'] the client [c] received exactly [msg]. *)
Definition delivered (chs chs' : gmap Dashboard.Client Dashboard.Channel)
    (c : Dashboard.Client) (msg : Dashboard.Message) : Prop :=
  exists ch, chs !! c = Some ch
    /\ chs' !! c = Some (Dashboard.mkChannel true (Dashboard.inbox ch ++ [msg])).

(** The hysteresis key an alert belongs to. *)
Definition alert_key (a : Geofence.Alert) : Geofence.Key :=
  (Geofence.alert_tag_id a, Geofence.name (Geofence.alert_zone a)).

(** The retrigger test on the entry [entry] of a key at time [now]: no
    entry, or an entry at least [r] seconds old. *)
Definition may_fire (r now : Q) (entry : option Q) : Prop :=
  entry = None \/ exists t, entry = Some t /\ (r <= now - t)%Q.

(** The configuration of a service, which no method changes. *)
Definition same_config (svc svc' : Geofence.GeofencingService) : Prop :=
  Geofence.zones svc' = Geofence.zones svc
  /\ Geofence.on_danger svc' = Geofence.on_danger svc
  /\ Geofence.retrigger_after_sec svc' = Geofence.retrigger_after_sec svc
  /\ Geofence.target_tag_ids svc' = Geofence.target_tag_ids svc.

(** [clk'] is what is left of [clk] after some readings. *)
Definition clock_suffix (clk clk' : Geofence.Clock) : Prop :=
  exists j : nat, forall k : nat, clk' k = clk (j + k)%nat.

(** Between the loop states [st] and [st'] nothing happened for [key]: its
    entry is the same and no alert for it was appended. *)
Definition untouched (key : Geofence.Key) (st st' : Geofence.LoopState) : Prop :=
  same_config st.1.1 st'.1.1
  /\ clock_suffix st.1.2 st'.1.2
  /\ Geofence._fired st'.1.1 !! key = Geofence._fired st.1.1 !! key
  /\ exists extra, st'.2 = st.2 ++ extra
       /\ Forall (fun a => alert_key a <> key) extra.

(** The alert rule for the tag at [(x, y)] and the zone [z] in one
    evaluation call at time [now] with retrigger interval [r]: the alert is
    emitted exactly when the key may fire; an emitted alert records [now];
    without alert the entry of the key is what it was. *)
Definition alert_rule (svc : Geofence.GeofencingService) (clk : Geofence.Clock)
    (positions : list (Z * (Q * Q))) (now r : Q)
    (tag : Z) (x y : Q) (z : Geofence.Zone) : Prop :=
  let res := Geofence.process_positions svc clk positions in
  let a := Geofence.mkAlert tag z (x, y) in
  let key := (tag, Geofence.name z) in
  (a ∈ res.1.1 <-> may_fire r now (Geofence._fired svc !! key))
  /\ (a ∈ res.1.1 -> Geofence._fired res.1.2 !! key = Some now)
  /\ (a ∉ res.1.1 -> Geofence._fired res.1.2 !! key = Geofence._fired svc !! key).

(** A zone and two services for the examples: the unit square at [(1, 1)],
    watched for every tag or for tag 42 only, retrigger interval 5 s. *)
Definition zone_A : Geofence.Zone :=
  Geofence.mkZone 1 1 2 2 "A" (Geofence.rectangle_ring 1 1 2 2).

Definition service_all : Geofence.GeofencingService :=
  Geofence.GeofencingService_init 5 [zone_A] false None None.

Definition service_42 : Geofence.GeofencingService :=
  Geofence.GeofencingService_init 5 [zone_A] false None (Some {[42]}).

(** Tag 7 in the middle of [zone_A], and a service that fired for it at
    time 0. *)
Definition tag_7 : Codec.TagLocationInfo :=
  Codec.mkTagLocationInfo 7 (3 # 2) (3 # 2) 0 0 100 false false 0 0 0 "relative".

Definition service_fired : Geofence.GeofencingService :=
  Geofence.set_fired service_all {[ (7, "A"%string) := 0%Q ]}.

(** Three dashboard clients; the connection of the second one is closed. *)
Definition three_clients : Dashboard.AppState :=
  Dashboard.mkAppState service_fired {[ 1%positive; 2%positive; 3%positive ]} ∅.

Definition second_closed (now : Q) : Dashboard.World :=
  Dashboard.mkWorld
    (<[ 1%positive := Dashboard.mkChannel true [] ]>
       (<[ 2%positive := Dashboard.mkChannel false [] ]>
          (<[ 3%positive := Dashboard.mkChannel true [] ]> ∅)))
    (Geofence.frozen now) [] [].

(** A location frame of type [0x81] with one record and its footer. *)
Definition frame_one_tag : list byte :=
  [xcc; x5f; x81; x01] ++ repeat x00 23 ++ repeat x00 4.

(** The byte at index [i], 0 past the end. *)
Definition byte_at (data : list byte) (i : Z) : Z :=
  match data !! Z.to_nat i with
  | Some b => byte_to_Z b
  | None => 0
  end.

(** The integers of the 23-byte record at [offset], as the wire carries
    them: tag id, x, y, z, map id, battery, flags, timestamp, floor and
    positioning indication. *)
Record RawRecord : Type := mkRaw {
  raw_tag : Z;
  raw_x : Z;
  raw_y : Z;
  raw_z : Z;
  raw_map : Z;
  raw_battery : Z;
  raw_flags : Z;
  raw_timestamp : Z;
  raw_floor : Z;
  raw_indication : Z;
}.

Definition raw_at (data : list byte) (offset : Z) : RawRecord :=
  mkRaw (be_value (slice data offset (offset + 4)))
        (to_signed 4 (be_value (slice data (offset + 4) (offset + 8))))
        (to_signed 4 (be_value (slice data (offset + 8) (offset + 12))))
        (to_signed 2 (be_value (slice data (offset + 12) (offset + 14))))
        (byte_at data (offset + 14))
        (byte_at data (offset + 15))
        (byte_at data (offset + 16))
        (be_value (slice data (offset + 17) (offset + 21)))
        (byte_at data (offset + 21))
        (byte_at data (offset + 22)).

(** The record the decoder makes of the integers of a record, for a frame
    of type [ft]. *)
Definition scaled (ft : Z) (r : RawRecord) : TagLocationInfo :=
  let '(x, y, z) :=
    if ft =? 0xB4 then
      ((inject_Z (raw_x r) / 10000000)%Q, (inject_Z (raw_y r) / 10000000)%Q, 0%Q)
    else
      ((inject_Z (raw_x r) / 100)%Q, (inject_Z (raw_y r) / 100)%Q,
       (inject_Z (raw_z r) / 100)%Q) in
  mkTagLocationInfo (raw_tag r) x y z (raw_map r) (raw_battery r)
    (negb (Z.land (Z.shiftr (raw_flags r) 4) 0x0F =? 0))
    (negb (Z.land (raw_flags r) 0x0F =? 0))
    (raw_timestamp r) (raw_floor r) (raw_indication r) (ctype_of ft).

(** The integers of a record are in the ranges of their wire fields. *)
Definition raw_in_range (r : RawRecord) : Prop :=
  0 <= raw_tag r < 2 ^ 32
  /\ - 2 ^ 31 <= raw_x r < 2 ^ 31
  /\ - 2 ^ 31 <= raw_y r < 2 ^ 31
  /\ - 2 ^ 15 <= raw_z r < 2 ^ 15
  /\ 0 <= raw_map r < 256
  /\ 0 <= raw_battery r < 256
  /\ 0 <= raw_flags r < 256
  /\ 0 <= raw_timestamp r < 2 ^ 32
  /\ 0 <= raw_floor r < 256
  /\ 0 <= raw_indication r < 256.

(** The two's complement bytes of a signed integer ([struct.pack] with
    ['>i'] or ['>h']). *)
Definition signed_bytes (n : nat) (v : Z) : list byte :=
  be_bytes n (v mod 2 ^ (8 * Z.of_nat n)).

(** The 23 bytes of a record on the wire, field after field as the decoder
    reads them. *)
Definition encode_raw (r : RawRecord) : list byte :=
  be_bytes 4 (raw_tag r) ++ signed_bytes 4 (raw_x r)
  ++ signed_bytes 4 (raw_y r) ++ signed_bytes 2 (raw_z r)
  ++ [Z_to_byte (raw_map r); Z_to_byte (raw_battery r); Z_to_byte (raw_flags r)]
  ++ be_bytes 4 (raw_timestamp r)
  ++ [Z_to_byte (raw_floor r); Z_to_byte (raw_indication r)].

(** A location frame: header, type, count, records, footer. *)
Definition location_frame (ft : Z) (rs : list RawRecord) (footer : list byte)
    : list byte :=
  [xcc; x5f; Z_to_byte ft; Z_to_byte (len rs)]
  ++ flat_map encode_raw rs ++ footer.

(** An alert of the pass of a tag at [(x, y)] over the zones [zs]. *)
Definition alert_of_pass (tag : Z) (x y : Q) (zs : list Geofence.Zone)
    (a : Geofence.Alert) : Prop :=
  exists z, a = Geofence.mkAlert tag z (x, y) /\ z ∈ zs
            /\ Geofence.contains_point z x y = true.

(** An alert that the batch [ps] justifies for the service [svc]: it is for
    an item of the batch that passes the tag filter, carries its position,
    and names a configured zone that contains the position. *)
Definition alert_of_batch (svc : Geofence.GeofencingService)
    (ps : list (Z * (Q * Q))) (a : Geofence.Alert) : Prop :=
  exists tag x y,
    (tag, (x, y)) ∈ ps
    /\ Geofence.filtered_out svc tag = false
    /\ alert_of_pass tag x y (Geofence.zones svc) a.

(** The tag a dashboard message is about. *)
Definition message_tag (m : Dashboard.Message) : Z :=
  match m with
  | Dashboard.position_update tag _ _ _ _ _ => tag
  | Dashboard.alert tag _ _ _ => tag
  end.

(** The position updates among some messages, in order. *)
Fixpoint position_updates (msgs : list Dashboard.Message)
    : list Dashboard.Message :=
  match msgs with
  | [] => []
  | (Dashboard.position_update _ _ _ _ _ _ as m) :: rest =>
      m :: position_updates rest
  | Dashboard.alert _ _ _ _ :: rest => position_updates rest
  end.

(** The dashboard event of an alert, with some timestamp. *)
Definition alert_event (a : Geofence.Alert) (m : Dashboard.Message) : Prop :=
  exists ts,
    m = Dashboard.alert (Geofence.alert_tag_id a)
          (Geofence.name (Geofence.alert_zone a)) (Geofence.alert_position a) ts.

(** The tags [_process_location_update] keeps. *)
Definition target_tags (self : Codec.UWBCollector)
    (tags : list Codec.TagLocationInfo) : list Codec.TagLocationInfo :=
  if Codec.target_tag_id self =? 0 then tags
  else filter (fun t => Codec.tag_id t = Codec.target_tag_id self) tags.

(** Between two states of the application the messages [msgs] were
    published: every subscriber with an open connection is still
    subscribed and received exactly [msgs], in order; nothing else
    changed on the connections; nobody was added; and once something was
    published only subscribers with an open connection are left. *)
Definition published_to_subscribers
    (app : Dashboard.AppState) (w : Dashboard.World)
    (app' : Dashboard.AppState) (w' : Dashboard.World)
    (msgs : list Dashboard.Message) : Prop :=
  Dashboard.published w' = Dashboard.published w ++ msgs
  /\ (forall c, c ∈ Dashboard.dashboard_clients app ->
        live (Dashboard.channels w) c ->
        c ∈ Dashboard.dashboard_clients app'
        /\ exists ch, Dashboard.channels w !! c = Some ch
             /\ Dashboard.channels w' !! c
                = Some (Dashboard.mkChannel true (Dashboard.inbox ch ++ msgs)))
  /\ (forall c, c ∉ Dashboard.dashboard_clients app
                \/ ~ live (Dashboard.channels w) c ->
        Dashboard.channels w' !! c = Dashboard.channels w !! c)
  /\ (forall c, c ∈ Dashboard.dashboard_clients app' ->
        c ∈ Dashboard.dashboard_clients app)
  /\ (msgs <> [] ->
      forall c, c ∈ Dashboard.dashboard_clients app' ->
        live (Dashboard.channels w) c).

(** Between two loop states, every hysteresis entry that is there at the
    end was there at the start, or was written with an alert for its key
    that was appended in between, and then holds a reading of the clock. *)
Definition writes_with_alerts (st st' : Geofence.LoopState) : Prop :=
  exists extra,
    st'.2 = st.2 ++ extra
    /\ clock_suffix st.1.2 st'.1.2
    /\ forall k t,
         Geofence._fired st'.1.1 !! k = Some t ->
         Geofence._fired st.1.1 !! k = Some t
         \/ exists a, a ∈ extra /\ alert_key a = k
                      /\ exists i : nat, t = st.1.2 i.

(** More examples: the header, count and one record of a frame; the
    integers of a record; a collector for every tag and one for tag 42; a
    connection that succeeds at the second attempt. *)
Definition body_one_tag : list byte :=
  [xcc; x5f; x81; x01] ++ repeat x00 23.

Definition raw_7 : RawRecord := mkRaw 7 150 (-150) 20 1 100 16 12345 2 1.

Definition collector_all : Codec.UWBCollector :=
  Codec.UWBCollector_init (str_lit "admin") (str_lit "secret") 0.

Definition collector_42 : Codec.UWBCollector :=
  Codec.UWBCollector_init (str_lit "admin") (str_lit "secret") 42.

Definition second_attempt (attempt : Z) : bool := attempt =? 2.

End Notions.

(** * Properties *)

(** ** Rational comparisons *)

Lemma Qlt_bool_iff (a b : Q) : Qlt_bool a b = true <-> (a < b)%Q.
Proof.
  unfold Qlt_bool. rewrite negb_true_iff.
  destruct (Qle_bool b a) eqn:E.
  - apply Qle_bool_iff in E. split; [discriminate | intros H; lra].
  - split; [intros _ | reflexivity].
    destruct (Qlt_le_dec a b) as [H | H]; [exact H |].
    apply Qle_bool_iff in H. congruence.
Qed.

Lemma Qlt_bool_false_iff (a b : Q) : Qlt_bool a b = false <-> (b <= a)%Q.
Proof.
  unfold Qlt_bool. rewrite negb_false_iff. apply Qle_bool_iff.
Qed.

Lemma Qle_bool_false_iff (a b : Q) : Qle_bool a b = false <-> (b < a)%Q.
Proof.
  rewrite <- Qlt_bool_iff. unfold Qlt_bool.
  destruct (Qle_bool a b); simpl; split; congruence.
Qed.

Lemma Qeq_bool_false_iff (a b : Q) : Qeq_bool a b = false <-> ~ (a == b)%Q.
Proof.
  split.
  - intros E H. apply Qeq_bool_iff in H. congruence.
  - intros H. destruct (Qeq_bool a b) eqn:E; [| reflexivity].
    apply Qeq_bool_iff in E. contradiction.
Qed.

(** Turns every boolean comparison of rationals in the context and the goal
    into the corresponding proposition. *)
Ltac qprop :=
  unfold Qge_bool, Qgt_bool in *;
  repeat match goal with
  | H : Qle_bool _ _ = true |- _ => apply Qle_bool_iff in H
  | H : Qle_bool _ _ = false |- _ => apply Qle_bool_false_iff in H
  | H : Qlt_bool _ _ = true |- _ => apply Qlt_bool_iff in H
  | H : Qlt_bool _ _ = false |- _ => apply Qlt_bool_false_iff in H
  | H : Qeq_bool _ _ = true |- _ => apply Qeq_bool_iff in H
  | H : Qeq_bool _ _ = false |- _ => apply Qeq_bool_false_iff in H
  | |- Qle_bool _ _ = true => apply Qle_bool_iff
  | |- Qle_bool _ _ = false => apply Qle_bool_false_iff
  | |- Qlt_bool _ _ = true => apply Qlt_bool_iff
  | |- Qlt_bool _ _ = false => apply Qlt_bool_false_iff
  | |- Qeq_bool _ _ = true => apply Qeq_bool_iff
  | |- Qeq_bool _ _ = false => apply Qeq_bool_false_iff
  end.

(** ** Zones *)

Section ZoneFacts.

Import Shapely Geofence.

Lemma Zone_init_ok (x0 y0 x1 y1 : Q) (nm : string) (z : Zone) :
  Zone_init x0 y0 x1 y1 nm = Ok z ->
  z = mkZone x0 y0 x1 y1 nm (rectangle_ring x0 y0 x1 y1)
  /\ (x0 < x1)%Q /\ (y0 < y1)%Q.
Proof.
  unfold Zone_init.
  destruct (Qge_bool x0 x1) eqn:Ex; [discriminate |].
  destruct (Qge_bool y0 y1) eqn:Ey; [discriminate |].
  intros [= <-]. qprop. auto.
Qed.

(** On finite bounds the validation is complete: constructing a zone with
    [min_x >= max_x] or [min_y >= max_y] raises [ValueError], and every
    zone the constructor returns has [min_x < max_x] and
    [min_y < max_y]. *)
Lemma zone_construction_validated (x0 y0 x1 y1 : Q) (nm : string) :
  ((x1 <= x0)%Q \/ (y1 <= y0)%Q ->
     Zone_init x0 y0 x1 y1 nm = Raise ValueError)
  /\ (forall z : Zone,
        Zone_init x0 y0 x1 y1 nm = Ok z ->
        (min_x z < max_x z)%Q /\ (min_y z < max_y z)%Q).
Proof.
  split.
  - intros H. unfold Zone_init.
    destruct (Qge_bool x0 x1) eqn:Ex; [reflexivity |].
    destruct (Qge_bool y0 y1) eqn:Ey; [reflexivity |].
    qprop. lra.
  - intros z Hz. apply Zone_init_ok in Hz as (-> & Hx & Hy). simpl. auto.
Qed.

(** *** The constructor on binary64 bounds *)

(** Whenever one of the two tests of [__post_init__] holds, the constructor
    raises and no zone is built: NaN included, since a test with a NaN
    operand does not hold. *)
Lemma zone_init_raises_when_test_holds (x0 y0 x1 y1 : PrimFloat.float)
    (nm : string) :
  Binary64.ge x0 x1 = true \/ Binary64.ge y0 y1 = true ->
  Binary64.Zone_init x0 y0 x1 y1 nm = Raise ValueError.
Proof.
  unfold Binary64.Zone_init. intros [-> | H]; [reflexivity |].
  rewrite H. destruct (Binary64.ge x0 x1); reflexivity.
Qed.

(** A zone is returned exactly when both tests fail; the tests are [>=],
    so this is not the same as [min_x < max_x] and [min_y < max_y]. *)
Lemma zone_init_returns_iff_tests_fail (x0 y0 x1 y1 : PrimFloat.float)
    (nm : string) :
  (exists z, Binary64.Zone_init x0 y0 x1 y1 nm = Ok z)
  <-> Binary64.ge x0 x1 = false /\ Binary64.ge y0 y1 = false.
Proof.
  unfold Binary64.Zone_init.
  destruct (Binary64.ge x0 x1), (Binary64.ge y0 y1); split;
    try (intros [z Hz]; discriminate); try (intros [? ?]; discriminate);
    try (intros _; split; reflexivity); intros _; eexists; reflexivity.
Qed.

(** C8. The validation of [__post_init__] lets a NaN bound through. Both
    tests are false on [Zone(1.0, 1.0, float("nan"), 2.0)], so the zone is
    constructed, with the bounds it was given, and [min_x < max_x] is false
    of it; the same happens with NaN as [min_x], and with NaN as [min_y]
    for [min_y < max_y]. The constructor does reject
    [Zone(2.0, 1.0, 1.0, 2.0)] and accept [Zone(1.0, 1.0, 2.0, 2.0)]. *)
Theorem zone_accepts_nan_bound :
  (exists z, Binary64.zone_nan_max_x = Ok z
     /\ PrimFloat.is_nan (Binary64.max_x z) = true
     /\ Binary64.lt (Binary64.min_x z) (Binary64.max_x z) = false)
  /\ (exists z, Binary64.zone_nan_min_x = Ok z
       /\ PrimFloat.is_nan (Binary64.min_x z) = true
       /\ Binary64.lt (Binary64.min_x z) (Binary64.max_x z) = false)
  /\ (exists z, Binary64.zone_nan_min_y = Ok z
       /\ PrimFloat.is_nan (Binary64.min_y z) = true
       /\ Binary64.lt (Binary64.min_y z) (Binary64.max_y z) = false)
  /\ Binary64.zone_unordered = Raise ValueError
  /\ (exists z, Binary64.zone_unit = Ok z
       /\ Binary64.lt (Binary64.min_x z) (Binary64.max_x z) = true
       /\ Binary64.lt (Binary64.min_y z) (Binary64.max_y z) = true).
Proof.
  repeat split;
    try (eexists; split; [reflexivity |]; repeat split; reflexivity);
    reflexivity.
Qed.

(** [get_center] rounds: for [Zone(1.0, 1.0, 1.0000000000000002, 2.0)] the
    sum [min_x + max_x] rounds to [2.0], and the centre has the abscissa
    [min_x] of the left edge. *)
Example center_of_thin_zone_on_edge :
  exists z, Binary64.zone_one_ulp = Ok z
    /\ Binary64.lt (Binary64.min_x z) (Binary64.max_x z) = true
    /\ PrimFloat.eqb (Binary64.get_center z).1 (Binary64.min_x z) = true.
Proof.
  eexists. split; [reflexivity |]. split; vm_compute; reflexivity.
Qed.

(** *** The rectangle of a zone, edge by edge *)

Lemma between_iff (u v w : Q) :
  between u v w = true <-> ((u <= w <= v)%Q \/ (v <= w <= u)%Q).
Proof.
  unfold between. rewrite orb_true_iff, !andb_true_iff, !Qle_bool_iff.
  tauto.
Qed.

Lemma on_horizontal_edge (a b c x y : Q) :
  ~ (a == b)%Q ->
  on_segment (x, y) ((a, c), (b, c)) = true
  <-> (y == c)%Q /\ ((a <= x <= b)%Q \/ (b <= x <= a)%Q).
Proof.
  intros Hab. unfold on_segment, is_left. cbn [fst snd].
  rewrite !andb_true_iff, !between_iff, Qeq_bool_iff.
  split.
  - intros [[H1 H2] H3]. split; [| exact H2].
    destruct (Qlt_le_dec a b); [nra |].
    assert (b < a)%Q by (apply Qle_lteq in q as [? | E]; [assumption | symmetry in E; contradiction]).
    nra.
  - intros [H1 H2]. repeat split; [rewrite H1; ring | exact H2 | lra].
Qed.

Lemma on_vertical_edge (a b c x y : Q) :
  ~ (a == b)%Q ->
  on_segment (x, y) ((c, a), (c, b)) = true
  <-> (x == c)%Q /\ ((a <= y <= b)%Q \/ (b <= y <= a)%Q).
Proof.
  intros Hab. unfold on_segment, is_left. cbn [fst snd].
  rewrite !andb_true_iff, !between_iff, Qeq_bool_iff.
  split.
  - intros [[H1 H2] H3]. split; [| exact H3].
    destruct (Qlt_le_dec a b); [nra |].
    assert (b < a)%Q by (apply Qle_lteq in q as [? | E]; [assumption | symmetry in E; contradiction]).
    nra.
  - intros [H1 H2]. repeat split; [rewrite H1; ring | lra | exact H2].
Qed.

Lemma winding_horizontal_edge (a b c x y : Q) :
  winding_step (x, y) ((a, c), (b, c)) = 0.
Proof.
  unfold winding_step. cbn [fst snd].
  destruct (Qle_bool c y) eqn:E1.
  - destruct (Qlt_bool y c) eqn:E2; [| reflexivity]. qprop. lra.
  - reflexivity.
Qed.

Lemma winding_up_edge (c y0 y1 x y : Q) :
  (y0 < y1)%Q ->
  winding_step (x, y) ((c, y0), (c, y1)) =
    if Qle_bool y0 y && Qlt_bool y y1 && Qlt_bool x c then 1 else 0.
Proof.
  intros Hy. unfold winding_step, is_left. cbn [fst snd].
  destruct (Qle_bool y0 y) eqn:E1; cbn [andb].
  - destruct (Qlt_bool y y1) eqn:E2; cbn [andb]; [| reflexivity].
    destruct (Qlt_bool x c) eqn:E3.
    + replace (Qlt_bool 0 _) with true; [reflexivity |].
      symmetry. qprop. nra.
    + replace (Qlt_bool 0 _) with false; [reflexivity |].
      symmetry. qprop. nra.
  - replace (Qle_bool y1 y) with false; [reflexivity |].
    symmetry. qprop. lra.
Qed.

Lemma winding_down_edge (c y0 y1 x y : Q) :
  (y0 < y1)%Q ->
  winding_step (x, y) ((c, y1), (c, y0)) =
    if Qle_bool y0 y && Qlt_bool y y1 && Qlt_bool x c then (-1) else 0.
Proof.
  intros Hy. unfold winding_step, is_left. cbn [fst snd].
  destruct (Qle_bool y1 y) eqn:E1.
  - replace (Qlt_bool y y0) with false by (symmetry; qprop; lra).
    replace (Qlt_bool y y1) with false by (symmetry; qprop; lra).
    rewrite andb_false_r. reflexivity.
  - replace (Qlt_bool y y1) with true by (symmetry; qprop; lra).
    destruct (Qle_bool y0 y) eqn:E2; cbn [andb]; [| reflexivity].
    destruct (Qlt_bool x c) eqn:E3.
    + replace (Qlt_bool _ 0) with true; [reflexivity |].
      symmetry. qprop. nra.
    + replace (Qlt_bool _ 0) with false; [reflexivity |].
      symmetry. qprop. nra.
Qed.

(** The boundary of the rectangle: the points of the closed rectangle that
    lie on one of its four sides. *)
Lemma rectangle_touches (x0 y0 x1 y1 x y : Q) :
  (x0 < x1)%Q -> (y0 < y1)%Q ->
  polygon_touches (rectangle_ring x0 y0 x1 y1) (x, y) = true
  <-> ((x0 <= x <= x1)%Q /\ (y0 <= y <= y1)%Q)
      /\ ((x == x0)%Q \/ (x == x1)%Q \/ (y == y0)%Q \/ (y == y1)%Q).
Proof.
  intros Hx Hy. unfold polygon_touches, rectangle_ring. cbn [edges existsb].
  rewrite !orb_true_iff.
  rewrite (on_horizontal_edge x0 x1), (on_vertical_edge y0 y1),
    (on_horizontal_edge x1 x0), (on_vertical_edge y1 y0) by lra.
  split.
  - intros [H | [H | [H | [H | H]]]]; try discriminate; lra.
  - intros [[H1 H2] [H | [H | [H | H]]]].
    + right; right; right; left. lra.
    + right; left. lra.
    + left. lra.
    + right; right; left. lra.
Qed.

(** The winding number of the rectangle is 1 on a half-open rectangle and 0
    elsewhere. *)
Lemma rectangle_winding (x0 y0 x1 y1 x y : Q) :
  (x0 < x1)%Q -> (y0 < y1)%Q ->
  winding_number (rectangle_ring x0 y0 x1 y1) (x, y) =
    if Qle_bool y0 y && Qlt_bool y y1 && Qle_bool x0 x && Qlt_bool x x1
    then 1 else 0.
Proof.
  intros Hx Hy. unfold winding_number, rectangle_ring. cbn [edges fold_right].
  rewrite !winding_horizontal_edge, winding_up_edge, winding_down_edge by assumption.
  destruct (Qle_bool y0 y && Qlt_bool y y1) eqn:E; cbn [andb]; [| reflexivity].
  destruct (Qlt_bool x x1) eqn:E1, (Qlt_bool x x0) eqn:E0,
    (Qle_bool x0 x) eqn:E2; cbn [andb]; try reflexivity; qprop; lra.
Qed.

Lemma rectangle_contains_point (x0 y0 x1 y1 x y : Q) (nm : string) :
  (x0 < x1)%Q -> (y0 < y1)%Q ->
  contains_point (mkZone x0 y0 x1 y1 nm (rectangle_ring x0 y0 x1 y1)) x y = true
  <-> (x0 <= x <= x1)%Q /\ (y0 <= y <= y1)%Q.
Proof.
  intros Hx Hy. unfold contains_point, polygon_contains. cbn [_polygon].
  pose proof (rectangle_touches x0 y0 x1 y1 x y Hx Hy) as Ht.
  rewrite (rectangle_winding x0 y0 x1 y1 x y Hx Hy).
  destruct (polygon_touches (rectangle_ring x0 y0 x1 y1) (x, y)) eqn:T.
  - rewrite orb_true_r. split; [intros _ | reflexivity].
    apply Ht. reflexivity.
  - rewrite orb_false_r. cbn [negb andb].
    destruct (Qle_bool y0 y) eqn:E1, (Qlt_bool y y1) eqn:E2,
      (Qle_bool x0 x) eqn:E3, (Qlt_bool x x1) eqn:E4; cbn;
      qprop; split; try discriminate; try lra; try reflexivity;
      intros [H1 H2]; exfalso;
      assert (true = false) by (apply Ht; lra); discriminate.
Qed.

(** C3. For a zone the constructor returns, [contains_point] is the closed
    rectangle test, and the two corners [(min_x, min_y)] and
    [(max_x, max_y)] are contained. *)
Theorem contains_point_closed_bounds (x0 y0 x1 y1 : Q) (nm : string) (z : Zone) :
  Zone_init x0 y0 x1 y1 nm = Ok z ->
  (forall x y : Q,
     contains_point z x y = true
     <-> (min_x z <= x <= max_x z)%Q /\ (min_y z <= y <= max_y z)%Q)
  /\ contains_point z (min_x z) (min_y z) = true
  /\ contains_point z (max_x z) (max_y z) = true.
Proof.
  intros Hz. apply Zone_init_ok in Hz as (-> & Hx & Hy). cbn [min_x min_y max_x max_y].
  split; [| split].
  - intros x y. apply rectangle_contains_point; assumption.
  - apply rectangle_contains_point; [assumption .. |]. lra.
  - apply rectangle_contains_point; [assumption .. |]. lra.
Qed.

End ZoneFacts.

Section CodecFacts.

Import Struct Codec.

Lemma length_slice (data : list byte) (lo hi : Z) :
  0 <= lo -> lo <= hi -> hi <= len data ->
  length (slice data lo hi) = Z.to_nat (hi - lo).
Proof.
  unfold slice, len. intros H0 H1 H2.
  rewrite length_take, length_drop. lia.
Qed.

Lemma index_in_range (data : list byte) (i : Z) :
  0 <= i < len data -> exists v, index data i = Ok v /\ 0 <= v < 256.
Proof.
  unfold index, len. intros H.
  destruct (data !! Z.to_nat i) as [b |] eqn:E.
  - exists (byte_to_Z b). split; [reflexivity |].
    unfold byte_to_Z. pose proof (Byte.to_N_bounded b). lia.
  - apply lookup_ge_None in E. lia.
Qed.

Lemma unpack_unsigned_exact (n : nat) (bs : list byte) :
  length bs = n -> unpack_unsigned n bs = Ok (be_value bs).
Proof.
  intros H. unfold unpack_unsigned. rewrite (proj2 (Nat.eqb_eq _ _) H).
  reflexivity.
Qed.

Lemma unpack_signed_exact (n : nat) (bs : list byte) :
  length bs = n -> unpack_signed n bs = Ok (to_signed n (be_value bs)).
Proof.
  intros H. unfold unpack_signed. rewrite (unpack_unsigned_exact n bs H).
  reflexivity.
Qed.

Lemma parse_record_in_range (ft : Z) (ct : string) (data : list byte) (offset : Z) :
  0 <= offset -> offset + 23 <= len data ->
  exists t, parse_record ft ct data offset = Ok (t, offset + 23).
Proof.
  intros H0 H1. unfold parse_record.
  rewrite (unpack_unsigned_exact 4) by (rewrite length_slice; lia).
  cbn [mbind result_bind bind].
  rewrite !(unpack_signed_exact 4) by (rewrite length_slice; lia).
  cbn [mbind result_bind bind].
  rewrite (unpack_signed_exact 2) by (rewrite length_slice; lia).
  cbn [mbind result_bind bind].
  destruct (index_in_range data (offset + 4 + 4 + 4 + 2)) as (v1 & -> & _); [lia |].
  cbn [mbind result_bind bind].
  destruct (index_in_range data (offset + 4 + 4 + 4 + 2 + 1)) as (v2 & -> & _); [lia |].
  cbn [mbind result_bind bind].
  destruct (index_in_range data (offset + 4 + 4 + 4 + 2 + 1 + 1)) as (v3 & -> & _); [lia |].
  cbn [mbind result_bind bind].
  rewrite (unpack_unsigned_exact 4) by (rewrite length_slice; lia).
  cbn [mbind result_bind bind].
  destruct (index_in_range data (offset + 4 + 4 + 4 + 2 + 1 + 1 + 1 + 4)) as (v4 & -> & _); [lia |].
  cbn [mbind result_bind bind].
  destruct (index_in_range data (offset + 4 + 4 + 4 + 2 + 1 + 1 + 1 + 4 + 1)) as (v5 & -> & _); [lia |].
  cbn [mbind result_bind bind].
  replace (offset + 4 + 4 + 4 + 2 + 1 + 1 + 1 + 4 + 1 + 1) with (offset + 23) by lia.
  destruct (ft =? 180); eexists; reflexivity.
Qed.

Lemma records_loop_exhausts (ft : Z) (ct : string) (data : list byte) (n : nat) :
  forall (offset : Z) (tags : list TagLocationInfo),
  0 <= offset -> offset + 23 * Z.of_nat n <= len data - 4 ->
  exists new,
    records_loop ft ct data n offset tags = Ok (Exhausted, tags ++ new)
    /\ length new = n
    /\ forall i : nat, (i < n)%nat ->
         exists t, new !! i = Some t
           /\ parse_record ft ct data (offset + 23 * Z.of_nat i)
              = Ok (t, offset + 23 * Z.of_nat i + 23).
Proof.
  induction n as [| n IH]; intros offset tags H0 H1.
  - exists []. rewrite app_nil_r.
    split; [reflexivity | split; [reflexivity | intros i Hi; lia]].
  - cbn [records_loop].
    replace (offset + 23 >? len data - 4) with false by (symmetry; lia).
    destruct (parse_record_in_range ft ct data offset) as [t Ht]; [lia .. |].
    rewrite Ht. cbn [mbind result_bind bind].
    destruct (IH (offset + 23) (tags ++ [t])) as (new & Hnew & Hlen & Hrec); [lia .. |].
    exists (t :: new). split; [| split].
    + rewrite Hnew, <- app_assoc. reflexivity.
    + cbn. lia.
    + intros [| i] Hi.
      * exists t. split; [reflexivity |].
        replace (offset + 23 * Z.of_nat 0) with offset by lia. exact Ht.
      * destruct (Hrec i) as (t' & Ht1 & Ht2); [lia |].
        exists t'. split; [exact Ht1 |].
        replace (offset + 23 * Z.of_nat (S i)) with (offset + 23 + 23 * Z.of_nat i) by lia.
        exact Ht2.
Qed.

(** What the decoder returns, guard by guard. *)
Lemma parse_cases (data : list byte) :
  _parse_tag_location_data data = Ok []
  \/ exists ft n tags,
       5 <= len data
       /\ be_value (slice data 0 2) = 0xCC5F
       /\ index data 2 = Ok ft /\ recognized ft
       /\ index data 3 = Ok n /\ 0 < n
       /\ 4 + n * 23 + 4 <= len data
       /\ records_loop ft (ctype_of ft) data (Z.to_nat n) 4 [] = Ok (Exhausted, tags)
       /\ _parse_tag_location_data data = Ok tags.
Proof.
  unfold _parse_tag_location_data.
  destruct (len data <? 5) eqn:E5; [left; reflexivity |].
  apply Z.ltb_ge in E5.
  unfold parse_body.
  rewrite (unpack_unsigned_exact 2) by (rewrite length_slice; lia).
  cbn [mbind result_bind bind].
  destruct (index_in_range data 2) as (ft & Hft & _); [lia |].
  rewrite Hft. cbn [mbind result_bind bind].
  destruct (be_value (slice data 0 2) =? 0xCC5F) eqn:Eh; cbn [negb]; [| left; reflexivity].
  apply Z.eqb_eq in Eh.
  destruct (index_in_range data 3) as (n & Hn & Hn0 & _); [lia |].
  rewrite Hn.
  assert (Hrest : forall ct, ct = ctype_of ft -> recognized ft ->
    let r := (n ← Ok n;
       (if n =? 0 then Ok []
        else if len data <? 4 + n * 23 + 4 then Ok []
        else '(_, tags) ← records_loop ft ct data (Z.to_nat n) 4 []; Ok tags)) in
    match r with Ok tags => Ok tags | Raise _ => Ok [] end = Ok []
    \/ exists ft' n' tags,
         5 <= len data
         /\ be_value (slice data 0 2) = 0xCC5F
         /\ Ok ft = Ok ft' /\ recognized ft'
         /\ Ok n = Ok n' /\ 0 < n'
         /\ 4 + n' * 23 + 4 <= len data
         /\ records_loop ft' (ctype_of ft') data (Z.to_nat n') 4 [] = Ok (Exhausted, tags)
         /\ match r with Ok tags => Ok tags | Raise _ => Ok [] end = Ok tags).
  { intros ct -> Hrec. cbn [mbind result_bind bind].
    destruct (n =? 0) eqn:En; [left; reflexivity |].
    destruct (len data <? 4 + n * 23 + 4) eqn:El; [left; reflexivity |].
    apply Z.eqb_neq in En. apply Z.ltb_ge in El.
    destruct (records_loop_exhausts ft (ctype_of ft) data (Z.to_nat n) 4 [])
      as (tags & Hloop & _); [lia .. |].
    cbn [app] in Hloop. rewrite Hloop. cbn [mbind result_bind bind].
    right. exists ft, n, tags. repeat split; try assumption; lia. }
  destruct (ft =? 0x81) eqn:E1.
  { apply Hrest; [unfold ctype_of; rewrite E1; reflexivity |].
    left. lia. }
  destruct (ft =? 0xB4) eqn:E2.
  { apply Hrest; [unfold ctype_of; rewrite E1, E2; reflexivity |].
    right; left. lia. }
  destruct (ft =? 0xB5) eqn:E3.
  { apply Hrest; [unfold ctype_of; rewrite E1, E2; reflexivity |].
    right; right. lia. }
  left. reflexivity.
Qed.

(** C6. The CRC routine gives the check values of CRC-16/MODBUS:
    [0x4B37] on the ASCII bytes of "123456789" and [0xFFFF] on the empty
    byte string. *)
Theorem crc16_modbus_check_values :
  _calculate_crc16_modbus (String.list_byte_of_string "123456789") = 0x4B37
  /\ _calculate_crc16_modbus [] = 0xFFFF.
Proof. split; vm_compute; reflexivity. Qed.

(** C4. The location-frame decoder returns a list for every byte string
    (no exception leaves it), and the list is empty when the input has
    fewer than 5 bytes, when the header is not [0xCC5F], when the
    frame-type byte is not [0x81], [0xB4] or [0xB5], when the declared tag
    count is 0, and when the input is shorter than
    [4 + tagCount * 23 + 4]. *)
Theorem decoder_fails_soft (data : list byte) :
  (exists tags, _parse_tag_location_data data = Ok tags)
  /\ (len data < 5 -> _parse_tag_location_data data = Ok [])
  /\ (be_value (slice data 0 2) <> 0xCC5F ->
      _parse_tag_location_data data = Ok [])
  /\ (forall ft, index data 2 = Ok ft -> ~ recognized ft ->
      _parse_tag_location_data data = Ok [])
  /\ (index data 3 = Ok 0 -> _parse_tag_location_data data = Ok [])
  /\ (forall n, index data 3 = Ok n -> len data < 4 + n * 23 + 4 ->
      _parse_tag_location_data data = Ok []).
Proof.
  destruct (parse_cases data) as
    [H | (ft & n & tags & H5 & Hh & Hft & Hrec & Hn & Hpos & Hlen & _ & H)].
  - repeat split; try (intros; exact H). exists []. exact H.
  - split; [exists tags; exact H |].
    split; [intros; lia |].
    split; [intros; contradiction |].
    split; [intros ft' Hft' Hnot; congruence |].
    split; [intros H0; rewrite Hn in H0; injection H0; lia |].
    intros n' Hn' Hshort. rewrite Hn in Hn'. injection Hn' as <-. lia.
Qed.

(** C10. The decoder is all-or-nothing: it returns the empty list, or
    exactly [tag_count] records, the [i]-th one parsed from the 23 bytes at
    [4 + 23 * i]; and whenever the input has at least
    [4 + tag_count * 23 + 4] bytes the loop over the records runs to the
    end of its range: its [break] is not taken and no read fails. *)
Theorem decoder_all_or_nothing (data : list byte) :
  (_parse_tag_location_data data = Ok []
   \/ exists ft n tags,
        index data 2 = Ok ft /\ index data 3 = Ok n
        /\ _parse_tag_location_data data = Ok tags
        /\ len tags = n
        /\ forall i, 0 <= i < n ->
             exists t, tags !! Z.to_nat i = Some t
               /\ parse_record ft (ctype_of ft) data (4 + 23 * i)
                  = Ok (t, 4 + 23 * i + 23))
  /\ (forall ft ct n, 0 <= n -> 4 + n * 23 + 4 <= len data ->
        exists tags,
          records_loop ft ct data (Z.to_nat n) 4 [] = Ok (Exhausted, tags)
          /\ len tags = n).
Proof.
  split.
  - destruct (parse_cases data) as
      [H | (ft & n & tags & H5 & Hh & Hft & Hrec & Hn & Hpos & Hlen & Hloop & H)];
      [left; exact H | right].
    destruct (records_loop_exhausts ft (ctype_of ft) data (Z.to_nat n) 4 [])
      as (new & Hnew & Hcount & Hith); [lia .. |].
    cbn [app] in Hnew. rewrite Hnew in Hloop. injection Hloop as <-.
    exists ft, n, new. repeat split; try assumption.
    + unfold len. lia.
    + intros i Hi. destruct (Hith (Z.to_nat i)) as (t & Ht1 & Ht2); [lia |].
      exists t. split; [exact Ht1 |].
      rewrite Z2Nat.id in Ht2 by lia. exact Ht2.
  - intros ft ct n Hn Hlen.
    destruct (records_loop_exhausts ft ct data (Z.to_nat n) 4 [])
      as (new & Hnew & Hcount & _); [lia .. |].
    exists new. split; [exact Hnew |]. unfold len. lia.
Qed.

End CodecFacts.

Section AuthFacts.

Import Struct Codec.

(** *** The CRC routine against the bit-serial reference *)

Lemma land_1_testbit (a : Z) : negb (Z.land a 1 =? 0) = Z.testbit a 0.
Proof.
  change 1 with (Z.ones 1). rewrite Z.land_ones by lia.
  rewrite <- Z.bit0_mod. destruct (Z.testbit a 0); reflexivity.
Qed.

Lemma crc_shift_feed (r b : Z) (k : Z) :
  0 <= k ->
  crc_shift (Z.lxor r (Z.shiftr b k)) =
  Z.lxor (crc_feed 0xA001 r (Z.testbit b k)) (Z.shiftr b (k + 1)).
Proof.
  intros Hk. unfold crc_shift, crc_feed.
  rewrite land_1_testbit, Z.lxor_spec, Z.shiftr_spec by lia.
  rewrite Z.add_0_l, Z.shiftr_lxor, Z.shiftr_shiftr by lia.
  destruct (xorb (Z.testbit r 0) (Z.testbit b k)); [| reflexivity].
  rewrite !Z.lxor_assoc. f_equal. apply Z.lxor_comm.
Qed.

Lemma crc_iter_feed (b : Z) (k : nat) (crc : Z) :
  Nat.iter k crc_shift (Z.lxor crc b) =
  Z.lxor (fold_left (crc_feed 0xA001)
            (map (fun i => Z.testbit b (Z.of_nat i)) (seq 0 k)) crc)
         (Z.shiftr b (Z.of_nat k)).
Proof.
  induction k as [| k IH].
  - cbn. rewrite Z.shiftr_0_r. reflexivity.
  - rewrite seq_S, map_app, fold_left_app. cbn [map fold_left Nat.add].
    rewrite Nat.iter_succ, IH, crc_shift_feed by lia.
    f_equal. f_equal. lia.
Qed.

Lemma crc_byte_reference (crc : Z) (b : byte) :
  crc_byte crc b = fold_left (crc_feed 0xA001) (bits_lsb_first b) crc.
Proof.
  unfold crc_byte, bits_lsb_first. rewrite crc_iter_feed.
  assert (Hb : 0 <= byte_to_Z b < 256).
  { unfold byte_to_Z. pose proof (Byte.to_N_bounded b). lia. }
  rewrite Z.shiftr_div_pow2 by lia.
  change (2 ^ Z.of_nat 8) with 256. rewrite Z.div_small by lia.
  apply Z.lxor_0_r.
Qed.

Lemma crc16_refines_reference (data : list byte) :
  _calculate_crc16_modbus data = crc16_modbus_reference data.
Proof.
  unfold _calculate_crc16_modbus, crc16_modbus_reference, crc16_reflected.
  generalize 0xFFFF. induction data as [| b data IH]; intros crc.
  - reflexivity.
  - cbn [fold_left flat_map]. rewrite fold_left_app, IH, crc_byte_reference.
    reflexivity.
Qed.

(** *** The CRC stays a 16-bit value *)

Lemma lxor_below (a b n : Z) :
  0 <= n -> 0 <= a < 2 ^ n -> 0 <= b < 2 ^ n -> 0 <= Z.lxor a b < 2 ^ n.
Proof.
  intros Hn Ha Hb.
  assert (H0 : 0 <= Z.lxor a b) by (apply Z.lxor_nonneg; lia).
  split; [exact H0 |].
  destruct (Z.eq_dec (Z.lxor a b) 0) as [-> | Hne]; [lia |].
  assert (Hpos : 0 < n).
  { destruct (Z.eq_dec n 0) as [-> | ?]; [| lia].
    replace a with 0 in Hne by lia. replace b with 0 in Hne by lia.
    contradiction. }
  apply Z.log2_lt_pow2; [lia |].
  eapply Z.le_lt_trans; [apply Z.log2_lxor; lia |].
  apply Z.max_lub_lt.
  - destruct (Z.eq_dec a 0) as [-> | ?]; [cbn; lia |].
    apply Z.log2_lt_pow2; lia.
  - destruct (Z.eq_dec b 0) as [-> | ?]; [cbn; lia |].
    apply Z.log2_lt_pow2; lia.
Qed.

Lemma crc_shift_below (crc : Z) :
  0 <= crc < 2 ^ 16 -> 0 <= crc_shift crc < 2 ^ 16.
Proof.
  intros H. unfold crc_shift.
  assert (Hs : 0 <= Z.shiftr crc 1 < 2 ^ 16).
  { rewrite Z.shiftr_div_pow2 by lia. change (2 ^ 1) with 2.
    split; [apply Z.div_pos; lia |].
    apply Z.div_lt_upper_bound; lia. }
  destruct (negb _); [| exact Hs].
  apply lxor_below; [lia | exact Hs | cbn; lia].
Qed.

Lemma crc_byte_below (crc : Z) (b : byte) :
  0 <= crc < 2 ^ 16 -> 0 <= crc_byte crc b < 2 ^ 16.
Proof.
  intros H. unfold crc_byte.
  assert (Hb : 0 <= byte_to_Z b < 256).
  { unfold byte_to_Z. pose proof (Byte.to_N_bounded b). lia. }
  assert (Hx : 0 <= Z.lxor crc (byte_to_Z b) < 2 ^ 16).
  { apply lxor_below; lia. }
  generalize dependent (Z.lxor crc (byte_to_Z b)). intros x Hx.
  do 8 (rewrite Nat.iter_succ; apply crc_shift_below).
  exact Hx.
Qed.

Lemma crc16_below (data : list byte) :
  0 <= _calculate_crc16_modbus data < 2 ^ 16.
Proof.
  unfold _calculate_crc16_modbus.
  assert (H : 0 <= 0xFFFF < 2 ^ 16) by lia.
  revert H. generalize 0xFFFF.
  induction data as [| b data IH]; intros crc H; [exact H |].
  cbn [fold_left]. apply IH, crc_byte_below, H.
Qed.

(** *** Encoding *)

Lemma encode_app (a b : pystr) (a' b' : list byte) :
  encode a = Ok a' -> encode b = Ok b' -> encode (a ++ b) = Ok (a' ++ b').
Proof.
  revert a'. induction a as [| c a IH]; intros a' Ha Hb.
  - injection Ha as <-. exact Hb.
  - cbn [encode app] in *.
    destruct (utf8_encode_point c) as [bs |]; [| discriminate].
    cbn [mbind result_bind bind] in *.
    destruct (encode a) as [rest |]; [| discriminate].
    cbn [mbind result_bind bind] in *. injection Ha as <-.
    rewrite (IH rest eq_refl Hb). cbn [mbind result_bind bind].
    rewrite <- app_assoc. reflexivity.
Qed.

Lemma encode_ascii (s : pystr) :
  Forall (fun c => 0 <= c < 0x80) s -> encode s = Ok (map Z_to_byte s).
Proof.
  induction 1 as [| c s Hc _ IH]; [reflexivity |].
  cbn [encode map]. unfold utf8_encode_point.
  replace (c <? 0) with false by lia. replace (c <? 0x80) with true by lia.
  cbn [mbind result_bind bind]. rewrite IH. reflexivity.
Qed.

Lemma hex_digit_ascii (d : Z) : 0 <= d < 16 -> 0 <= Hashlib.hex_digit d < 0x80.
Proof. intros H. unfold Hashlib.hex_digit. destruct (d <? 10); lia. Qed.

Lemma length_le_bytes (n : nat) (v : Z) : length (Hashlib.le_bytes n v) = n.
Proof.
  revert v. induction n as [| n IH]; intros v; [reflexivity |].
  cbn. rewrite IH. reflexivity.
Qed.

Lemma length_md5_digest (msg : list byte) : length (Hashlib.md5_digest msg) = 16%nat.
Proof.
  unfold Hashlib.md5_digest.
  destruct (fold_left _ _ _) as [[[a b] c] d].
  rewrite !length_app, !length_le_bytes. reflexivity.
Qed.

Lemma hex_pairs_ascii (digest : list byte) :
  Forall (fun c => 0 <= c < 0x80)
    (flat_map (fun b => [Hashlib.hex_digit (byte_to_Z b / 16);
                         Hashlib.hex_digit (byte_to_Z b mod 16)]) digest)
  /\ length (flat_map (fun b => [Hashlib.hex_digit (byte_to_Z b / 16);
                                 Hashlib.hex_digit (byte_to_Z b mod 16)]) digest)
     = (2 * length digest)%nat.
Proof.
  induction digest as [| b l [IH1 IH2]]; [split; [constructor | reflexivity] |].
  assert (Hb : 0 <= byte_to_Z b < 256).
  { unfold byte_to_Z. pose proof (Byte.to_N_bounded b). lia. }
  cbn [flat_map app length]. split.
  - constructor; [apply hex_digit_ascii | constructor; [apply hex_digit_ascii | exact IH1]].
    + split; [apply Z.div_pos; lia | apply Z.div_lt_upper_bound; lia].
    + apply Z.mod_pos_bound. lia.
  - rewrite IH2. lia.
Qed.

Lemma md5_hexdigest_ascii (msg : list byte) :
  Forall (fun c => 0 <= c < 0x80) (Hashlib.md5_hexdigest msg)
  /\ length (Hashlib.md5_hexdigest msg) = 32%nat.
Proof.
  unfold Hashlib.md5_hexdigest.
  destruct (hex_pairs_ascii (Hashlib.md5_digest msg)) as [H1 H2].
  split; [exact H1 |]. rewrite H2, length_md5_digest. reflexivity.
Qed.

Lemma encode_md5_hexdigest (msg : list byte) :
  encode (Hashlib.md5_hexdigest msg) = Ok (md5_hex msg).
Proof. apply encode_ascii, md5_hexdigest_ascii. Qed.

Lemma pack_unsigned_in_range (n : nat) (v : Z) :
  0 <= v < 2 ^ (8 * Z.of_nat n) -> pack_unsigned n v = Ok (be_bytes n v).
Proof.
  intros H. unfold pack_unsigned.
  replace (0 <=? v) with true by lia.
  replace (v <? 2 ^ (8 * Z.of_nat n)) with true by lia.
  reflexivity.
Qed.

Opaque Hashlib.md5_hexdigest.

(** C5. The auth packet of a collector is the header [0xCC5F], the
    frame-type byte, the 4-byte big-endian length of the username, the
    bytes of the username, the 4-byte big-endian length of the salted hash
    MD5(MD5(password) || salt) in hexadecimal, the bytes of that hash, the
    2-byte big-endian CRC-16/MODBUS (polynomial [0xA001], initial value
    [0xFFFF], bits taken least-significant first) of the bytes from the
    frame type to the hash, and the trailer [0xAABB]. *)
Theorem auth_packet_layout (user pass : pystr) (target : Z) (ub pb : list byte) :
  encode user = Ok ub ->
  encode pass = Ok pb ->
  len user < 2 ^ 32 ->
  let self := UWBCollector_init user pass target in
  let salt_bytes :=
    String.list_byte_of_string "abcdefghijklmnopqrstuvwxyz20191107salt" in
  let salted_hash := md5_hex (md5_hex pb ++ salt_bytes) in
  let crc_data :=
    [x27] ++ be_bytes 4 (len user) ++ ub
    ++ be_bytes 4 (len salted_hash) ++ salted_hash in
  _create_auth_packet self =
    Ok ([xcc; x5f] ++ crc_data
        ++ be_bytes 2 (crc16_modbus_reference crc_data) ++ [xaa; xbb]).
Proof.
  intros Hub Hpb Hlen self salt_bytes salted_hash crc_data.
  assert (Hsalt : encode (salt self) = Ok salt_bytes) by (vm_compute; reflexivity).
  assert (H32 : len (Hashlib.md5_hexdigest (md5_hex pb ++ salt_bytes)) = 32).
  { unfold len. rewrite (proj2 (md5_hexdigest_ascii _)). reflexivity. }
  assert (Hlen' : len salted_hash = 32).
  { unfold salted_hash, md5_hex, len. rewrite length_map. exact H32. }
  unfold _create_auth_packet. cbn [password username self UWBCollector_init].
  rewrite Hpb. cbn [mbind result_bind bind].
  rewrite (encode_app _ _ _ _ (encode_md5_hexdigest pb) Hsalt).
  cbn [mbind result_bind bind].
  rewrite (pack_unsigned_in_range 2 0xCC5F) by (cbn; lia).
  rewrite (pack_unsigned_in_range 1 0x27) by (cbn; lia).
  cbn [mbind result_bind bind].
  rewrite (pack_unsigned_in_range 4 (len user)) by (unfold len in *; cbn; lia).
  cbn [mbind result_bind bind]. rewrite Hub. cbn [mbind result_bind bind].
  rewrite H32, (pack_unsigned_in_range 4 32) by (cbn; lia).
  cbn [mbind result_bind bind]. rewrite encode_md5_hexdigest.
  cbn [mbind result_bind bind].
  rewrite (pack_unsigned_in_range 2 (_calculate_crc16_modbus _))
    by (apply crc16_below).
  cbn [mbind result_bind bind].
  rewrite (pack_unsigned_in_range 2 0xAABB) by (cbn; lia).
  cbn [mbind result_bind bind].
  rewrite crc16_refines_reference.
  unfold crc_data. rewrite Hlen'. reflexivity.
Qed.

Transparent Hashlib.md5_hexdigest.

End AuthFacts.

(** ** The broadcaster *)

Section BroadcastFacts.

Import Dashboard.

Lemma live_dec (chs : gmap Client Channel) (c : Client) :
  live chs c \/ ~ live chs c.
Proof.
  unfold live. destruct (chs !! c) as [ch |] eqn:E.
  - destruct (is_open ch) eqn:O.
    + left. exists ch. auto.
    + right. intros (ch' & [= <-] & H). congruence.
  - right. intros (ch' & [=] & _).
Qed.

Lemma send_json_live (chs : gmap Client Channel) (c : Client) (msg : Message) :
  live chs c ->
  exists ch, chs !! c = Some ch
    /\ send_json chs c msg = Ok (<[c := mkChannel true (inbox ch ++ [msg])]> chs).
Proof.
  intros (ch & Hc & Ho). exists ch. split; [exact Hc |].
  unfold send_json. rewrite Hc, Ho. reflexivity.
Qed.

Lemma send_json_dead (chs : gmap Client Channel) (c : Client) (msg : Message) :
  ~ live chs c -> send_json chs c msg = Raise ConnectionClosed.
Proof.
  intros H. unfold send_json. destruct (chs !! c) as [ch |] eqn:E; [| reflexivity].
  destruct (is_open ch) eqn:O; [| reflexivity].
  exfalso. apply H. exists ch. auto.
Qed.

Lemma live_insert_ne (chs : gmap Client Channel) (c c' : Client) (ch : Channel) :
  c <> c' -> live (<[c := ch]> chs) c' <-> live chs c'.
Proof.
  intros Hne. unfold live. rewrite lookup_insert_ne by exact Hne. reflexivity.
Qed.

(** The sweep over a list of pairwise different clients. *)
Lemma broadcast_sweep (msg : Message) (l : list Client) :
  NoDup l ->
  forall (chs : gmap Client Channel) (disc : gset Client),
  let r := fold_left (broadcast_body msg) l (chs, disc) in
  (forall c, c ∈ r.2 <-> c ∈ disc \/ (c ∈ l /\ ~ live chs c))
  /\ (forall c, c ∈ l -> live chs c -> delivered chs r.1 c msg)
  /\ (forall c, c ∉ l \/ ~ live chs c -> r.1 !! c = chs !! c).
Proof.
  induction 1 as [| c0 l Hnotin Hnd IH]; intros chs disc; cbn [fold_left].
  - cbn. split; [| split].
    + intros c. rewrite elem_of_nil. tauto.
    + intros c Hc. apply elem_of_nil in Hc. contradiction.
    + reflexivity.
  - cbv zeta. destruct (live_dec chs c0) as [Hlive | Hdead].
    + destruct (send_json_live chs c0 msg Hlive) as (ch0 & Hch0 & Hsend).
      set (chs1 := <[c0 := mkChannel true (inbox ch0 ++ [msg])]> chs).
      replace (broadcast_body msg (chs, disc) c0) with (chs1, disc)
        by (unfold broadcast_body; rewrite Hsend; reflexivity).
      destruct (IH chs1 disc) as (IH1 & IH2 & IH3).
      assert (Hother : forall c, c ∈ l -> live chs1 c <-> live chs c).
      { intros c Hc. apply live_insert_ne. intros ->. contradiction. }
      split; [| split].
      * intros c. rewrite IH1, elem_of_cons. split.
        -- intros [? | [Hc Hn]]; [tauto |]. right. split; [tauto |].
           rewrite <- (Hother c Hc). exact Hn.
        -- intros [? | [[-> | Hc] Hn]]; [tauto | contradiction |].
           right. split; [exact Hc |]. rewrite (Hother c Hc). exact Hn.
      * intros c [-> | Hc]%elem_of_cons Hl.
        -- exists ch0. split; [exact Hch0 |].
           rewrite IH3 by (left; exact Hnotin).
           apply lookup_insert_eq.
        -- destruct (IH2 c Hc) as (ch & Hch & Hch'); [apply Hother; assumption |].
           exists ch. split; [| exact Hch'].
           unfold chs1 in Hch. rewrite lookup_insert_ne in Hch; [exact Hch |].
           intros ->. contradiction.
      * intros c Hc.
        assert (c <> c0).
        { intros ->. destruct Hc as [Hc | Hc]; [| contradiction].
          apply Hc. left. }
        rewrite IH3.
        -- apply lookup_insert_ne. congruence.
        -- destruct Hc as [Hc | Hc].
           ++ left. intros Hin. apply Hc. right. exact Hin.
           ++ right. unfold chs1. rewrite live_insert_ne by congruence. exact Hc.
    + replace (broadcast_body msg (chs, disc) c0) with (chs, disc ∪ {[c0]})
        by (unfold broadcast_body; rewrite (send_json_dead chs c0 msg Hdead);
            reflexivity).
      destruct (IH chs (disc ∪ {[c0]})) as (IH1 & IH2 & IH3).
      split; [| split].
      * intros c. rewrite IH1, elem_of_union, elem_of_singleton, elem_of_cons.
        split.
        -- intros [[? | ->] | [? ?]]; tauto.
        -- intros [? | [[-> | ?] ?]]; tauto.
      * intros c [-> | Hc]%elem_of_cons Hl; [contradiction |].
        apply IH2; assumption.
      * intros c Hc. apply IH3. destruct Hc as [Hc | Hc]; [| tauto].
        left. intros Hin. apply Hc. right. exact Hin.
Qed.

(** C7. One call of the broadcaster: the subscriber set after the call is
    the set before it without the subscribers whose delivery failed; every
    subscriber whose connection is open received the event and stays
    subscribed; every subscriber whose delivery failed is gone. *)
Theorem broadcast_reaps_failed (app : AppState) (w : World) (msg : Message) :
  let r := _broadcast_to_dashboard app w msg in
  (forall c, c ∈ dashboard_clients r.1
             <-> c ∈ dashboard_clients app /\ live (channels w) c)
  /\ (forall c, c ∈ dashboard_clients app -> ~ live (channels w) c ->
        send_json (channels w) c msg = Raise ConnectionClosed
        /\ c ∉ dashboard_clients r.1)
  /\ (forall c, c ∈ dashboard_clients app -> live (channels w) c ->
        delivered (channels w) (channels r.2) c msg
        /\ c ∈ dashboard_clients r.1).
Proof.
  unfold _broadcast_to_dashboard.
  pose proof (broadcast_sweep msg (elements (dashboard_clients app))
                (NoDup_elements _) (channels w) ∅) as (H1 & H2 & H3).
  destruct (fold_left _ _ _) as [chs disc]. cbn [fst snd] in *.
  cbn [dashboard_clients channels].
  assert (Hset : forall c, c ∈ dashboard_clients app ∖ disc
                           <-> c ∈ dashboard_clients app /\ live (channels w) c).
  { intros c. rewrite elem_of_difference, H1, elem_of_elements.
    split.
    - intros [Hc Hnot]. split; [exact Hc |].
      destruct (live_dec (channels w) c) as [Hl | Hd]; [exact Hl |].
      exfalso. apply Hnot. right. auto.
    - intros [Hc Hl]. split; [exact Hc |].
      intros [He | [_ Hn]]; [| contradiction].
      apply not_elem_of_empty in He. exact He. }
  split; [exact Hset | split].
  - intros c Hc Hdead. split; [apply send_json_dead, Hdead |].
    rewrite Hset. tauto.
  - intros c Hc Hl. split; [| apply Hset; auto].
    apply H2; [apply elem_of_elements, Hc | exact Hl].
Qed.

End BroadcastFacts.

(** ** The geofence engine *)

Section GeofenceFacts.

Import Geofence.

Lemma same_config_refl (svc : GeofencingService) : same_config svc svc.
Proof. repeat split. Qed.

Lemma same_config_trans (a b c : GeofencingService) :
  same_config a b -> same_config b c -> same_config a c.
Proof.
  intros (H1 & H2 & H3 & H4) (K1 & K2 & K3 & K4).
  repeat split; congruence.
Qed.

Lemma clock_suffix_refl (clk : Clock) : clock_suffix clk clk.
Proof. exists 0%nat. reflexivity. Qed.

Lemma clock_suffix_trans (a b c : Clock) :
  clock_suffix a b -> clock_suffix b c -> clock_suffix a c.
Proof.
  intros [i Hi] [j Hj]. exists (i + j)%nat. intros k.
  rewrite Hj, Hi. f_equal. lia.
Qed.

Lemma clock_suffix_time (clk : Clock) : clock_suffix clk (time_time clk).2.
Proof. exists 1%nat. reflexivity. Qed.

Lemma clock_suffix_frozen (clk clk' : Clock) (now : Q) :
  (forall k, clk k = now) -> clock_suffix clk clk' -> forall k, clk' k = now.
Proof. intros H [j Hj] k. rewrite Hj. apply H. Qed.

Lemma untouched_refl (key : Key) (st : LoopState) : untouched key st st.
Proof.
  split; [apply same_config_refl |]. split; [apply clock_suffix_refl |].
  split; [reflexivity |]. exists []. rewrite app_nil_r. split; [reflexivity | constructor].
Qed.

Lemma untouched_trans (key : Key) (a b c : LoopState) :
  untouched key a b -> untouched key b c -> untouched key a c.
Proof.
  intros (H1 & H2 & H3 & e1 & H4 & H5) (K1 & K2 & K3 & e2 & K4 & K5).
  split; [eapply same_config_trans; eassumption |].
  split; [eapply clock_suffix_trans; eassumption |].
  split; [congruence |].
  exists (e1 ++ e2). split; [rewrite K4, H4, app_assoc; reflexivity |].
  apply Forall_app; auto.
Qed.

(** What [_can_fire] answers and what it does to the clock. *)
Lemma can_fire_spec (svc : GeofencingService) (clk : Clock) (key : Key) :
  clock_suffix clk (_can_fire svc clk key).2
  /\ (_fired svc !! key = None -> (_can_fire svc clk key).1 = true)
  /\ (forall r t, retrigger_after_sec svc = Some r ->
        _fired svc !! key = Some t ->
        (_can_fire svc clk key).1 = Qge_bool (clk 0%nat - t) r).
Proof.
  unfold _can_fire.
  destruct (retrigger_after_sec svc) as [r |].
  - destruct (_fired svc !! key) as [t |].
    + cbn. split; [apply (clock_suffix_time clk) |].
      split; [discriminate |]. intros r' t' [= <-] [= <-]. reflexivity.
    + cbn. split; [apply clock_suffix_refl |].
      split; [reflexivity | discriminate].
  - cbn. split; [apply clock_suffix_refl |].
    split; [| discriminate].
    intros H. apply bool_decide_eq_true. exact H.
Qed.

(** One pass of the loop over the zones, seen from the key of the pass. *)
Lemma zone_body_own_key (tag : Z) (x y : Q) (st : LoopState) (z : Zone) :
  let st' := zone_body tag x y st z in
  let key := (tag, name z) in
  same_config st.1.1 st'.1.1
  /\ clock_suffix st.1.2 st'.1.2
  /\ (forall k, k <> key -> _fired st'.1.1 !! k = _fired st.1.1 !! k)
  /\ (contains_point z x y = false ->
        _fired st'.1.1 !! key = None /\ st'.2 = st.2)
  /\ (contains_point z x y = true ->
        exists fire : bool,
          (_fired st.1.1 !! key = None -> fire = true)
          /\ (forall r t, retrigger_after_sec st.1.1 = Some r ->
                _fired st.1.1 !! key = Some t ->
                fire = Qge_bool (st.1.2 0%nat - t) r)
          /\ st'.2 = st.2 ++ (if fire then [mkAlert tag z (x, y)] else [])
          /\ (fire = true -> exists i, _fired st'.1.1 !! key = Some (st.1.2 i))
          /\ (fire = false -> _fired st'.1.1 !! key = _fired st.1.1 !! key)).
Proof.
  destruct st as [[svc clk] alerts]. cbv zeta. cbn [fst snd].
  unfold zone_body, _clear_if_outside.
  destruct (contains_point z x y) eqn:Hin; cbn [negb].
  - pose proof (can_fire_spec svc clk (tag, name z)) as (Hc1 & Hc2 & Hc3).
    destruct (_can_fire svc clk (tag, name z)) as [can clk1]. cbn [fst snd] in *.
    destruct can.
    + unfold _mark_fired, time_time.
      assert (Hcfg : forall s, same_config svc
                (if on_danger (set_fired svc s)
                 then call_on_danger (set_fired svc s) (mkAlert tag z (x, y))
                 else set_fired svc s)).
      { intros s. destruct (on_danger _); repeat split. }
      assert (Hf : forall s, _fired
                (if on_danger (set_fired svc s)
                 then call_on_danger (set_fired svc s) (mkAlert tag z (x, y))
                 else set_fired svc s) = s).
      { intros s. destruct (on_danger _); reflexivity. }
      cbn [fst snd]. rewrite Hf.
      split; [apply Hcfg |].
      split; [eapply clock_suffix_trans; [exact Hc1 | apply (clock_suffix_time clk1)] |].
      split; [intros k Hk; apply lookup_insert_ne; congruence |].
      split; [discriminate |]. intros _. exists true.
      split; [reflexivity |]. split; [intros r t Hr Ht; eauto |].
      split; [reflexivity |].
      split; [| discriminate]. intros _.
      destruct Hc1 as [j Hj]. exists (j + 0)%nat.
      rewrite lookup_insert_eq, Hj. reflexivity.
    + cbn [fst snd].
      split; [apply same_config_refl |]. split; [exact Hc1 |].
      split; [reflexivity |]. split; [discriminate |]. intros _. exists false.
      split; [intros H; auto |].
      split; [intros r t Hr Ht; eauto |].
      split; [rewrite app_nil_r; reflexivity |].
      split; [discriminate | reflexivity].
  - cbn [fst snd _fired set_fired].
    split; [repeat split |]. split; [apply clock_suffix_refl |].
    split; [intros k Hk; apply lookup_delete_ne; congruence |].
    split; [| discriminate]. intros _. split; [apply lookup_delete_eq | reflexivity].
Qed.

Lemma zone_body_other_key (key : Key) (tag : Z) (x y : Q) (st : LoopState) (z : Zone) :
  (tag, name z) <> key -> untouched key st (zone_body tag x y st z).
Proof.
  intros Hne.
  pose proof (zone_body_own_key tag x y st z) as (H1 & H2 & H3 & H4 & H5).
  cbv zeta in *.
  split; [exact H1 |]. split; [exact H2 |].
  split; [apply H3; congruence |].
  destruct (contains_point z x y).
  - destruct (H5 eq_refl) as (fire & _ & _ & Ha & _).
    eexists. split; [exact Ha |].
    destruct fire; repeat constructor. exact Hne.
  - destruct (H4 eq_refl) as [_ Ha]. exists [].
    rewrite app_nil_r. split; [exact Ha | constructor].
Qed.

Lemma zones_fold_other_key (key : Key) (tag : Z) (x y : Q) (zs : list Zone) :
  forall st : LoopState,
  (forall z, z ∈ zs -> (tag, name z) <> key) ->
  untouched key st (fold_left (zone_body tag x y) zs st).
Proof.
  induction zs as [| z zs IH]; intros st Hzs; cbn [fold_left].
  - apply untouched_refl.
  - eapply untouched_trans.
    + apply zone_body_other_key, Hzs. left.
    + apply IH. intros z' Hz'. apply Hzs. right. exact Hz'.
Qed.

Lemma position_body_other_key (key : Key) (st : LoopState) (item : Z * (Q * Q)) :
  item.1 <> key.1 -> untouched key st (position_body st item).
Proof.
  intros Hne. unfold position_body.
  destruct item as [tag [x y]]. destruct st as [[svc clk] alerts].
  destruct (filtered_out svc tag); [apply untouched_refl |].
  apply zones_fold_other_key. intros z _ E. apply Hne. rewrite <- E. reflexivity.
Qed.

Lemma positions_fold_other_key (key : Key) (ps : list (Z * (Q * Q))) :
  forall st : LoopState,
  (forall item, item ∈ ps -> item.1 <> key.1) ->
  untouched key st (fold_left position_body ps st).
Proof.
  induction ps as [| p ps IH]; intros st Hps; cbn [fold_left].
  - apply untouched_refl.
  - eapply untouched_trans.
    + apply position_body_other_key, Hps. left.
    + apply IH. intros q Hq. apply Hps. right. exact Hq.
Qed.

Lemma elem_of_map_1 {A B : Type} (f : A -> B) (l : list A) (a : A) :
  a ∈ l -> f a ∈ map f l.
Proof. rewrite !list_elem_of_In. apply in_map. Qed.

(** The pass for the zone [z] inside the loop over zones whose names are
    pairwise different. *)
Lemma zones_fold_own_key (tag : Z) (x y : Q) (z : Zone) (zs : list Zone) :
  forall st : LoopState,
  NoDup (map name zs) -> z ∈ zs ->
  exists st_a,
    untouched (tag, name z) st st_a
    /\ untouched (tag, name z) (zone_body tag x y st_a z)
         (fold_left (zone_body tag x y) zs st).
Proof.
  induction zs as [| z0 zs IH]; intros st Hnd Hz.
  - apply elem_of_nil in Hz. contradiction.
  - cbn [map] in Hnd. apply NoDup_cons in Hnd as [Hfresh Hnd].
    cbn [fold_left]. apply elem_of_cons in Hz as [-> | Hz].
    + exists st. split; [apply untouched_refl |].
      apply zones_fold_other_key. intros z' Hz' [= E].
      apply Hfresh. rewrite <- E. apply elem_of_map_1, Hz'.
    + destruct (IH (zone_body tag x y st z0) Hnd Hz) as (st_a & Ha & Hb).
      exists st_a. split; [| exact Hb].
      eapply untouched_trans; [| exact Ha].
      apply zone_body_other_key. intros [= E].
      apply Hfresh. rewrite E. apply elem_of_map_1, Hz.
Qed.

(** The pass for the item of [tag] and the zone [z] inside the two loops,
    for a dict and zones with pairwise different names. *)
Lemma positions_fold_own_key (tag : Z) (x y : Q) (z : Zone)
    (ps : list (Z * (Q * Q))) :
  forall st : LoopState,
  NoDup (map fst ps) -> (tag, (x, y)) ∈ ps ->
  NoDup (map name (zones st.1.1)) -> z ∈ zones st.1.1 ->
  filtered_out st.1.1 tag = false ->
  exists st_a,
    untouched (tag, name z) st st_a
    /\ untouched (tag, name z) (zone_body tag x y st_a z)
         (fold_left position_body ps st).
Proof.
  induction ps as [| p ps IH]; intros st Hnd Hp Hzn Hz Hfilter.
  - apply elem_of_nil in Hp. contradiction.
  - cbn [map] in Hnd. apply NoDup_cons in Hnd as [Hfresh Hnd].
    cbn [fold_left]. apply elem_of_cons in Hp as [<- | Hp].
    + destruct st as [[svc clk] alerts]. cbn [fst snd] in *.
      unfold position_body at 2. rewrite Hfilter.
      destruct (zones_fold_own_key tag x y z (zones svc) (svc, clk, alerts) Hzn Hz)
        as (st_a & Ha & Hb).
      exists st_a. split; [exact Ha |].
      eapply untouched_trans; [exact Hb |].
      apply positions_fold_other_key. intros q Hq E.
      apply Hfresh. cbn [fst] in *. rewrite <- E. apply elem_of_map_1, Hq.
    + assert (Hu : untouched (tag, name z) st (position_body st p)).
      { apply position_body_other_key. intros E. apply Hfresh.
        cbn [fst] in E. rewrite E. apply (elem_of_map_1 fst _ _ Hp). }
      destruct Hu as (Hcfg & Hu).
      destruct Hcfg as (C1 & C2 & C3 & C4).
      destruct (IH (position_body st p) Hnd Hp) as (st_a & Ha & Hb).
      * rewrite C1. exact Hzn.
      * rewrite C1. exact Hz.
      * unfold filtered_out in *. rewrite C4. exact Hfilter.
      * exists st_a. split; [| exact Hb].
        eapply untouched_trans; [| exact Ha].
        split; [repeat split; assumption | exact Hu].
Qed.

Lemma process_positions_unfold (svc : GeofencingService) (clk : Clock)
    (ps : list (Z * (Q * Q))) :
  let st := fold_left position_body ps
              (set_latest_positions svc (dict_update (latest_positions svc) ps),
               clk, []) in
  process_positions svc clk ps = (st.2, st.1.1, st.1.2).
Proof.
  unfold process_positions. cbv zeta.
  destruct (fold_left _ _ _) as [[s c] a]. reflexivity.
Qed.

Lemma not_elem_of_other_keys (a : Alert) (extra : list Alert) :
  Forall (fun b => alert_key b <> alert_key a) extra -> a ∉ extra.
Proof.
  intros H Hin. rewrite Forall_forall in H. exact (H a Hin eq_refl).
Qed.

(** How one evaluation call treats the pair of a tag that passes the filter
    and a zone: everything before and after the pass of the pair leaves
    the key of the pair alone. *)
Lemma process_positions_own_key (svc : GeofencingService) (clk : Clock)
    (ps : list (Z * (Q * Q))) (tag : Z) (x y : Q) (z : Zone) :
  NoDup (map fst ps) -> NoDup (map name (zones svc)) ->
  (tag, (x, y)) ∈ ps -> filtered_out svc tag = false -> z ∈ zones svc ->
  let res := process_positions svc clk ps in
  exists st_a,
    untouched (tag, name z) (svc, clk, []) st_a
    /\ untouched (tag, name z) (zone_body tag x y st_a z)
         (res.1.2, res.2, res.1.1).
Proof.
  intros Hps Hzs Hp Hf Hz. cbv zeta. rewrite process_positions_unfold.
  cbv zeta. cbn [fst snd].
  set (st0 := (set_latest_positions svc _, clk, [])).
  destruct (positions_fold_own_key tag x y z ps st0 Hps Hp Hzs Hz Hf)
    as (st_a & Ha & Hb).
  exists st_a. split; [exact Ha |].
  destruct (fold_left position_body ps st0) as [[s c] a]. exact Hb.
Qed.

(** C1, as amended. In an evaluation call at time [now], for a tag of the
    batch that passes the tag filter and lies inside a configured zone
    (zone names pairwise different), the alert for the tag and the zone is
    emitted if and only if the key has no hysteresis entry or its entry is
    at least [retrigger_after_sec] old; an emitted alert records [now] for
    the key, and without alert the entry of the key is unchanged. *)
Theorem alert_iff_may_fire (svc : GeofencingService) (clk : Clock)
    (positions : list (Z * (Q * Q))) (now r : Q)
    (tag : Z) (x y : Q) (z : Zone) :
  retrigger_after_sec svc = Some r ->
  (forall k, clk k = now) ->
  NoDup (map fst positions) ->
  NoDup (map name (zones svc)) ->
  (tag, (x, y)) ∈ positions ->
  filtered_out svc tag = false ->
  z ∈ zones svc ->
  contains_point z x y = true ->
  alert_rule svc clk positions now r tag x y z.
Proof.
  intros Hr Hclk Hps Hzs Hp Hf Hz Hin.
  destruct (process_positions_own_key svc clk positions tag x y z Hps Hzs Hp Hf Hz)
    as (st_a & Ha & Hb).
  unfold alert_rule. cbv zeta in *.
  destruct (process_positions svc clk positions) as [[alerts svc'] clk'].
  cbn [fst snd] in *.
  destruct Ha as (Ca & Ka & Fa & ea & Aa & Ea).
  destruct Hb as (_ & _ & Fb & eb & Ab & Eb).
  cbn [fst snd app] in *.
  pose proof (zone_body_own_key tag x y st_a z) as (_ & _ & _ & _ & Hstep).
  cbv zeta in Hstep.
  destruct (Hstep Hin) as (fire & Hnone & Hsome & Halerts & Hset & Hkeep).
  assert (Hnow : forall k, st_a.1.2 k = now)
    by (apply (clock_suffix_frozen clk); assumption).
  assert (Hr' : retrigger_after_sec st_a.1.1 = Some r).
  { destruct Ca as (_ & _ & C & _). rewrite C. exact Hr. }
  rewrite Fa in Hnone, Hsome, Hkeep.
  assert (Hfire : fire = true <-> may_fire r now (_fired svc !! (tag, name z))).
  { unfold may_fire. destruct (_fired svc !! (tag, name z)) as [t |] eqn:E.
    - rewrite (Hsome r t Hr' eq_refl), Hnow. unfold Qge_bool.
      rewrite Qle_bool_iff. split.
      + intros H. right. exists t. auto.
      + intros [H | (t' & [= <-] & H)]; [discriminate | exact H].
    - split; [intros _; left; reflexivity | intros _; apply Hnone; reflexivity]. }
  assert (Hmem : mkAlert tag z (x, y) ∈ alerts <-> fire = true).
  { rewrite Ab, Halerts, Aa, !elem_of_app. split.
    - intros [[H | H] | H].
      + exfalso.
        apply (not_elem_of_other_keys (mkAlert tag z (x, y)) ea); [exact Ea | exact H].
      + destruct fire; [reflexivity |]. apply elem_of_nil in H. contradiction.
      + exfalso.
        apply (not_elem_of_other_keys (mkAlert tag z (x, y)) eb); [exact Eb | exact H].
    - intros ->. left. right. left. }
  split; [| split].
  - rewrite Hmem. exact Hfire.
  - intros H. apply Hmem in H. destruct (Hset H) as [i Hi].
    rewrite Fb, Hi, Hnow. reflexivity.
  - intros H. rewrite Fb. apply Hkeep.
    destruct fire; [| reflexivity]. exfalso. apply H, Hmem. reflexivity.
Qed.

(** C1, as stated, fails for a tag that the tag filter skips: tag 1 is in
    the batch, inside zone [A], and has no hysteresis entry, yet the
    service that watches tag 42 only emits no alert for it. *)
Lemma alert_rule_fails_for_filtered_tag :
  (1, ((3 # 2)%Q, (3 # 2)%Q)) ∈ [(1, ((3 # 2)%Q, (3 # 2)%Q))]
  /\ zone_A ∈ zones service_42
  /\ contains_point zone_A (3 # 2) (3 # 2) = true
  /\ retrigger_after_sec service_42 = Some 5%Q
  /\ ~ alert_rule service_42 (frozen 0) [(1, ((3 # 2)%Q, (3 # 2)%Q))] 0 5
         1 (3 # 2) (3 # 2) zone_A.
Proof.
  split; [left |]. split; [left |]. split; [vm_compute; reflexivity |].
  split; [reflexivity |].
  intros (H & _).
  assert (Hno : (process_positions service_42 (frozen 0)
                   [(1, ((3 # 2)%Q, (3 # 2)%Q))]).1.1 = []).
  { vm_compute. reflexivity. }
  cbv zeta in H. rewrite Hno in H.
  assert (Hin : mkAlert 1 zone_A ((3 # 2)%Q, (3 # 2)%Q) ∈ @nil Alert).
  { apply H. left. reflexivity. }
  apply elem_of_nil in Hin. exact Hin.
Qed.

Lemma zones_fold_config (tag : Z) (x y : Q) (zs : list Zone) :
  forall st : LoopState,
  same_config st.1.1 (fold_left (zone_body tag x y) zs st).1.1.
Proof.
  induction zs as [| z zs IH]; intros st; cbn [fold_left].
  - apply same_config_refl.
  - eapply same_config_trans; [| apply IH].
    apply (zone_body_own_key tag x y st z).
Qed.

Lemma positions_fold_config (ps : list (Z * (Q * Q))) :
  forall st : LoopState,
  same_config st.1.1 (fold_left position_body ps st).1.1.
Proof.
  induction ps as [| [tag [x y]] ps IH]; intros st; cbn [fold_left].
  - apply same_config_refl.
  - eapply same_config_trans; [| apply IH].
    unfold position_body. destruct st as [[svc clk] alerts].
    destruct (filtered_out svc tag); [apply same_config_refl |].
    apply (zones_fold_config tag x y (zones svc) (svc, clk, alerts)).
Qed.

Lemma process_positions_config (svc : GeofencingService) (clk : Clock)
    (ps : list (Z * (Q * Q))) :
  same_config svc (process_positions svc clk ps).1.2.
Proof.
  rewrite process_positions_unfold. cbv zeta. cbn [fst snd].
  eapply same_config_trans; [| apply positions_fold_config].
  repeat split.
Qed.

(** A tag that passes the filter, lies inside a zone and has no entry for
    it fires, whatever the clock and the retrigger interval. *)
Lemma fresh_entry_fires (svc : GeofencingService) (clk : Clock)
    (ps : list (Z * (Q * Q))) (tag : Z) (x y : Q) (z : Zone) :
  NoDup (map fst ps) -> NoDup (map name (zones svc)) ->
  (tag, (x, y)) ∈ ps -> filtered_out svc tag = false -> z ∈ zones svc ->
  contains_point z x y = true ->
  _fired svc !! (tag, name z) = None ->
  mkAlert tag z (x, y) ∈ (process_positions svc clk ps).1.1.
Proof.
  intros Hps Hzs Hp Hf Hz Hin Hnone.
  destruct (process_positions_own_key svc clk ps tag x y z Hps Hzs Hp Hf Hz)
    as (st_a & Ha & Hb).
  cbv zeta in *.
  destruct (process_positions svc clk ps) as [[alerts svc'] clk'].
  cbn [fst snd] in *.
  destruct Ha as (_ & _ & Fa & _).
  destruct Hb as (_ & _ & _ & eb & Ab & _).
  cbn [fst snd] in *.
  pose proof (zone_body_own_key tag x y st_a z) as (_ & _ & _ & _ & Hstep).
  cbv zeta in Hstep.
  destruct (Hstep Hin) as (fire & Hfire & _ & Halerts & _).
  rewrite Fa in Hfire. rewrite (Hfire Hnone) in Halerts.
  rewrite Ab, Halerts, !elem_of_app. left. right. left.
Qed.

(** C2. After an evaluation call, a tag of the batch that passes the tag
    filter and lies outside a zone has no hysteresis entry for that zone
    (zone names pairwise different); so whatever the state before the exit
    was, in particular with an alert fired a moment ago, the next call that
    sees the tag inside the zone emits an alert for it, at any time. *)
Theorem exit_clears_entry (svc : GeofencingService) (clk : Clock)
    (positions : list (Z * (Q * Q))) (tag : Z) (x y : Q) (z : Zone) :
  NoDup (map fst positions) ->
  NoDup (map name (zones svc)) ->
  (tag, (x, y)) ∈ positions ->
  filtered_out svc tag = false ->
  z ∈ zones svc ->
  contains_point z x y = false ->
  let svc' := (process_positions svc clk positions).1.2 in
  _fired svc' !! (tag, name z) = None
  /\ forall (clk' : Clock) (positions' : list (Z * (Q * Q))) (x' y' : Q),
       NoDup (map fst positions') ->
       (tag, (x', y')) ∈ positions' ->
       contains_point z x' y' = true ->
       mkAlert tag z (x', y') ∈ (process_positions svc' clk' positions').1.1.
Proof.
  intros Hps Hzs Hp Hf Hz Hout svc'.
  assert (Hnone : _fired svc' !! (tag, name z) = None).
  { unfold svc'.
    destruct (process_positions_own_key svc clk positions tag x y z Hps Hzs Hp Hf Hz)
      as (st_a & _ & Hb).
    cbv zeta in Hb.
    destruct (process_positions svc clk positions) as [[alerts s] c].
    cbn [fst snd] in *. destruct Hb as (_ & _ & Fb & _). cbn [fst snd] in Fb.
    rewrite Fb.
    pose proof (zone_body_own_key tag x y st_a z) as (_ & _ & _ & Hstep & _).
    apply Hstep, Hout. }
  split; [exact Hnone |].
  intros clk' positions' x' y' Hps' Hp' Hin'.
  destruct (process_positions_config svc clk positions) as (C1 & _ & _ & C4).
  fold svc' in C1, C4.
  apply fresh_entry_fires; try assumption.
  - rewrite C1. exact Hzs.
  - unfold filtered_out in *. rewrite C4. exact Hf.
  - rewrite C1. exact Hz.
Qed.

(** While every zone that contains the point holds a younger entry for the
    tag than the retrigger interval, the loop over the zones appends no
    alert. *)
Lemma zones_fold_suppressed (tag : Z) (x y now r : Q) (zs : list Zone) :
  forall st : LoopState,
  retrigger_after_sec st.1.1 = Some r ->
  (forall k, st.1.2 k = now) ->
  NoDup (map name zs) ->
  (forall z, z ∈ zs -> contains_point z x y = true ->
     exists t, _fired st.1.1 !! (tag, name z) = Some t /\ (now - t < r)%Q) ->
  (fold_left (zone_body tag x y) zs st).2 = st.2.
Proof.
  induction zs as [| z zs IH]; intros st Hr Hclk Hnd Hent; cbn [fold_left].
  - reflexivity.
  - cbn [map] in Hnd. apply NoDup_cons in Hnd as [Hfresh Hnd].
    pose proof (zone_body_own_key tag x y st z) as (Hc & Hk & Hframe & Hout & Hin).
    cbv zeta in *.
    assert (Hsame : (zone_body tag x y st z).2 = st.2).
    { destruct (contains_point z x y) eqn:E.
      - destruct (Hin eq_refl) as (fire & _ & Hfire & Ha & _).
        destruct (Hent z) as (t & Ht & Hlt); [left | exact E |].
        rewrite (Hfire r t Hr Ht), Hclk in Ha.
        replace (Qge_bool (now - t) r) with false in Ha
          by (symmetry; unfold Qge_bool; qprop; exact Hlt).
        rewrite app_nil_r in Ha. exact Ha.
      - apply Hout. reflexivity. }
    rewrite IH, Hsame; [reflexivity | | | exact Hnd |].
    + destruct Hc as (_ & _ & C & _). rewrite C. exact Hr.
    + apply (clock_suffix_frozen st.1.2); assumption.
    + intros z' Hz' Hin'. rewrite Hframe.
      * apply Hent; [right; exact Hz' | exact Hin'].
      * intros [= E]. apply Hfresh. rewrite <- E. apply elem_of_map_1, Hz'.
Qed.

End GeofenceFacts.

(** ** The location-update pipeline *)

Section PipelineFacts.

Import Geofence Codec Dashboard.

Lemma broadcast_published (app : AppState) (w : World) (msg : Message) :
  published (_broadcast_to_dashboard app w msg).2 = published w ++ [msg].
Proof.
  unfold _broadcast_to_dashboard.
  destruct (fold_left _ _ _) as [chs disc]. reflexivity.
Qed.

(** C9. For a processed tag position, the [position_update] event that is
    published carries [in_danger_zone = true] exactly when the geofence
    evaluation of that position, in the same pass, emitted at least one
    alert. In particular, for a tag inside a zone whose entry is younger
    than the retrigger interval (and so for every zone that contains it),
    no alert fires and the event carries [in_danger_zone = false]. *)
Theorem in_danger_zone_iff_alert (app : AppState) (w : World)
    (tag : TagLocationInfo) :
  let x := x_coordinate tag in
  let y := y_coordinate tag in
  let evaluation :=
    process_positions (geofencing app) (clock w) [(tag_id tag, (x, y))] in
  let res := update_body app w tag in
  res.2 = evaluation.1.1
  /\ (exists before flag,
        published res.1.2
        = before ++ [position_update (tag_id tag) x y (battery tag)
                       (timestamp tag) flag]
        /\ (flag = true <-> evaluation.1.1 <> []))
  /\ (forall (now r : Q) (z : Zone),
        retrigger_after_sec (geofencing app) = Some r ->
        (forall k, clock w k = now) ->
        NoDup (map name (zones (geofencing app))) ->
        z ∈ zones (geofencing app) ->
        contains_point z x y = true ->
        (forall z', z' ∈ zones (geofencing app) ->
           contains_point z' x y = true ->
           exists t, _fired (geofencing app) !! (tag_id tag, name z') = Some t
                     /\ (now - t < r)%Q) ->
        evaluation.1.1 = []
        /\ exists before,
             published res.1.2
             = before ++ [position_update (tag_id tag) x y (battery tag)
                            (timestamp tag) false]).
Proof.
  cbv zeta.
  assert (Hbody : exists before,
    (update_body app w tag).2
    = (process_positions (geofencing app) (clock w)
         [(tag_id tag, (x_coordinate tag, y_coordinate tag))]).1.1
    /\ published (update_body app w tag).1.2
       = before ++ [position_update (tag_id tag) (x_coordinate tag)
                      (y_coordinate tag) (battery tag) (timestamp tag)
                      (0 <? len (update_body app w tag).2)]).
  { unfold update_body. cbn [geofencing dashboard_clients app_latest_positions].
    destruct (process_positions _ _ _) as [[alerts svc] clk].
    destruct (fold_left _ alerts _) as [app1 w1].
    pose proof (broadcast_published app1 w1
      (position_update (tag_id tag) (x_coordinate tag) (y_coordinate tag)
         (battery tag) (timestamp tag) (0 <? len alerts))) as Hp.
    destruct (_broadcast_to_dashboard app1 w1 _) as [app2 w2].
    cbn [fst snd] in *. exists (published w1). split; [reflexivity | exact Hp]. }
  destruct Hbody as (before & Halerts & Hpub).
  assert (Hflag : forall l : list Alert, (0 <? len l) = true <-> l <> []).
  { intros [| a l]; unfold len; cbn [length].
    - split; [discriminate | congruence].
    - split; [discriminate | intros _; apply Z.ltb_lt; lia]. }
  split; [exact Halerts |]. split.
  - exists before, (0 <? len (update_body app w tag).2).
    split; [exact Hpub |]. rewrite Hflag, Halerts. reflexivity.
  - intros now r z Hr Hclk Hnd Hz Hin Hent.
    assert (Hnone : (process_positions (geofencing app) (clock w)
              [(tag_id tag, (x_coordinate tag, y_coordinate tag))]).1.1 = []).
    { rewrite process_positions_unfold. cbv zeta. cbn [fst snd fold_left].
      unfold position_body.
      set (svc0 := set_latest_positions _ _).
      destruct (filtered_out svc0 (tag_id tag)); [reflexivity |].
      rewrite (zones_fold_suppressed (tag_id tag) _ _ now r); try assumption.
      reflexivity. }
    split; [exact Hnone |]. exists before.
    rewrite Hpub, Halerts, Hnone. reflexivity.
Qed.

End PipelineFacts.

(** ** The theorems at concrete inputs *)

Section Instances.

Import Struct Geofence Codec Dashboard.

Lemma zone_A_constructed : Zone_init 1 1 2 2 "A" = Ok zone_A.
Proof. reflexivity. Qed.

Example zone_construction_validated_at_A :
  Zone_init 2 1 1 2 "A" = Raise ValueError
  /\ (min_x zone_A < max_x zone_A)%Q /\ (min_y zone_A < max_y zone_A)%Q.
Proof.
  split.
  - apply (proj1 (zone_construction_validated 2 1 1 2 "A")).
    left. unfold Qle. simpl. lia.
  - apply (proj2 (zone_construction_validated 1 1 2 2 "A") zone_A).
    reflexivity.
Qed.

Lemma contains_point_closed_bounds_witness :
  contains_point zone_A (min_x zone_A) (min_y zone_A) = true
  /\ contains_point zone_A (max_x zone_A) (max_y zone_A) = true.
Proof.
  apply (proj2 (contains_point_closed_bounds 1 1 2 2 "A" zone_A eq_refl)).
Defined.

Lemma alert_iff_may_fire_witness :
  alert_rule service_all (frozen 0) [(7, ((3 # 2)%Q, (3 # 2)%Q))] 0 5
    7 (3 # 2) (3 # 2) zone_A.
Proof.
  apply alert_iff_may_fire.
  - reflexivity.
  - intros k. reflexivity.
  - apply NoDup_singleton.
  - apply NoDup_singleton.
  - left.
  - reflexivity.
  - left.
  - vm_compute. reflexivity.
Defined.

Lemma exit_clears_entry_witness :
  _fired (process_positions service_fired (frozen 1) [(7, (5%Q, 5%Q))]).1.2
    !! (7, "A"%string) = None.
Proof.
  apply (proj1 (exit_clears_entry service_fired (frozen 1) [(7, (5%Q, 5%Q))]
                  7 5 5 zone_A
                  (NoDup_singleton _) (NoDup_singleton _)
                  (list_elem_of_here _ _) eq_refl (list_elem_of_here _ _) eq_refl)).
Defined.

Lemma decoder_fails_soft_witness :
  _parse_tag_location_data [xcc; x5f; x81; x00; x00] = Ok [].
Proof.
  apply (proj1 (proj2 (proj2 (proj2 (proj2
           (decoder_fails_soft [xcc; x5f; x81; x00; x00])))))).
  reflexivity.
Defined.

Lemma decoder_all_or_nothing_witness :
  exists tags,
    records_loop 0x81 "relative" frame_one_tag (Z.to_nat 1) 4 [] = Ok (Exhausted, tags)
    /\ len tags = 1.
Proof.
  apply (proj2 (decoder_all_or_nothing frame_one_tag) 0x81 "relative"%string 1).
  - lia.
  - unfold len. simpl. lia.
Defined.

Lemma auth_packet_layout_witness :
  exists packet,
    _create_auth_packet (UWBCollector_init (str_lit "admin") (str_lit "secret") 0)
    = Ok packet
    /\ len packet = 2 + 1 + 4 + 5 + 4 + 32 + 2 + 2.
Proof.
  eexists. split.
  - apply (auth_packet_layout (str_lit "admin") (str_lit "secret") 0
             (String.list_byte_of_string "admin")
             (String.list_byte_of_string "secret")).
    + reflexivity.
    + reflexivity.
    + reflexivity.
  - vm_compute. reflexivity.
Defined.

Lemma broadcast_reaps_failed_witness :
  let res := _broadcast_to_dashboard three_clients (second_closed 0)
               (position_update 7 (3 # 2) (3 # 2) 100 0 false) in
  (2%positive ∉ dashboard_clients res.1)
  /\ (1%positive ∈ dashboard_clients res.1)
  /\ (3%positive ∈ dashboard_clients res.1).
Proof.
  pose proof (broadcast_reaps_failed three_clients (second_closed 0)
                (position_update 7 (3 # 2) (3 # 2) 100 0 false)) as (_ & Hdead & Hlive).
  cbv zeta in *. split; [| split].
  - apply Hdead.
    + vm_compute. reflexivity.
    + intros (ch & Hch & Hopen). vm_compute in Hch.
      injection Hch as <-. discriminate Hopen.
  - apply Hlive.
    + vm_compute. reflexivity.
    + eexists. split; [vm_compute; reflexivity | reflexivity].
  - apply Hlive.
    + vm_compute. reflexivity.
    + eexists. split; [vm_compute; reflexivity | reflexivity].
Defined.

Lemma in_danger_zone_iff_alert_witness :
  (process_positions service_fired (frozen 1) [(7, ((3 # 2)%Q, (3 # 2)%Q))]).1.1 = []
  /\ exists before,
       published (update_body three_clients (second_closed 1) tag_7).1.2
       = before ++ [position_update 7 (3 # 2) (3 # 2) 100 0 false].
Proof.
  apply (proj2 (proj2 (in_danger_zone_iff_alert three_clients (second_closed 1) tag_7))
           1%Q 5%Q zone_A).
  - reflexivity.
  - intros k. reflexivity.
  - apply NoDup_singleton.
  - left.
  - vm_compute. reflexivity.
  - intros z' Hz' _. apply list_elem_of_singleton in Hz' as ->.
    exists 0%Q. split; [vm_compute; reflexivity | reflexivity].
Defined.

(** The hysteresis scenario with a retrigger interval of 5 s: tag 7 enters
    zone [A] at time 0 and fires; still inside at time 4 it does not fire;
    at time 6 it fires again. *)
Example hysteresis_scenario :
  let batch := [(7, ((3 # 2)%Q, (3 # 2)%Q))] in
  let call_0 := process_positions service_all (frozen 0) batch in
  let call_4 := process_positions call_0.1.2 (frozen 4) batch in
  let call_6 := process_positions call_4.1.2 (frozen 6) batch in
  call_0.1.1 = [mkAlert 7 zone_A ((3 # 2)%Q, (3 # 2)%Q)]
  /\ call_4.1.1 = []
  /\ call_6.1.1 = [mkAlert 7 zone_A ((3 # 2)%Q, (3 # 2)%Q)].
Proof. vm_compute. repeat split. Qed.

(** The reset scenario with the same interval: tag 7 enters zone [A] at
    time 0 and fires, is seen outside at time 1, and fires again when it is
    back inside at time 2. *)
Example reentry_scenario :
  let inside := [(7, ((3 # 2)%Q, (3 # 2)%Q))] in
  let outside := [(7, (5%Q, 5%Q))] in
  let call_0 := process_positions service_all (frozen 0) inside in
  let call_1 := process_positions call_0.1.2 (frozen 1) outside in
  let call_2 := process_positions call_1.1.2 (frozen 2) inside in
  call_0.1.1 = [mkAlert 7 zone_A ((3 # 2)%Q, (3 # 2)%Q)]
  /\ call_1.1.1 = []
  /\ _fired call_1.1.2 !! (7, "A"%string) = None
  /\ call_2.1.1 = [mkAlert 7 zone_A ((3 # 2)%Q, (3 # 2)%Q)].
Proof. vm_compute. repeat split. Qed.

End Instances.

(** * Further properties of the code *)

(** ** The CRC routine *)

Section CrcFacts.

Import Struct Codec.

Lemma byte_to_Z_range (b : byte) : 0 <= byte_to_Z b < 256.
Proof. unfold byte_to_Z. pose proof (Byte.to_N_bounded b). lia. Qed.

Lemma byte_to_Z_to_byte (z : Z) : byte_to_Z (Z_to_byte z) = z mod 256.
Proof.
  unfold Z_to_byte, byte_to_Z.
  assert (H : 0 <= z mod 256 < 256) by (apply Z.mod_pos_bound; lia).
  destruct (Byte.of_N (Z.to_N (z mod 256))) as [b |] eqn:E.
  - apply Byte.to_of_N in E. unfold default, id. rewrite E. lia.
  - apply Byte.of_N_None_iff in E. lia.
Qed.

(** X1. The routine is the reflected CRC with polynomial [0xA001] and initial
    value [0xFFFF], fed the bits of each byte least-significant first. *)
Theorem crc16_is_reflected_crc (data : list byte) :
  _calculate_crc16_modbus data = crc16_reflected 0xA001 0xFFFF data.
Proof. apply crc16_refines_reference. Qed.

(** X2. The checksum is a 16-bit value, so packing it with ['>H'] cannot
    fail. *)
Theorem crc16_fits_two_bytes (data : list byte) :
  0 <= _calculate_crc16_modbus data < 65536
  /\ pack_unsigned 2 (_calculate_crc16_modbus data)
     = Ok (be_bytes 2 (_calculate_crc16_modbus data)).
Proof.
  pose proof (crc16_below data) as H. change (2 ^ 16) with 65536 in H.
  split; [exact H |]. apply pack_unsigned_in_range.
  change (2 ^ (8 * Z.of_nat 2)) with 65536. exact H.
Qed.

Lemma crc_shift_even (x : Z) :
  Z.testbit x 0 = false -> crc_shift x = Z.shiftr x 1.
Proof.
  intros H. unfold crc_shift. rewrite land_1_testbit, H. reflexivity.
Qed.

Lemma crc_iter_low_zero (k : nat) (x : Z) :
  (forall i, 0 <= i < Z.of_nat k -> Z.testbit x i = false) ->
  Nat.iter k crc_shift x = Z.shiftr x (Z.of_nat k).
Proof.
  induction k as [| k IH]; intros H.
  - cbn. rewrite Z.shiftr_0_r. reflexivity.
  - rewrite Nat.iter_succ, IH by (intros i Hi; apply H; lia).
    rewrite crc_shift_even.
    + rewrite Z.shiftr_shiftr by lia. f_equal. lia.
    + rewrite Z.shiftr_spec by lia. apply H. lia.
Qed.

(** Feeding a CRC its own low byte shifts it down by eight bits. *)
Lemma crc_byte_own_low (c : Z) :
  0 <= c -> crc_byte c (Z_to_byte c) = Z.shiftr c 8.
Proof.
  intros Hc. unfold crc_byte. rewrite byte_to_Z_to_byte.
  rewrite crc_iter_low_zero.
  - change (Z.of_nat 8) with 8. rewrite Z.shiftr_lxor.
    replace (Z.shiftr (c mod 256) 8) with 0; [apply Z.lxor_0_r |].
    symmetry. rewrite Z.shiftr_div_pow2 by lia. apply Z.div_small.
    apply Z.mod_pos_bound. lia.
  - intros i Hi. change (Z.of_nat 8) with 8 in Hi.
    rewrite Z.lxor_spec. change 256 with (2 ^ 8).
    rewrite Z.mod_pow2_bits_low by lia. apply xorb_nilpotent.
Qed.

(** X3. The residue property of the routine: a message followed by its own
    checksum, low byte first, has checksum 0. *)
Theorem crc16_residue_zero (data : list byte) :
  let crc := _calculate_crc16_modbus data in
  _calculate_crc16_modbus
    (data ++ [Z_to_byte crc; Z_to_byte (Z.shiftr crc 8)]) = 0.
Proof.
  cbv zeta. pose proof (crc16_below data) as Hc.
  unfold _calculate_crc16_modbus in *. rewrite fold_left_app.
  set (c := fold_left crc_byte data 0xFFFF) in *.
  cbn [fold_left]. rewrite crc_byte_own_low by lia.
  rewrite crc_byte_own_low.
  - rewrite Z.shiftr_shiftr by lia. rewrite Z.shiftr_div_pow2 by lia.
    apply Z.div_small. change (2 ^ (8 + 8)) with (2 ^ 16). lia.
  - apply Z.shiftr_nonneg. lia.
Qed.

End CrcFacts.

(** ** The location-frame decoder *)

Section DecoderFacts.

Import Struct Codec.

Lemma slice_app_l (a b : list byte) (lo hi : Z) :
  0 <= lo -> hi <= len a -> slice (a ++ b) lo hi = slice a lo hi.
Proof.
  unfold slice, len. intros Hlo Hhi.
  destruct (Z_le_gt_dec lo hi) as [Hle | Hgt].
  - rewrite drop_app_le by lia. rewrite take_app_le; [reflexivity |].
    rewrite length_drop. lia.
  - replace (Z.to_nat (hi - lo)) with 0%nat by lia. reflexivity.
Qed.

Lemma index_app_l (a b : list byte) (i : Z) :
  0 <= i < len a -> index (a ++ b) i = index a i.
Proof.
  unfold index, len. intros H. rewrite lookup_app_l by lia. reflexivity.
Qed.

Lemma index_byte_at (data : list byte) (i : Z) :
  0 <= i < len data -> index data i = Ok (byte_at data i).
Proof.
  unfold index, byte_at, len. intros H.
  destruct (data !! Z.to_nat i) eqn:E; [reflexivity |].
  apply lookup_ge_None in E. lia.
Qed.

(** The record at an offset with 23 bytes behind it. *)
Lemma parse_record_value (ft : Z) (data : list byte) (offset : Z) :
  0 <= offset -> offset + 23 <= len data ->
  parse_record ft (ctype_of ft) data offset
  = Ok (scaled ft (raw_at data offset), offset + 23).
Proof.
  intros H0 H1. unfold parse_record.
  rewrite (unpack_unsigned_exact 4) by (rewrite length_slice; lia).
  cbn [mbind result_bind bind].
  rewrite !(unpack_signed_exact 4) by (rewrite length_slice; lia).
  cbn [mbind result_bind bind].
  rewrite (unpack_signed_exact 2) by (rewrite length_slice; lia).
  cbn [mbind result_bind bind].
  do 3 (rewrite index_byte_at by lia; cbn [mbind result_bind bind]).
  rewrite (unpack_unsigned_exact 4) by (rewrite length_slice; lia).
  cbn [mbind result_bind bind].
  do 2 (rewrite index_byte_at by lia; cbn [mbind result_bind bind]).
  unfold scaled, raw_at.
  cbn [raw_tag raw_x raw_y raw_z raw_map raw_battery raw_flags raw_timestamp
       raw_floor raw_indication].
  replace (offset + 4 + 4 + 4 + 2 + 1 + 1 + 1 + 4 + 1 + 1) with (offset + 23) by lia.
  replace (offset + 4 + 4) with (offset + 8) by lia.
  replace (offset + 8 + 4) with (offset + 12) by lia.
  replace (offset + 12 + 2) with (offset + 14) by lia.
  replace (offset + 14 + 1) with (offset + 15) by lia.
  replace (offset + 15 + 1) with (offset + 16) by lia.
  replace (offset + 16 + 1) with (offset + 17) by lia.
  replace (offset + 17 + 4) with (offset + 21) by lia.
  replace (offset + 21 + 1) with (offset + 22) by lia.
  destruct (ft =? 180); reflexivity.
Qed.

(** The loop over the records, in closed form. *)
Lemma records_loop_value (ft : Z) (data : list byte) (k : nat) :
  forall (offset : Z) (tags : list TagLocationInfo),
  0 <= offset -> offset + 23 * Z.of_nat k <= len data - 4 ->
  records_loop ft (ctype_of ft) data k offset tags
  = Ok (Exhausted,
        tags ++ map (fun i => scaled ft (raw_at data (offset + 23 * Z.of_nat i)))
                    (seq 0 k)).
Proof.
  induction k as [| k IH]; intros offset tags H0 H1.
  - cbn. rewrite app_nil_r. reflexivity.
  - cbn [records_loop].
    replace (offset + 23 >? len data - 4) with false by (symmetry; lia).
    rewrite parse_record_value by lia. cbn [mbind result_bind bind].
    rewrite IH by lia. rewrite <- app_assoc. do 3 f_equal.
    cbn [seq map app]. f_equal.
    + do 2 f_equal. lia.
    + rewrite <- seq_shift, map_map. apply map_ext. intros i.
      do 2 f_equal. lia.
Qed.

(** The decoder on a frame that passes every guard, in closed form. *)
Lemma parse_frame_value (data : list byte) (ft n : Z) :
  be_value (slice data 0 2) = 0xCC5F ->
  index data 2 = Ok ft -> recognized ft ->
  index data 3 = Ok n -> 0 < n ->
  4 + n * 23 + 4 <= len data ->
  _parse_tag_location_data data
  = Ok (map (fun i => scaled ft (raw_at data (4 + 23 * Z.of_nat i)))
            (seq 0 (Z.to_nat n))).
Proof.
  intros Hh Hft Hrec Hn Hpos Hlen.
  unfold _parse_tag_location_data.
  replace (len data <? 5) with false by (symmetry; lia).
  unfold parse_body.
  rewrite (unpack_unsigned_exact 2) by (rewrite length_slice; lia).
  cbn [mbind result_bind bind]. rewrite Hft. cbn [mbind result_bind bind].
  rewrite Hh. cbn [Z.eqb Pos.eqb negb].
  assert (Hloop :
    (n0 ← index data 3;
     (if n0 =? 0 then Ok []
      else if len data <? 4 + n0 * 23 + 4 then Ok []
      else '(_, tags) ← records_loop ft (ctype_of ft) data (Z.to_nat n0) 4 [];
           Ok tags))
    = Ok (map (fun i => scaled ft (raw_at data (4 + 23 * Z.of_nat i)))
              (seq 0 (Z.to_nat n)))).
  { rewrite Hn. cbn [mbind result_bind bind].
    replace (n =? 0) with false by (symmetry; lia).
    replace (len data <? 4 + n * 23 + 4) with false by (symmetry; lia).
    rewrite records_loop_value by lia. reflexivity. }
  unfold ctype_of in Hloop. unfold recognized in Hrec.
  destruct (ft =? 0x81) eqn:E1; [rewrite Hloop; reflexivity |].
  destruct (ft =? 0xB4) eqn:E2; [rewrite Hloop; reflexivity |].
  destruct (ft =? 0xB5) eqn:E3; [rewrite Hloop; reflexivity |].
  lia.
Qed.

Lemma byte_at_app_l (a b : list byte) (i : Z) :
  0 <= i < len a -> byte_at (a ++ b) i = byte_at a i.
Proof.
  unfold byte_at, len. intros H. rewrite lookup_app_l by lia. reflexivity.
Qed.

Lemma raw_at_app (a b : list byte) (offset : Z) :
  0 <= offset -> offset + 23 <= len a ->
  raw_at (a ++ b) offset = raw_at a offset.
Proof.
  intros H0 H1. unfold raw_at.
  rewrite !slice_app_l, !byte_at_app_l by lia. reflexivity.
Qed.

(** A frame one of whose guards fails decodes to the empty list. *)
Lemma parse_guard_fails (data : list byte) :
  (be_value (slice data 0 2) <> 0xCC5F
   \/ (forall ft, index data 2 = Ok ft -> ~ recognized ft)
   \/ index data 3 = Ok 0) ->
  _parse_tag_location_data data = Ok [].
Proof.
  intros H.
  destruct (parse_cases data) as
    [E | (ft & n & tags & _ & Hh & Hft & Hrec & Hn & Hpos & _)]; [exact E |].
  exfalso. destruct H as [H | [H | H]].
  - contradiction.
  - exact (H ft Hft Hrec).
  - rewrite Hn in H. injection H as ->. lia.
Qed.

Lemma recognized_dec (ft : Z) : recognized ft \/ ~ recognized ft.
Proof. unfold recognized. lia. Qed.

(** X4. The decoder reads the header, the count and the records only: two
    inputs that agree on these bytes and each have at least four more
    decode to the same list. The footer is never looked at. *)
Theorem decoder_ignores_footer (body s1 s2 : list byte) :
  4 <= len body ->
  len body = 4 + 23 * byte_at body 3 ->
  4 <= len s1 -> 4 <= len s2 ->
  _parse_tag_location_data (body ++ s1) = _parse_tag_location_data (body ++ s2).
Proof.
  intros Hb Hlen H1 H2.
  assert (Hl : forall s, len (body ++ s) = len body + len s).
  { intros s. unfold len. rewrite length_app. lia. }
  assert (Hhead : forall s, slice (body ++ s) 0 2 = slice body 0 2)
    by (intros s; apply slice_app_l; lia).
  assert (Hft : forall s, index (body ++ s) 2 = Ok (byte_at body 2)).
  { intros s. rewrite index_app_l by lia. apply index_byte_at. lia. }
  assert (Hn : forall s, index (body ++ s) 3 = Ok (byte_at body 3)).
  { intros s. rewrite index_app_l by lia. apply index_byte_at. lia. }
  destruct (Z.eq_dec (be_value (slice body 0 2)) 0xCC5F) as [Eh | Eh].
  2: { rewrite !parse_guard_fails; [reflexivity | |]; left; rewrite Hhead; exact Eh. }
  destruct (recognized_dec (byte_at body 2)) as [Er | Er].
  2: { rewrite !parse_guard_fails; [reflexivity | |]; right; left;
       intros ft; rewrite Hft; intros [= <-]; exact Er. }
  destruct (Z.eq_dec (byte_at body 3) 0) as [E0 | E0].
  { rewrite !parse_guard_fails; [reflexivity | |]; right; right;
    rewrite Hn, E0; reflexivity. }
  assert (Hpos : 0 < byte_at body 3) by lia.
  rewrite (parse_frame_value (body ++ s1) (byte_at body 2) (byte_at body 3));
    [| rewrite Hhead; exact Eh | apply Hft | exact Er | apply Hn | exact Hpos
     | rewrite Hl; lia].
  rewrite (parse_frame_value (body ++ s2) (byte_at body 2) (byte_at body 3));
    [| rewrite Hhead; exact Eh | apply Hft | exact Er | apply Hn | exact Hpos
     | rewrite Hl; lia].
  f_equal. apply map_ext_in. intros i Hi. apply in_seq in Hi.
  rewrite !raw_at_app by lia. reflexivity.
Qed.

Lemma be_value_acc_range (bs : list byte) :
  forall acc, 0 <= acc ->
  0 <= fold_left (fun a b => 256 * a + byte_to_Z b) bs acc
    < (acc + 1) * 256 ^ len bs.
Proof.
  induction bs as [| b bs IH]; intros acc Hacc.
  - cbn [fold_left]. change (256 ^ len []) with 1. lia.
  - cbn [fold_left]. pose proof (byte_to_Z_range b) as Hb.
    destruct (IH (256 * acc + byte_to_Z b)) as [IH1 IH2]; [lia |].
    split; [exact IH1 |].
    replace (len (b :: bs)) with (len bs + 1) by (unfold len; cbn [length]; lia).
    rewrite Z.pow_add_r by (unfold len; lia). change (256 ^ 1) with 256.
    assert (0 < 256 ^ len bs) by (apply Z.pow_pos_nonneg; unfold len; lia).
    nia.
Qed.

Lemma be_value_range (bs : list byte) (n : nat) :
  length bs = n -> 0 <= be_value bs < 2 ^ (8 * Z.of_nat n).
Proof.
  intros <-. unfold be_value.
  pose proof (be_value_acc_range bs 0 ltac:(lia)) as H.
  replace (2 ^ (8 * Z.of_nat (length bs))) with (256 ^ len bs).
  - change (0 + 1) with 1 in H. rewrite Z.mul_1_l in H. exact H.
  - unfold len. change 256 with (2 ^ 8). rewrite <- Z.pow_mul_r by lia. reflexivity.
Qed.

Lemma to_signed_range (n : nat) (v : Z) :
  (0 < n)%nat -> 0 <= v < 2 ^ (8 * Z.of_nat n) ->
  - 2 ^ (8 * Z.of_nat n - 1) <= to_signed n v < 2 ^ (8 * Z.of_nat n - 1).
Proof.
  intros Hn Hv. unfold to_signed.
  assert (E : 2 ^ (8 * Z.of_nat n) = 2 * 2 ^ (8 * Z.of_nat n - 1)).
  { rewrite <- Z.pow_succ_r by lia. f_equal. lia. }
  destruct (v <? 2 ^ (8 * Z.of_nat n - 1)) eqn:C; lia.
Qed.

Lemma byte_at_range (data : list byte) (i : Z) : 0 <= byte_at data i < 256.
Proof.
  unfold byte_at. destruct (data !! Z.to_nat i); [apply byte_to_Z_range | lia].
Qed.

Lemma raw_at_in_range (data : list byte) (offset : Z) :
  0 <= offset -> offset + 23 <= len data -> raw_in_range (raw_at data offset).
Proof.
  intros H0 H1. unfold raw_in_range, raw_at.
  cbn [raw_tag raw_x raw_y raw_z raw_map raw_battery raw_flags raw_timestamp
       raw_floor raw_indication].
  repeat split; try apply byte_at_range.
  all: try (apply (be_value_range _ 4); rewrite length_slice; lia).
  all: try (apply (to_signed_range 4); [lia |];
            apply (be_value_range _ 4); rewrite length_slice; lia).
  all: apply (to_signed_range 2); [lia |];
       apply (be_value_range _ 2); rewrite length_slice; lia.
Qed.

(** X5. Every record the decoder returns carries the integers of one 23-byte
    record of the input, within the ranges of the wire fields, scaled by
    the rule of the frame type of the input: the tag id and the timestamp
    are 32-bit, the small fields are bytes, the coordinate type is that of
    the frame, and a frame of type [0xB4] gives [z = 0]. *)
Theorem decoded_records_in_range (data : list byte)
    (tags : list TagLocationInfo) (t : TagLocationInfo) :
  _parse_tag_location_data data = Ok tags ->
  t ∈ tags ->
  exists ft r,
    index data 2 = Ok ft /\ recognized ft
    /\ raw_in_range r /\ t = scaled ft r
    /\ 0 <= tag_id t < 2 ^ 32
    /\ 0 <= timestamp t < 2 ^ 32
    /\ 0 <= battery t < 256
    /\ 0 <= map_id t < 256
    /\ 0 <= floor_number t < 256
    /\ 0 <= positioning_indication t < 256
    /\ coordinate_type t = ctype_of ft
    /\ (ft = 0xB4 -> z_coordinate t = 0%Q).
Proof.
  intros Hparse Ht.
  destruct (parse_cases data) as
    [E | (ft & n & tags' & H5 & Hh & Hft & Hrec & Hn & Hpos & Hlen & _ & _)].
  - rewrite E in Hparse. injection Hparse as <-.
    apply elem_of_nil in Ht. contradiction.
  - rewrite (parse_frame_value data ft n Hh Hft Hrec Hn Hpos Hlen) in Hparse.
    injection Hparse as <-.
    apply list_elem_of_In, in_map_iff in Ht as (i & <- & Hi).
    apply in_seq in Hi.
    set (r := raw_at data (4 + 23 * Z.of_nat i)).
    assert (Hr : raw_in_range r) by (apply raw_at_in_range; lia).
    exists ft, r. split; [exact Hft |]. split; [exact Hrec |].
    split; [exact Hr |]. split; [reflexivity |].
    destruct Hr as (R1 & R2 & R3 & R4 & R5 & R6 & R7 & R8 & R9 & R10).
    unfold scaled.
    destruct (ft =? 0xB4) eqn:E;
      cbn [tag_id timestamp battery map_id floor_number positioning_indication
           coordinate_type z_coordinate];
      repeat split; try lia; try assumption.
Qed.

(** *** Decoding a frame built from its fields *)

Lemma length_be_bytes (n : nat) (v : Z) : length (be_bytes n v) = n.
Proof. induction n as [| n IH]; [reflexivity |]. cbn. rewrite IH. reflexivity. Qed.

Lemma be_value_acc (bs : list byte) :
  forall acc,
  fold_left (fun a b => 256 * a + byte_to_Z b) bs acc
  = acc * 256 ^ len bs + be_value bs.
Proof.
  unfold be_value. induction bs as [| b bs IH]; intros acc.
  - cbn [fold_left]. change (256 ^ len []) with 1. lia.
  - cbn [fold_left]. rewrite IH, (IH (256 * 0 + byte_to_Z b)).
    replace (len (b :: bs)) with (len bs + 1) by (unfold len; cbn [length]; lia).
    rewrite Z.pow_add_r by (unfold len; lia). lia.
Qed.

Lemma be_value_be_bytes (n : nat) (v : Z) :
  be_value (be_bytes n v) = v mod 2 ^ (8 * Z.of_nat n).
Proof.
  induction n as [| n IH].
  - cbn. rewrite Z.mod_1_r. reflexivity.
  - cbn [be_bytes]. unfold be_value. cbn [fold_left].
    rewrite be_value_acc, IH. unfold len. rewrite length_be_bytes.
    rewrite byte_to_Z_to_byte, Z.shiftr_div_pow2 by lia.
    replace (8 * Z.of_nat (S n)) with (8 * Z.of_nat n + 8) by lia.
    rewrite Z.pow_add_r by lia. change (2 ^ 8) with 256.
    replace (256 ^ Z.of_nat n) with (2 ^ (8 * Z.of_nat n))
      by (change 256 with (2 ^ 8); rewrite <- Z.pow_mul_r by lia; reflexivity).
    assert (Hp : 0 < 2 ^ (8 * Z.of_nat n)) by (apply Z.pow_pos_nonneg; lia).
    rewrite (Z.rem_mul_r v _ 256) by lia. lia.
Qed.

Lemma to_signed_mod (n : nat) (v : Z) :
  (0 < n)%nat ->
  - 2 ^ (8 * Z.of_nat n - 1) <= v < 2 ^ (8 * Z.of_nat n - 1) ->
  to_signed n (v mod 2 ^ (8 * Z.of_nat n)) = v.
Proof.
  intros Hn Hv. unfold to_signed.
  assert (E : 2 ^ (8 * Z.of_nat n) = 2 * 2 ^ (8 * Z.of_nat n - 1)).
  { rewrite <- Z.pow_succ_r by lia. f_equal. lia. }
  assert (Hp : 0 < 2 ^ (8 * Z.of_nat n - 1)) by (apply Z.pow_pos_nonneg; lia).
  destruct (Z_lt_le_dec v 0) as [Hneg | Hpos].
  - assert (Em : v mod 2 ^ (8 * Z.of_nat n) = v + 2 ^ (8 * Z.of_nat n)).
    { symmetry. apply (Z.mod_unique _ _ (-1)); lia. }
    rewrite Em. destruct (_ <? _) eqn:C; lia.
  - rewrite Z.mod_small by lia. destruct (_ <? _) eqn:C; lia.
Qed.

Lemma slice_app_at (pre mid post : list byte) (lo hi : Z) :
  lo = len pre -> hi = lo + len mid -> slice (pre ++ mid ++ post) lo hi = mid.
Proof.
  unfold slice, len. intros -> ->.
  rewrite Nat2Z.id, drop_app_length.
  replace (Z.to_nat (_ - _)) with (length mid) by lia.
  apply take_app_length.
Qed.

Lemma byte_at_app_at (pre post : list byte) (b : byte) (i : Z) :
  i = len pre -> byte_at (pre ++ b :: post) i = byte_to_Z b.
Proof.
  unfold byte_at, len. intros ->.
  rewrite Nat2Z.id, list_lookup_middle by reflexivity. reflexivity.
Qed.

Ltac len_solve :=
  unfold len, signed_bytes;
  repeat rewrite ?length_app, ?length_be_bytes;
  cbn [length]; lia.

Lemma length_encode_raw (r : RawRecord) : len (encode_raw r) = 23.
Proof. unfold encode_raw. len_solve. Qed.

(** Reading back the 23 bytes of a record gives its integers. *)
Lemma raw_at_encode_raw (r : RawRecord) :
  raw_in_range r -> raw_at (encode_raw r) 0 = r.
Proof.
  intros (R1 & R2 & R3 & R4 & R5 & R6 & R7 & R8 & R9 & R10).
  destruct r as [tag x y z m b f ts fl ind].
  cbn [raw_tag raw_x raw_y raw_z raw_map raw_battery raw_flags raw_timestamp
       raw_floor raw_indication] in *.
  unfold raw_at, encode_raw.
  cbn [raw_tag raw_x raw_y raw_z raw_map raw_battery raw_flags raw_timestamp
       raw_floor raw_indication].
  set (A := be_bytes 4 tag). set (B := signed_bytes 4 x).
  set (C := signed_bytes 4 y). set (D := signed_bytes 2 z).
  set (T := be_bytes 4 ts).
  set (E := A ++ B ++ C ++ D ++ [Z_to_byte m; Z_to_byte b; Z_to_byte f]
            ++ T ++ [Z_to_byte fl; Z_to_byte ind]).
  assert (H1 : slice E 0 (0 + 4) = A).
  { apply (slice_app_at [] A); subst A; len_solve. }
  assert (H2 : slice E (0 + 4) (0 + 8) = B).
  { apply (slice_app_at A B); subst A B; len_solve. }
  assert (H3 : slice E (0 + 8) (0 + 12) = C).
  { replace E with ((A ++ B) ++ C ++ D
        ++ [Z_to_byte m; Z_to_byte b; Z_to_byte f]
        ++ T ++ [Z_to_byte fl; Z_to_byte ind])
      by (subst E; rewrite <- !app_assoc; reflexivity).
    apply slice_app_at; subst A B C; len_solve. }
  assert (H4 : slice E (0 + 12) (0 + 14) = D).
  { replace E with ((A ++ B ++ C) ++ D
        ++ [Z_to_byte m; Z_to_byte b; Z_to_byte f]
        ++ T ++ [Z_to_byte fl; Z_to_byte ind])
      by (subst E; rewrite <- !app_assoc; reflexivity).
    apply slice_app_at; subst A B C D; len_solve. }
  assert (H5 : byte_at E (0 + 14) = byte_to_Z (Z_to_byte m)).
  { replace E with ((A ++ B ++ C ++ D) ++ Z_to_byte m
        :: [Z_to_byte b; Z_to_byte f] ++ T ++ [Z_to_byte fl; Z_to_byte ind])
      by (subst E; rewrite <- !app_assoc; reflexivity).
    apply byte_at_app_at; subst A B C D; len_solve. }
  assert (H6 : byte_at E (0 + 15) = byte_to_Z (Z_to_byte b)).
  { replace E with ((A ++ B ++ C ++ D ++ [Z_to_byte m]) ++ Z_to_byte b
        :: [Z_to_byte f] ++ T ++ [Z_to_byte fl; Z_to_byte ind])
      by (subst E; rewrite <- !app_assoc; reflexivity).
    apply byte_at_app_at; subst A B C D; len_solve. }
  assert (H7 : byte_at E (0 + 16) = byte_to_Z (Z_to_byte f)).
  { replace E with ((A ++ B ++ C ++ D ++ [Z_to_byte m; Z_to_byte b])
        ++ Z_to_byte f :: T ++ [Z_to_byte fl; Z_to_byte ind])
      by (subst E; rewrite <- !app_assoc; reflexivity).
    apply byte_at_app_at; subst A B C D; len_solve. }
  assert (H8 : slice E (0 + 17) (0 + 21) = T).
  { replace E with ((A ++ B ++ C ++ D
        ++ [Z_to_byte m; Z_to_byte b; Z_to_byte f])
        ++ T ++ [Z_to_byte fl; Z_to_byte ind])
      by (subst E; rewrite <- !app_assoc; reflexivity).
    apply slice_app_at; subst A B C D T; len_solve. }
  assert (H9 : byte_at E (0 + 21) = byte_to_Z (Z_to_byte fl)).
  { replace E with ((A ++ B ++ C ++ D
        ++ [Z_to_byte m; Z_to_byte b; Z_to_byte f] ++ T)
        ++ Z_to_byte fl :: [Z_to_byte ind])
      by (subst E; rewrite <- !app_assoc; reflexivity).
    apply byte_at_app_at; subst A B C D T; len_solve. }
  assert (H10 : byte_at E (0 + 22) = byte_to_Z (Z_to_byte ind)).
  { replace E with ((A ++ B ++ C ++ D
        ++ [Z_to_byte m; Z_to_byte b; Z_to_byte f] ++ T ++ [Z_to_byte fl])
        ++ Z_to_byte ind :: [])
      by (subst E; rewrite <- !app_assoc; reflexivity).
    apply byte_at_app_at; subst A B C D T; len_solve. }
  rewrite H1, H2, H3, H4, H5, H6, H7, H8, H9, H10.
  subst A B C D T. unfold signed_bytes.
  rewrite !be_value_be_bytes, !byte_to_Z_to_byte.
  rewrite !Zmod_mod.
  rewrite !(to_signed_mod 4), (to_signed_mod 2)
    by (lia || (change (8 * Z.of_nat 4 - 1) with 31; assumption)
            || (change (8 * Z.of_nat 2 - 1) with 15; assumption)).
  change (2 ^ (8 * Z.of_nat 4)) with (2 ^ 32).
  rewrite !Z.mod_small by assumption.
  reflexivity.
Qed.

Lemma raw_at_shift (pre rest : list byte) (offset : Z) :
  0 <= offset ->
  raw_at (pre ++ rest) (len pre + offset) = raw_at rest offset.
Proof.
  intros H0.
  assert (Hs : forall lo hi, 0 <= lo ->
            slice (pre ++ rest) (len pre + lo) (len pre + hi) = slice rest lo hi).
  { intros lo hi Hlo. unfold slice, len.
    rewrite drop_app_ge by lia.
    replace (Z.to_nat (Z.of_nat (length pre) + lo) - length pre)%nat
      with (Z.to_nat lo) by lia.
    f_equal. lia. }
  assert (Hb : forall i, 0 <= i ->
            byte_at (pre ++ rest) (len pre + i) = byte_at rest i).
  { intros i Hi. unfold byte_at, len.
    rewrite lookup_app_r by lia.
    replace (Z.to_nat (Z.of_nat (length pre) + i) - length pre)%nat
      with (Z.to_nat i) by lia.
    reflexivity. }
  unfold raw_at. rewrite <- !Z.add_assoc.
  rewrite !Hs, !Hb by lia. reflexivity.
Qed.

Lemma len_app {A : Type} (a b : list A) : len (a ++ b) = len a + len b.
Proof. unfold len. rewrite length_app. lia. Qed.

Lemma len_flat_encode (rs : list RawRecord) :
  len (flat_map encode_raw rs) = 23 * len rs.
Proof.
  induction rs as [| r rs IH]; [reflexivity |].
  cbn [flat_map]. rewrite len_app, length_encode_raw, IH.
  unfold len. cbn [length]. lia.
Qed.

(** The records of a concatenation of encoded records, read back at their
    offsets behind any prefix. *)
Lemma raw_at_records (rs : list RawRecord) :
  forall (pre post : list byte),
  Forall raw_in_range rs ->
  map (fun i => raw_at (pre ++ flat_map encode_raw rs ++ post)
                  (len pre + 23 * Z.of_nat i))
      (seq 0 (length rs)) = rs.
Proof.
  induction rs as [| r rs IH]; intros pre post Hr; [reflexivity |].
  apply Forall_cons in Hr as [Hr Hrs].
  cbn [length seq map flat_map]. f_equal.
  - rewrite raw_at_shift by lia. rewrite <- app_assoc.
    rewrite raw_at_app by (rewrite ?length_encode_raw; lia).
    apply raw_at_encode_raw, Hr.
  - rewrite <- seq_shift, map_map.
    rewrite <- (IH (pre ++ encode_raw r) post Hrs) at 2.
    apply map_ext. intros i.
    rewrite len_app, length_encode_raw, <- !app_assoc.
    f_equal. lia.
Qed.

(** X6. Round trip: the decoder returns, scaled, exactly the records a
    well-formed frame was built from, whatever its footer holds. *)
Theorem decode_location_frame (ft : Z) (rs : list RawRecord)
    (footer : list byte) :
  recognized ft ->
  Forall raw_in_range rs ->
  len rs < 256 ->
  4 <= len footer ->
  _parse_tag_location_data (location_frame ft rs footer)
  = Ok (map (scaled ft) rs).
Proof.
  intros Hft Hrs Hn Hfoot.
  assert (Hft' : byte_to_Z (Z_to_byte ft) = ft).
  { rewrite byte_to_Z_to_byte. apply Z.mod_small. unfold recognized in Hft. lia. }
  assert (Hn' : byte_to_Z (Z_to_byte (len rs)) = len rs).
  { rewrite byte_to_Z_to_byte. apply Z.mod_small. unfold len in *. lia. }
  assert (Hlen : len (location_frame ft rs footer) = 4 + 23 * len rs + len footer).
  { unfold location_frame. rewrite !len_app, len_flat_encode.
    replace (len [xcc; x5f; Z_to_byte ft; Z_to_byte (len rs)]) with 4
      by reflexivity.
    lia. }
  destruct rs as [| r rs'] eqn:Ers.
  - apply parse_guard_fails. right; right. reflexivity.
  - rewrite <- Ers in *.
    rewrite (parse_frame_value _ ft (len rs)).
    + f_equal. rewrite <- (raw_at_records rs [xcc; x5f; Z_to_byte ft; Z_to_byte (len rs)]
                             footer Hrs) at 2.
      rewrite map_map. unfold len at 1. rewrite Nat2Z.id. reflexivity.
    + reflexivity.
    + transitivity (Ok (A:=Z) (byte_to_Z (Z_to_byte ft)));
        [reflexivity | rewrite Hft'; reflexivity].
    + exact Hft.
    + transitivity (Ok (A:=Z) (byte_to_Z (Z_to_byte (len rs))));
        [reflexivity | rewrite Hn'; reflexivity].
    + rewrite Ers. unfold len. cbn [length]. lia.
    + rewrite Hlen. lia.
Qed.

End DecoderFacts.

(** ** The auth packet *)

Section AuthPacketFacts.

Import Struct Codec.

Lemma salt_encodes :
  encode (str_lit "abcdefghijklmnopqrstuvwxyz20191107salt")
  = Ok (String.list_byte_of_string "abcdefghijklmnopqrstuvwxyz20191107salt").
Proof. vm_compute. reflexivity. Qed.

Lemma len_md5_hexdigest (msg : list byte) : len (Hashlib.md5_hexdigest msg) = 32.
Proof. unfold len. rewrite (proj2 (md5_hexdigest_ascii msg)). reflexivity. Qed.

Lemma len_md5_hex (msg : list byte) : len (md5_hex msg) = 32.
Proof. unfold md5_hex, len. rewrite length_map. apply len_md5_hexdigest. Qed.

Opaque Hashlib.md5_hexdigest.

(** The packet once the password is encoded: what is left can fail on the
    username only. *)
Lemma create_auth_packet_after_password (user pass : pystr) (target : Z)
    (pb : list byte) :
  encode pass = Ok pb ->
  let salted_hash :=
    md5_hex (md5_hex pb
             ++ String.list_byte_of_string "abcdefghijklmnopqrstuvwxyz20191107salt") in
  _create_auth_packet (UWBCollector_init user pass target)
  = (username_len ← pack_unsigned 4 (len user);
     username_bytes ← encode user;
     let crc_data :=
       [x27] ++ username_len ++ username_bytes
       ++ be_bytes 4 32 ++ salted_hash in
     Ok ([xcc; x5f] ++ crc_data
         ++ be_bytes 2 (_calculate_crc16_modbus crc_data) ++ [xaa; xbb])).
Proof.
  intros Hpb. cbv zeta.
  unfold _create_auth_packet, UWBCollector_init. cbn [password username salt].
  rewrite Hpb. cbn [mbind result_bind bind].
  rewrite (encode_app _ _ _ _ (encode_md5_hexdigest pb) salt_encodes).
  cbn [mbind result_bind bind].
  rewrite (pack_unsigned_in_range 2 0xCC5F) by (cbn; lia).
  rewrite (pack_unsigned_in_range 1 0x27) by (cbn; lia).
  cbn [mbind result_bind bind].
  destruct (pack_unsigned 4 (len user)) as [ulen | e]; [| reflexivity].
  cbn [mbind result_bind bind].
  destruct (encode user) as [ub | e]; [| reflexivity].
  cbn [mbind result_bind bind].
  rewrite len_md5_hexdigest, (pack_unsigned_in_range 4 32) by (cbn; lia).
  cbn [mbind result_bind bind]. rewrite encode_md5_hexdigest.
  cbn [mbind result_bind bind].
  rewrite (pack_unsigned_in_range 2 (_calculate_crc16_modbus _))
    by (apply crc16_below).
  cbn [mbind result_bind bind].
  rewrite (pack_unsigned_in_range 2 0xAABB) by (cbn; lia).
  reflexivity.
Qed.

(** X7. When building the auth packet fails and how: on a password or username
    that cannot be encoded with [UnicodeEncodeError], on a username of
    [2^32] characters or more with [struct.error]; in every other case a
    packet is returned. *)
Theorem auth_packet_errors (user pass : pystr) (target : Z) :
  let packet := _create_auth_packet (UWBCollector_init user pass target) in
  (forall e, encode pass = Raise e -> packet = Raise e)
  /\ (is_ok (encode pass) = true -> 2 ^ 32 <= len user ->
      packet = Raise StructError)
  /\ (forall e, is_ok (encode pass) = true -> len user < 2 ^ 32 ->
      encode user = Raise e -> packet = Raise e)
  /\ (is_ok packet = true
      <-> is_ok (encode pass) = true /\ is_ok (encode user) = true
          /\ len user < 2 ^ 32).
Proof.
  cbv zeta.
  assert (Hnn : 0 <= len user) by (unfold len; lia).
  assert (Hraise : forall e, encode pass = Raise e ->
            _create_auth_packet (UWBCollector_init user pass target) = Raise e).
  { intros e He. unfold _create_auth_packet, UWBCollector_init. cbn [password].
    rewrite He. reflexivity. }
  assert (Hbig : is_ok (encode pass) = true -> 2 ^ 32 <= len user ->
            _create_auth_packet (UWBCollector_init user pass target)
            = Raise StructError).
  { intros Hp Hl. destruct (encode pass) as [pb |] eqn:Ep; [| discriminate].
    rewrite (create_auth_packet_after_password user pass target pb Ep).
    unfold pack_unsigned. change (2 ^ (8 * Z.of_nat 4)) with (2 ^ 32).
    replace (len user <? 2 ^ 32) with false by (symmetry; lia).
    rewrite andb_false_r. reflexivity. }
  assert (Huser : forall e, is_ok (encode pass) = true -> len user < 2 ^ 32 ->
            encode user = Raise e ->
            _create_auth_packet (UWBCollector_init user pass target) = Raise e).
  { intros e Hp Hl He. destruct (encode pass) as [pb |] eqn:Ep; [| discriminate].
    rewrite (create_auth_packet_after_password user pass target pb Ep).
    rewrite pack_unsigned_in_range
      by (change (2 ^ (8 * Z.of_nat 4)) with (2 ^ 32); lia).
    cbn [mbind result_bind bind]. rewrite He. reflexivity. }
  split; [exact Hraise |]. split; [exact Hbig |]. split; [exact Huser |].
  split.
  - intros Hok.
    destruct (encode pass) as [pb | e] eqn:Ep.
    2: { rewrite (Hraise e eq_refl) in Hok. discriminate. }
    destruct (Z_lt_le_dec (len user) (2 ^ 32)) as [Hl | Hl].
    2: { rewrite (Hbig eq_refl Hl) in Hok. discriminate. }
    destruct (encode user) as [ub | e] eqn:Eu.
    2: { rewrite (Huser e eq_refl Hl eq_refl) in Hok. discriminate. }
    auto.
  - intros (Hp & Hu & Hl).
    destruct (encode pass) as [pb |] eqn:Ep; [| discriminate].
    destruct (encode user) as [ub |] eqn:Eu; [| discriminate].
    rewrite (create_auth_packet_after_password user pass target pb Ep).
    rewrite pack_unsigned_in_range
      by (change (2 ^ (8 * Z.of_nat 4)) with (2 ^ 32); lia).
    cbn [mbind result_bind bind]. rewrite Eu. reflexivity.
Qed.

Lemma len_encode_point (c : Z) (bs : list byte) :
  utf8_encode_point c = Ok bs ->
  1 <= len bs /\ (len bs = 1 <-> c < 0x80).
Proof.
  unfold utf8_encode_point.
  destruct (c <? 0) eqn:E0; [discriminate |].
  destruct (c <? 0x80) eqn:E1.
  { intros [= <-]. unfold len. cbn [length]. lia. }
  destruct (c <? 0x800) eqn:E2.
  { intros [= <-]. unfold len. cbn [length]. lia. }
  destruct (c <? 0x10000) eqn:E3.
  { destruct (_ && _); [discriminate |].
    intros [= <-]. unfold len. cbn [length]. lia. }
  destruct (c <? 0x110000) eqn:E4; [| discriminate].
  intros [= <-]. unfold len. cbn [length]. lia.
Qed.

(** An encoded string has at least as many bytes as characters, and as
    many exactly when every character is ASCII. *)
Lemma len_encode (s : pystr) :
  forall bs, encode s = Ok bs ->
  len s <= len bs /\ (len bs = len s <-> Forall (fun c => c < 0x80) s).
Proof.
  induction s as [| c s IH]; intros bs H.
  - injection H as <-. split; [reflexivity |]. split; [constructor | reflexivity].
  - cbn [encode] in H.
    destruct (utf8_encode_point c) as [cb |] eqn:Ec; [| discriminate].
    cbn [mbind result_bind bind] in H.
    destruct (encode s) as [rest |] eqn:Es; [| discriminate].
    cbn [mbind result_bind bind] in H. injection H as <-.
    destruct (len_encode_point c cb Ec) as [Hc1 Hc2].
    destruct (IH rest eq_refl) as [Hs1 Hs2].
    rewrite len_app.
    replace (len (c :: s)) with (1 + len s) by (unfold len; cbn [length]; lia).
    split; [lia |]. rewrite List.Forall_cons_iff. split.
    + intros H. split; [apply Hc2 | apply Hs2]; lia.
    + intros [Ha Hb]. apply Hc2 in Ha. apply Hs2 in Hb. lia.
Qed.

(** X8. The length field of the username counts characters while the field
    itself holds the encoded bytes: the two agree exactly for an ASCII
    username, and otherwise the field is longer than its declared length.
    The packet has 47 bytes more than the encoded username, whatever the
    password. *)
Theorem auth_packet_username_field (user pass : pystr) (target : Z)
    (packet : list byte) :
  _create_auth_packet (UWBCollector_init user pass target) = Ok packet ->
  exists ub tail,
    encode user = Ok ub
    /\ packet = [xcc; x5f; x27] ++ be_bytes 4 (len user) ++ ub ++ tail
    /\ len tail = 40
    /\ len packet = 47 + len ub
    /\ len user <= len ub
    /\ (len ub = len user <-> Forall (fun c => c < 0x80) user).
Proof.
  intros Hpacket.
  destruct (encode pass) as [pb | e] eqn:Ep.
  2: { unfold _create_auth_packet, UWBCollector_init in Hpacket.
       cbn [password] in Hpacket. rewrite Ep in Hpacket. discriminate. }
  rewrite (create_auth_packet_after_password user pass target pb Ep) in Hpacket.
  unfold pack_unsigned in Hpacket.
  destruct (_ && _); [| discriminate].
  cbn [mbind result_bind bind] in Hpacket.
  destruct (encode user) as [ub |] eqn:Eu; [| discriminate].
  cbn [mbind result_bind bind] in Hpacket. injection Hpacket as <-.
  destruct (len_encode user ub Eu) as [H1 H2].
  set (h := md5_hex _).
  assert (Hh : len h = 32) by apply len_md5_hex.
  set (crc := _calculate_crc16_modbus _).
  assert (Hbe : forall n v, len (be_bytes n v) = Z.of_nat n).
  { intros n v. unfold len. rewrite length_be_bytes. reflexivity. }
  exists ub, (be_bytes 4 32 ++ h ++ be_bytes 2 crc ++ [xaa; xbb]).
  split; [reflexivity |].
  split; [cbn [app]; rewrite <- !app_assoc; reflexivity |].
  split; [| split; [| split; [exact H1 | exact H2]]].
  - rewrite !len_app, !Hbe, Hh. reflexivity.
  - unfold len in *. cbn [length]. rewrite !length_app. cbn [length]. lia.
Qed.

Transparent Hashlib.md5_hexdigest.

End AuthPacketFacts.

(** ** More on the geofence engine *)

Section EngineFacts.

Import Geofence.

(** What one pass of the loop over the zones appends, and what it does to
    the callback log and to the tracked positions. *)
Lemma zone_body_appends (tag : Z) (x y : Q) (st : LoopState) (z : Zone) :
  let st' := zone_body tag x y st z in
  exists extra,
    st'.2 = st.2 ++ extra
    /\ (extra = [] \/ (extra = [mkAlert tag z (x, y)]
                       /\ contains_point z x y = true))
    /\ danger_calls st'.1.1
       = danger_calls st.1.1 ++ (if on_danger st.1.1 then extra else [])
    /\ latest_positions st'.1.1 = latest_positions st.1.1.
Proof.
  destruct st as [[svc clk] alerts]. cbv zeta. cbn [fst snd].
  unfold zone_body, _clear_if_outside.
  destruct (contains_point z x y) eqn:Hin; cbn [negb].
  - destruct (_can_fire svc clk (tag, name z)) as [can clk1].
    destruct can.
    + unfold _mark_fired, time_time.
      exists [mkAlert tag z (x, y)]. cbn [fst snd].
      split; [reflexivity |]. split; [right; auto |].
      cbn [on_danger set_fired].
      destruct (on_danger svc); cbn; split; try reflexivity.
      rewrite app_nil_r. reflexivity.
    + exists []. cbn [fst snd]. rewrite !app_nil_r.
      split; [reflexivity |]. split; [left; reflexivity |].
      destruct (on_danger svc); rewrite ?app_nil_r; split; reflexivity.
  - exists []. cbn [fst snd set_fired danger_calls latest_positions on_danger].
    rewrite !app_nil_r. split; [reflexivity |]. split; [left; reflexivity |].
    destruct (on_danger svc); rewrite ?app_nil_r; split; reflexivity.
Qed.

Lemma zones_fold_appends (tag : Z) (x y : Q) (zs : list Zone) :
  forall st : LoopState,
  let st' := fold_left (zone_body tag x y) zs st in
  exists extra,
    st'.2 = st.2 ++ extra
    /\ Forall (alert_of_pass tag x y zs) extra
    /\ danger_calls st'.1.1
       = danger_calls st.1.1 ++ (if on_danger st.1.1 then extra else [])
    /\ latest_positions st'.1.1 = latest_positions st.1.1.
Proof.
  induction zs as [| z zs IH]; intros st; cbv zeta; cbn [fold_left].
  - exists []. rewrite !app_nil_r. repeat split; [constructor |].
    destruct (on_danger _); rewrite ?app_nil_r; reflexivity.
  - destruct (zone_body_appends tag x y st z) as (e1 & A1 & K1 & D1 & L1).
    destruct (IH (zone_body tag x y st z)) as (e2 & A2 & K2 & D2 & L2).
    cbv zeta in *.
    assert (Hcb : on_danger (zone_body tag x y st z).1.1 = on_danger st.1.1).
    { apply (zone_body_own_key tag x y st z). }
    exists (e1 ++ e2). split; [rewrite A2, A1, app_assoc; reflexivity |].
    split; [| split].
    + apply Forall_app. split.
      * destruct K1 as [-> | [-> Hin]]; [constructor |].
        repeat constructor. exists z. split; [reflexivity |]. split; [left | exact Hin].
      * eapply Forall_impl; [exact K2 |].
        intros a (z' & Ha & Hz' & Hin'). exists z'.
        split; [exact Ha |]. split; [right; exact Hz' | exact Hin'].
    + rewrite D2, D1, Hcb. destruct (on_danger st.1.1).
      * rewrite app_assoc. reflexivity.
      * rewrite !app_nil_r. reflexivity.
    + rewrite L2, L1. reflexivity.
Qed.

Lemma alert_of_batch_config (svc svc' : GeofencingService)
    (ps : list (Z * (Q * Q))) (a : Alert) :
  same_config svc svc' -> alert_of_batch svc' ps a -> alert_of_batch svc ps a.
Proof.
  intros (C1 & _ & _ & C4) (tag & x & y & Hp & Hf & Ha).
  exists tag, x, y. split; [exact Hp |]. split.
  - unfold filtered_out in *. rewrite <- C4. exact Hf.
  - rewrite <- C1. exact Ha.
Qed.

Lemma positions_fold_appends (ps : list (Z * (Q * Q))) :
  forall st : LoopState,
  let st' := fold_left position_body ps st in
  exists extra,
    st'.2 = st.2 ++ extra
    /\ Forall (alert_of_batch st.1.1 ps) extra
    /\ danger_calls st'.1.1
       = danger_calls st.1.1 ++ (if on_danger st.1.1 then extra else [])
    /\ latest_positions st'.1.1 = latest_positions st.1.1.
Proof.
  induction ps as [| p ps IH]; intros st; cbv zeta; cbn [fold_left].
  - exists []. rewrite !app_nil_r. repeat split; [constructor |].
    destruct (on_danger _); rewrite ?app_nil_r; reflexivity.
  - pose proof (positions_fold_config [p] st) as Hcfg. cbn [fold_left] in Hcfg.
    assert (H1 : exists e1,
      (position_body st p).2 = st.2 ++ e1
      /\ Forall (alert_of_batch st.1.1 (p :: ps)) e1
      /\ danger_calls (position_body st p).1.1
         = danger_calls st.1.1 ++ (if on_danger st.1.1 then e1 else [])
      /\ latest_positions (position_body st p).1.1 = latest_positions st.1.1).
    { clear IH Hcfg. unfold position_body.
      destruct p as [tag [x y]]. destruct st as [[svc clk] alerts].
      destruct (filtered_out svc tag) eqn:Hf.
      - exists []. cbn [fst snd]. rewrite !app_nil_r. repeat split; [constructor |].
        destruct (on_danger _); rewrite ?app_nil_r; reflexivity.
      - destruct (zones_fold_appends tag x y (zones svc) (svc, clk, alerts))
          as (e & A & K & D & L).
        cbv zeta in *. cbn [fst snd] in *. exists e.
        split; [exact A |]. split; [| split; [exact D | exact L]].
        eapply Forall_impl; [exact K |]. intros a Ha.
        exists tag, x, y. split; [left |]. split; [exact Hf | exact Ha]. }
    destruct H1 as (e1 & A1 & K1 & D1 & L1).
    destruct (IH (position_body st p)) as (e2 & A2 & K2 & D2 & L2).
    cbv zeta in *.
    exists (e1 ++ e2). split; [rewrite A2, A1, app_assoc; reflexivity |].
    split; [| split].
    + apply Forall_app. split; [exact K1 |].
      eapply Forall_impl; [exact K2 |]. intros a Ha.
      apply (alert_of_batch_config _ _ _ _ Hcfg) in Ha.
      destruct Ha as (tag & x & y & Hp & Hrest).
      exists tag, x, y. split; [right; exact Hp | exact Hrest].
    + destruct Hcfg as (_ & Hcb & _). rewrite D2, D1, Hcb.
      destruct (on_danger st.1.1).
      * rewrite app_assoc. reflexivity.
      * rewrite !app_nil_r. reflexivity.
    + rewrite L2, L1. reflexivity.
Qed.

Lemma process_positions_alerts (svc : GeofencingService) (clk : Clock)
    (positions : list (Z * (Q * Q))) (a : Alert) :
  a ∈ (process_positions svc clk positions).1.1 ->
  alert_of_batch svc positions a.
Proof.
  rewrite process_positions_unfold. cbv zeta. cbn [fst snd].
  set (st0 := (set_latest_positions svc _, clk, [])).
  destruct (positions_fold_appends positions st0) as (extra & A & K & _).
  cbv zeta in A. rewrite A. cbn [snd app fst] in *. intros Ha.
  rewrite Forall_forall in K.
  destruct (K a Ha) as (tag & x & y & Hp & Hf & Hz).
  exists tag, x, y. auto.
Qed.

(** X9. Soundness of the alerts: every alert an evaluation call returns is for
    an item of the batch that passes the tag filter, carries the position
    of that item, and names a configured zone that contains the position.
    No alert is made up, and none is for a point outside its zone. *)
Theorem alerts_are_justified (svc : GeofencingService) (clk : Clock)
    (positions : list (Z * (Q * Q))) (a : Alert) :
  a ∈ (process_positions svc clk positions).1.1 ->
  exists tag x y z,
    a = mkAlert tag z (x, y)
    /\ (tag, (x, y)) ∈ positions
    /\ filtered_out svc tag = false
    /\ z ∈ zones svc
    /\ contains_point z x y = true.
Proof.
  intros Ha.
  destruct (process_positions_alerts svc clk positions a Ha)
    as (tag & x & y & Hp & Hf & z & Hz1 & Hz2 & Hz3).
  exists tag, x, y, z. auto.
Qed.

(** X10. The callback is called once for every alert of the call, in the order
    of the returned list, and not at all when no callback is registered. *)
Theorem callback_called_per_alert (svc : GeofencingService) (clk : Clock)
    (positions : list (Z * (Q * Q))) :
  let res := process_positions svc clk positions in
  danger_calls res.1.2
  = danger_calls svc ++ (if on_danger svc then res.1.1 else []).
Proof.
  cbv zeta. rewrite process_positions_unfold. cbv zeta. cbn [fst snd].
  set (st0 := (set_latest_positions svc _, clk, [])).
  destruct (positions_fold_appends positions st0) as (extra & A & _ & D & _).
  cbv zeta in *. rewrite D, A. reflexivity.
Qed.

Lemma dict_update_lookup (ps : list (Z * (Q * Q))) :
  forall m : gmap Z (Q * Q),
  NoDup (map fst ps) ->
  (forall tag pos, (tag, pos) ∈ ps -> dict_update m ps !! tag = Some pos)
  /\ (forall tag, tag ∉ map fst ps -> dict_update m ps !! tag = m !! tag).
Proof.
  unfold dict_update.
  induction ps as [| [k v] ps IH]; intros m Hnd; cbn [fold_left map fst snd].
  - split; [intros tag pos H; apply elem_of_nil in H; contradiction | reflexivity].
  - cbn [map fst] in Hnd. apply NoDup_cons in Hnd as [Hfresh Hnd].
    destruct (IH (<[k := v]> m) Hnd) as [IH1 IH2].
    split.
    + intros tag pos [[= -> ->] | Hin]%elem_of_cons.
      * rewrite IH2 by exact Hfresh. apply lookup_insert_eq.
      * apply IH1, Hin.
    + intros tag Hnot. rewrite IH2.
      * apply lookup_insert_ne. intros ->. apply Hnot. left.
      * intros Hin. apply Hnot. right. exact Hin.
Qed.

(** X11. Position tracking: after an evaluation call every tag of the batch is
    tracked with the position the batch gives it, whether or not the tag
    filter lets it through to the zones, and the tracked position of every
    other tag is what it was. *)
Theorem batch_positions_tracked (svc : GeofencingService) (clk : Clock)
    (positions : list (Z * (Q * Q))) :
  NoDup (map fst positions) ->
  let svc' := (process_positions svc clk positions).1.2 in
  (forall tag pos, (tag, pos) ∈ positions ->
     latest_positions svc' !! tag = Some pos)
  /\ (forall tag, tag ∉ map fst positions ->
        latest_positions svc' !! tag = latest_positions svc !! tag).
Proof.
  intros Hnd. cbv zeta. rewrite process_positions_unfold. cbv zeta.
  cbn [fst snd].
  set (st0 := (set_latest_positions svc _, clk, [])).
  destruct (positions_fold_appends positions st0) as (extra & _ & _ & _ & L).
  cbv zeta in L. rewrite L. cbn [fst snd latest_positions set_latest_positions].
  apply dict_update_lookup, Hnd.
Qed.

Lemma position_body_skips (key : Z * string) (st : LoopState)
    (item : Z * (Q * Q)) :
  item.1 <> key.1 \/ filtered_out st.1.1 key.1 = true ->
  untouched key st (position_body st item).
Proof.
  intros H.
  destruct (Z.eq_dec item.1 key.1) as [E | E];
    [| apply position_body_other_key; exact E].
  destruct H as [H | H]; [contradiction |].
  unfold position_body. destruct item as [tag [x y]].
  destruct st as [[svc clk] alerts]. cbn [fst snd] in *. subst tag.
  rewrite H. apply untouched_refl.
Qed.

Lemma positions_fold_skips (key : Z * string) (ps : list (Z * (Q * Q))) :
  forall st : LoopState,
  key.1 ∉ map fst ps \/ filtered_out st.1.1 key.1 = true ->
  untouched key st (fold_left position_body ps st).
Proof.
  induction ps as [| p ps IH]; intros st H; cbn [fold_left].
  - apply untouched_refl.
  - assert (Hp : untouched key st (position_body st p)).
    { apply position_body_skips. destruct H as [H | H]; [left | right; exact H].
      intros E. apply H. cbn [map]. rewrite <- E. left. }
    eapply untouched_trans; [exact Hp |]. apply IH.
    destruct H as [H | H].
    + left. intros Hin. apply H. right. exact Hin.
    + right. destruct Hp as ((_ & _ & _ & C4) & _).
      unfold filtered_out in *. rewrite C4. exact H.
Qed.

(** X12. A tag that is not in the batch, or that the tag filter skips, is left
    alone by an evaluation call: its hysteresis entries are unchanged for
    every zone name and no alert is emitted for it. *)
Theorem unprocessed_tag_untouched (svc : GeofencingService) (clk : Clock)
    (positions : list (Z * (Q * Q))) (tag : Z) :
  tag ∉ map fst positions \/ filtered_out svc tag = true ->
  let res := process_positions svc clk positions in
  (forall zone_name : string,
     _fired res.1.2 !! (tag, zone_name) = _fired svc !! (tag, zone_name))
  /\ (forall a, a ∈ res.1.1 -> alert_tag_id a <> tag).
Proof.
  intros H. cbv zeta. rewrite process_positions_unfold. cbv zeta. cbn [fst snd].
  set (st0 := (set_latest_positions svc _, clk, [])).
  split.
  - intros zone_name.
    destruct (positions_fold_skips (tag, zone_name) positions st0 H)
      as (_ & _ & F & _).
    exact F.
  - intros a Ha E.
    destruct (positions_fold_appends positions st0) as (extra & A & K & _).
    cbv zeta in A. rewrite A in Ha. cbn [snd app] in Ha.
    rewrite Forall_forall in K.
    destruct (K a Ha) as (tag' & x & y & Hp & Hf & z & -> & _).
    cbn [alert_tag_id] in E. subst tag'. cbn [fst] in Hf.
    destruct H as [H | H].
    + apply H. apply (elem_of_map_1 fst _ _ Hp).
    + unfold st0 in Hf. unfold filtered_out in *. cbn in Hf. congruence.
Qed.

Lemma zone_name_inj (zs : list Zone) (z z' : Zone) :
  NoDup (map name zs) -> z ∈ zs -> z' ∈ zs -> name z = name z' -> z = z'.
Proof.
  induction zs as [| z0 zs IH]; intros Hnd Hz Hz' E.
  - apply elem_of_nil in Hz. contradiction.
  - cbn [map] in Hnd. apply NoDup_cons in Hnd as [Hfresh Hnd].
    apply elem_of_cons in Hz as [-> | Hz];
      apply elem_of_cons in Hz' as [-> | Hz'].
    + reflexivity.
    + exfalso. apply Hfresh. rewrite E. apply elem_of_map_1, Hz'.
    + exfalso. apply Hfresh. rewrite <- E. apply elem_of_map_1, Hz.
    + apply IH; assumption.
Qed.

(** The outcome of a call for a tag that passes the filter and lies inside
    a zone, for a dict batch and zone names pairwise different. *)
Lemma inside_key_outcome (svc : GeofencingService) (clk : Clock)
    (ps : list (Z * (Q * Q))) (tag : Z) (x y : Q) (z : Zone) :
  NoDup (map fst ps) -> NoDup (map name (zones svc)) ->
  (tag, (x, y)) ∈ ps -> filtered_out svc tag = false -> z ∈ zones svc ->
  contains_point z x y = true ->
  let res := process_positions svc clk ps in
  let key := (tag, name z) in
  exists (fire : bool) (clk_a : Clock),
    clock_suffix clk clk_a
    /\ (_fired svc !! key = None -> fire = true)
    /\ (forall r t, retrigger_after_sec svc = Some r ->
          _fired svc !! key = Some t ->
          fire = Qge_bool (clk_a 0%nat - t) r)
    /\ (forall a, a ∈ res.1.1 -> alert_key a = key -> fire = true)
    /\ (fire = true ->
          mkAlert tag z (x, y) ∈ res.1.1
          /\ exists i, _fired res.1.2 !! key = Some (clk_a i))
    /\ (fire = false -> _fired res.1.2 !! key = _fired svc !! key).
Proof.
  intros Hps Hzs Hp Hf Hz Hin.
  destruct (process_positions_own_key svc clk ps tag x y z Hps Hzs Hp Hf Hz)
    as (st_a & Ha & Hb).
  cbv zeta in *.
  destruct (process_positions svc clk ps) as [[alerts svc'] clk'].
  cbn [fst snd] in *.
  destruct Ha as (Ca & Ka & Fa & ea & Aa & Ea).
  destruct Hb as (_ & _ & Fb & eb & Ab & Eb).
  cbn [fst snd app] in *.
  pose proof (zone_body_own_key tag x y st_a z) as (_ & _ & _ & _ & Hstep).
  cbv zeta in Hstep.
  destruct (Hstep Hin) as (fire & Hnone & Hsome & Halerts & Hset & Hkeep).
  rewrite Fa in Hnone, Hsome, Hkeep.
  exists fire, st_a.1.2. split; [exact Ka |]. split; [exact Hnone |].
  split; [| split; [| split]].
  - intros r t Hr Ht. apply Hsome; [| exact Ht].
    destruct Ca as (_ & _ & C & _). rewrite C. exact Hr.
  - intros a Ha Hkey. rewrite Ab, Halerts, Aa, !elem_of_app in Ha.
    rewrite Forall_forall in Ea, Eb.
    destruct Ha as [[Ha | Ha] | Ha].
    + exfalso. exact (Ea a Ha Hkey).
    + destruct fire; [reflexivity |]. apply elem_of_nil in Ha. contradiction.
    + exfalso. exact (Eb a Ha Hkey).
  - intros ->. split.
    + rewrite Ab, Halerts, !elem_of_app. left. right. left.
    + destruct (Hset eq_refl) as [i Hi]. exists i. rewrite Fb. exact Hi.
  - intros ->. rewrite Fb. apply Hkeep. reflexivity.
Qed.

(** X13. Debouncing across calls: when a call at time [t1] emits an alert for a
    tag and a zone, a next call less than [retrigger_after_sec] later
    emits no alert for the same tag and zone, wherever the tag then is
    (dict batches, zone names pairwise different). *)
Theorem alerts_spaced_by_retrigger (svc : GeofencingService)
    (batch1 batch2 : list (Z * (Q * Q))) (t1 t2 r : Q) (a : Alert) :
  retrigger_after_sec svc = Some r ->
  NoDup (map fst batch1) ->
  NoDup (map fst batch2) ->
  NoDup (map name (zones svc)) ->
  (t2 - t1 < r)%Q ->
  let call1 := process_positions svc (frozen t1) batch1 in
  let call2 := process_positions call1.1.2 (frozen t2) batch2 in
  a ∈ call1.1.1 ->
  forall a', a' ∈ call2.1.1 -> alert_key a' <> alert_key a.
Proof.
  intros Hr Hb1 Hb2 Hzs Hlt call1 call2 Ha a' Ha' Hkey.
  destruct (process_positions_alerts _ _ _ _ Ha)
    as (tag & x & y & Hp & Hf & z & -> & Hz & Hin).
  destruct (inside_key_outcome svc (frozen t1) batch1 tag x y z
              Hb1 Hzs Hp Hf Hz Hin)
    as (fire1 & clk1 & K1 & _ & _ & Hfire1 & Hset1 & _).
  cbv zeta in *. fold call1 in Hfire1, Hset1.
  assert (E1 : fire1 = true) by (apply (Hfire1 _ Ha); reflexivity).
  destruct (Hset1 E1) as (_ & i & Hentry).
  rewrite (clock_suffix_frozen (frozen t1) clk1 t1 (fun _ => eq_refl) K1) in Hentry.
  destruct (process_positions_config svc (frozen t1) batch1) as (C1 & C2 & C3 & C4).
  fold call1 in C1, C2, C3, C4.
  destruct (process_positions_alerts _ _ _ _ Ha')
    as (tag' & x' & y' & Hp' & Hf' & z' & -> & Hz' & Hin').
  unfold alert_key in Hkey. cbn [alert_tag_id alert_zone] in Hkey.
  injection Hkey as -> Hname.
  rewrite C1 in Hz'.
  assert (z' = z) as -> by (eapply zone_name_inj; eassumption).
  destruct (inside_key_outcome call1.1.2 (frozen t2) batch2 tag x' y' z)
    as (fire2 & clk2 & K2 & _ & Hsome2 & Hfire2 & _); try assumption.
  { rewrite C1. exact Hzs. }
  { rewrite C1. exact Hz'. }
  cbv zeta in *. fold call2 in Hfire2.
  assert (E2 : fire2 = true) by (apply (Hfire2 _ Ha'); reflexivity).
  rewrite (Hsome2 r t1) in E2; [| rewrite C3; exact Hr | exact Hentry].
  rewrite (clock_suffix_frozen (frozen t2) clk2 t2 (fun _ => eq_refl) K2) in E2.
  unfold Qge_bool in E2. qprop. lra.
Qed.

End EngineFacts.

(** ** The corners of a zone *)

Section CornerFacts.

Import Shapely Geofence.

Lemma rectangle_interior (x0 y0 x1 y1 x y : Q) :
  (x0 < x1)%Q -> (y0 < y1)%Q ->
  polygon_contains (rectangle_ring x0 y0 x1 y1) (x, y) = true
  <-> (x0 < x < x1)%Q /\ (y0 < y < y1)%Q.
Proof.
  intros Hx Hy. unfold polygon_contains.
  pose proof (rectangle_touches x0 y0 x1 y1 x y Hx Hy) as Ht.
  rewrite (rectangle_winding x0 y0 x1 y1 x y Hx Hy).
  destruct (polygon_touches (rectangle_ring x0 y0 x1 y1) (x, y)) eqn:T;
    cbn [negb andb].
  - split; [discriminate |]. intros H.
    destruct (proj1 Ht eq_refl) as [_ Hside]. lra.
  - destruct (Qle_bool y0 y) eqn:E1, (Qlt_bool y y1) eqn:E2,
      (Qle_bool x0 x) eqn:E3, (Qlt_bool x x1) eqn:E4; cbn;
      qprop; split; try discriminate; try lra; try reflexivity.
Qed.

(** X15. For a zone the constructor returns (finite bounds), every point
    of [get_corners] lies on the boundary of the zone's polygon and not in
    its interior, and [contains_point] holds for it. *)
Theorem corners_on_boundary (x0 y0 x1 y1 : Q) (nm : string) (z : Zone) :
  Zone_init x0 y0 x1 y1 nm = Ok z ->
  forall p, p ∈ get_corners z ->
    polygon_touches (_polygon z) p = true
    /\ polygon_contains (_polygon z) p = false
    /\ contains_point z p.1 p.2 = true.
Proof.
  intros Hz. apply Zone_init_ok in Hz as (-> & Hx & Hy).
  unfold get_corners. cbn [min_x min_y max_x max_y _polygon].
  assert (Hcorner : forall x y,
    ((x == x0)%Q \/ (x == x1)%Q) -> ((y == y0)%Q \/ (y == y1)%Q) ->
    polygon_touches (rectangle_ring x0 y0 x1 y1) (x, y) = true
    /\ polygon_contains (rectangle_ring x0 y0 x1 y1) (x, y) = false
    /\ contains_point (mkZone x0 y0 x1 y1 nm (rectangle_ring x0 y0 x1 y1)) x y
       = true).
  { intros x y Hxx Hyy. split; [| split].
    - apply rectangle_touches; [assumption .. |]. lra.
    - destruct (polygon_contains _ _) eqn:C; [| reflexivity].
      apply rectangle_interior in C; [| assumption ..]. lra.
    - apply rectangle_contains_point; [assumption .. |]. lra. }
  intros p Hp.
  repeat (apply elem_of_cons in Hp as [-> | Hp]);
    [.. | apply elem_of_nil in Hp; contradiction];
    cbn [fst snd]; apply Hcorner; auto; try (left; reflexivity);
    try (right; reflexivity).
Qed.

End CornerFacts.

(** ** The pipeline, event by event *)

Section DeliveryFacts.

Import Geofence Codec Dashboard.

Lemma published_refl (app : AppState) (w : World) :
  published_to_subscribers app w app w [].
Proof.
  split; [rewrite app_nil_r; reflexivity |].
  split; [| split; [reflexivity | split; [auto | congruence]]].
  intros c Hc (ch & Hch & Hopen). split; [exact Hc |].
  exists ch. split; [exact Hch |]. rewrite Hch, app_nil_r.
  destruct ch as [o i]. cbn in *. subst o. reflexivity.
Qed.

Lemma published_trans (app0 app1 app2 : AppState) (w0 w1 w2 : World)
    (m1 m2 : list Message) :
  published_to_subscribers app0 w0 app1 w1 m1 ->
  published_to_subscribers app1 w1 app2 w2 m2 ->
  published_to_subscribers app0 w0 app2 w2 (m1 ++ m2).
Proof.
  intros (P1 & L1 & D1 & S1 & O1) (P2 & L2 & D2 & S2 & O2).
  assert (Hdead : forall c, ~ live (channels w0) c -> ~ live (channels w1) c).
  { intros c Hn. unfold live. rewrite D1 by (right; exact Hn). exact Hn. }
  split; [rewrite P2, P1, app_assoc; reflexivity |].
  split; [| split; [| split]].
  - intros c Hc Hl. destruct (L1 c Hc Hl) as (Hc1 & ch & Hch & Hch1).
    destruct (L2 c Hc1) as (Hc2 & ch1 & Hch1' & Hch2).
    { exists (mkChannel true (inbox ch ++ m1)). auto. }
    split; [exact Hc2 |]. exists ch. split; [exact Hch |].
    rewrite Hch1 in Hch1'. injection Hch1' as <-. cbn [inbox] in Hch2.
    rewrite Hch2, app_assoc. reflexivity.
  - intros c Hc. rewrite D2, D1; [reflexivity | exact Hc |].
    destruct Hc as [Hc | Hc]; [left | right; apply Hdead, Hc].
    intros Hin. apply Hc, S1, Hin.
  - intros c Hc. apply S1, S2, Hc.
  - intros Hne c Hc.
    destruct (live_dec (channels w0) c) as [Hl | Hn]; [exact Hl | exfalso].
    destruct m2 as [| m m2'].
    + rewrite app_nil_r in Hne. apply Hn, (O1 Hne), S2, Hc.
    + apply (Hdead c Hn), (O2 ltac:(discriminate) c Hc).
Qed.

(** One call of the broadcaster publishes its message. *)
Lemma broadcast_publishes (app : AppState) (w : World) (msg : Message) :
  let r := _broadcast_to_dashboard app w msg in
  published_to_subscribers app w r.1 r.2 [msg]
  /\ geofencing r.1 = geofencing app
  /\ app_latest_positions r.1 = app_latest_positions app
  /\ clock r.2 = clock w
  /\ buzzed r.2 = buzzed w.
Proof.
  cbv zeta. unfold _broadcast_to_dashboard.
  pose proof (broadcast_sweep msg (elements (dashboard_clients app))
                (NoDup_elements _) (channels w) ∅) as (H1 & H2 & H3).
  destruct (fold_left _ _ _) as [chs disc]. cbn [fst snd] in *.
  split; [| repeat split].
  split; [reflexivity |].
  assert (Hdisc : forall c, c ∈ disc
                    <-> c ∈ dashboard_clients app /\ ~ live (channels w) c).
  { intros c. rewrite H1, elem_of_elements. split.
    - intros [He | H]; [apply not_elem_of_empty in He; contradiction | exact H].
    - intros H. right. exact H. }
  cbn [dashboard_clients channels].
  split; [| split; [| split]].
  - intros c Hc Hl. split.
    + apply elem_of_difference. split; [exact Hc |].
      rewrite Hdisc. tauto.
    + apply H2; [apply elem_of_elements, Hc | exact Hl].
  - intros c Hc. apply H3. rewrite elem_of_elements. exact Hc.
  - intros c Hc. apply elem_of_difference in Hc. tauto.
  - intros _ c Hc. apply elem_of_difference in Hc as [Hc Hnot].
    destruct (live_dec (channels w) c) as [Hl | Hn]; [exact Hl |].
    exfalso. apply Hnot, Hdisc. auto.
Qed.

Lemma send_alert_effect (app : AppState) (w : World) (a : Alert) :
  let r := _send_alert app w a in
  exists m,
    alert_event a m
    /\ published_to_subscribers app w r.1 r.2 [m]
    /\ geofencing r.1 = geofencing app
    /\ app_latest_positions r.1 = app_latest_positions app
    /\ buzzed r.2 = buzzed w ++ [alert_tag_id a]
    /\ clock_suffix (clock w) (clock r.2).
Proof.
  cbv zeta. unfold _send_alert, _send_buzzer_vibration, time_time.
  destruct a as [tag zone [x y]]. cbn [alert_tag_id alert_zone alert_position].
  cbn [channels clock buzzed published].
  set (w2 := mkWorld _ _ _ _).
  set (msg := alert tag (name zone) (x, y) _).
  destruct (broadcast_publishes app w2 msg) as (P & G & L & C & B).
  cbv zeta in *. exists msg.
  split; [eexists; reflexivity |].
  split; [exact P |]. split; [exact G |]. split; [exact L |].
  split; [rewrite B; reflexivity |].
  rewrite C. exists 1%nat. reflexivity.
Qed.

Lemma send_alerts_effect (alerts : list Alert) :
  forall (app : AppState) (w : World),
  let r := fold_left (fun st a => _send_alert st.1 st.2 a) alerts (app, w) in
  exists msgs,
    Forall2 alert_event alerts msgs
    /\ published_to_subscribers app w r.1 r.2 msgs
    /\ geofencing r.1 = geofencing app
    /\ app_latest_positions r.1 = app_latest_positions app
    /\ buzzed r.2 = buzzed w ++ map alert_tag_id alerts.
Proof.
  induction alerts as [| a alerts IH]; intros app w; cbv zeta; cbn [fold_left].
  - exists []. split; [constructor |]. split; [apply published_refl |].
    cbn [fst snd map]. rewrite app_nil_r. auto.
  - cbn [fst snd].
    destruct (send_alert_effect app w a) as (m & E & P & G & L & B & _).
    cbv zeta in *.
    destruct (_send_alert app w a) as [app1 w1] eqn:Es. cbn [fst snd] in *.
    destruct (IH app1 w1) as (msgs & F & P' & G' & L' & B').
    cbv zeta in *.
    exists (m :: msgs). split; [constructor; assumption |].
    split; [apply (published_trans _ _ _ _ _ _ [m] msgs P P') |].
    split; [congruence |]. split; [congruence |].
    rewrite B', B. cbn [map]. rewrite <- app_assoc. reflexivity.
Qed.

Lemma process_singleton_latest (svc : GeofencingService) (clk : Clock)
    (tag : Z) (pos : Q * Q) :
  latest_positions (process_positions svc clk [(tag, pos)]).1.2
  = <[tag := pos]> (latest_positions svc).
Proof.
  rewrite process_positions_unfold. cbv zeta. cbn [fst snd].
  set (st0 := (set_latest_positions svc _, clk, [])).
  destruct (positions_fold_appends [(tag, pos)] st0) as (extra & _ & _ & _ & L).
  cbv zeta in L. rewrite L. reflexivity.
Qed.

(** One pass of the loop of [_process_location_update]. *)
Lemma update_body_effect (app : AppState) (w : World) (tag : TagLocationInfo) :
  let pos := (x_coordinate tag, y_coordinate tag) in
  let evaluation :=
    process_positions (geofencing app) (clock w) [(tag_id tag, pos)] in
  let res := update_body app w tag in
  exists msgs,
    Forall2 alert_event evaluation.1.1 msgs
    /\ published_to_subscribers app w res.1.1 res.1.2
         (msgs ++ [position_update (tag_id tag) (x_coordinate tag)
                     (y_coordinate tag) (battery tag) (timestamp tag)
                     (0 <? len evaluation.1.1)])
    /\ geofencing res.1.1 = evaluation.1.2
    /\ app_latest_positions res.1.1
       = <[tag_id tag := pos]> (app_latest_positions app)
    /\ buzzed res.1.2 = buzzed w ++ map alert_tag_id evaluation.1.1.
Proof.
  cbv zeta. unfold update_body.
  cbn [geofencing dashboard_clients app_latest_positions].
  destruct (process_positions _ _ _) as [[alerts svc] clk]. cbn [fst snd].
  set (app1 := mkAppState svc _ _). set (w1 := mkWorld _ clk _ _).
  destruct (send_alerts_effect alerts app1 w1) as (msgs & F & P & G & L & B).
  cbv zeta in *.
  destruct (fold_left _ alerts _) as [app2 w2]. cbn [fst snd] in *.
  set (pu := position_update _ _ _ _ _ _).
  destruct (broadcast_publishes app2 w2 pu) as (P' & G' & L' & _ & B').
  cbv zeta in *.
  destruct (_broadcast_to_dashboard app2 w2 pu) as [app3 w3]. cbn [fst snd] in *.
  exists msgs. split; [exact F |].
  pose proof (published_trans app1 app2 app3 w1 w2 w3 msgs [pu] P P') as PT.
  unfold published_to_subscribers in PT |- *.
  subst app1 w1. cbn [dashboard_clients channels published] in PT.
  split; [exact PT |].
  cbn [geofencing app_latest_positions buzzed] in *.
  split; [congruence |]. split; [congruence |]. congruence.
Qed.

Lemma alert_events_tags (alerts : list Alert) (msgs : list Message) (id : Z) :
  Forall2 alert_event alerts msgs ->
  Forall (fun a => alert_tag_id a = id) alerts ->
  Forall (fun m => message_tag m = id) msgs /\ position_updates msgs = [].
Proof.
  induction 1 as [| a m alerts msgs [ts ->] _ IH]; intros Hall.
  - split; [constructor | reflexivity].
  - apply Forall_cons in Hall as [Ha Hall].
    destruct (IH Hall) as [IH1 IH2].
    split; [constructor; [exact Ha | exact IH1] | exact IH2].
Qed.

Lemma position_updates_app (a b : list Message) :
  position_updates (a ++ b) = position_updates a ++ position_updates b.
Proof.
  induction a as [| m a IH]; [reflexivity |].
  destruct m; cbn [app position_updates]; rewrite IH; reflexivity.
Qed.

Lemma singleton_alert_tags (svc : GeofencingService) (clk : Clock)
    (id : Z) (pos : Q * Q) :
  Forall (fun a => alert_tag_id a = id)
    (process_positions svc clk [(id, pos)]).1.1.
Proof.
  apply Forall_forall. intros a Ha.
  destruct (process_positions_alerts _ _ _ _ Ha)
    as (tag & x & y & Hp & _ & z & -> & _).
  apply list_elem_of_singleton in Hp. injection Hp as -> _. reflexivity.
Qed.

(** The loop of [_process_location_update] over the tags it keeps. *)
Lemma update_fold_effect (kept : list TagLocationInfo) :
  forall (app : AppState) (w : World),
  let r := fold_left (fun st tag => (update_body st.1 st.2 tag).1) kept (app, w) in
  exists msgs,
    published_to_subscribers app w r.1 r.2 msgs
    /\ Forall (fun m => exists t, t ∈ kept /\ message_tag m = tag_id t) msgs
    /\ map message_tag (position_updates msgs) = map tag_id kept
    /\ app_latest_positions r.1
       = fold_left (fun m t => <[tag_id t := (x_coordinate t, y_coordinate t)]> m)
           kept (app_latest_positions app)
    /\ (app_latest_positions app = latest_positions (geofencing app) ->
        app_latest_positions r.1 = latest_positions (geofencing r.1)).
Proof.
  induction kept as [| t kept IH]; intros app w; cbv zeta; cbn [fold_left].
  - exists []. split; [apply published_refl |]. split; [constructor |].
    split; [reflexivity |]. split; [reflexivity | auto].
  - cbn [fst snd].
    destruct (update_body_effect app w t) as (ma & F & P & G & L & _).
    cbv zeta in *.
    destruct (alert_events_tags _ _ (tag_id t) F (singleton_alert_tags _ _ _ _))
      as [Htags Hnone].
    destruct (update_body app w t) as [[app1 w1] alerts]. cbn [fst snd] in *.
    destruct (IH app1 w1) as (mb & P' & T' & U' & L' & A').
    cbv zeta in *.
    set (pu := position_update _ _ _ _ _ _) in P.
    exists ((ma ++ [pu]) ++ mb).
    split; [exact (published_trans _ _ _ _ _ _ _ _ P P') |].
    split; [| split; [| split]].
    + apply Forall_app. split.
      * apply Forall_app. split.
        -- eapply Forall_impl; [exact Htags |]. intros m Hm.
           exists t. split; [left | exact Hm].
        -- repeat constructor. exists t. split; [left | reflexivity].
      * eapply Forall_impl; [exact T' |]. intros m (t' & Ht' & Hm).
        exists t'. split; [right; exact Ht' | exact Hm].
    + rewrite !position_updates_app, Hnone. subst pu.
      cbn [Datatypes.app position_updates map message_tag].
      rewrite U'. reflexivity.
    + rewrite L', L. reflexivity.
    + intros Hagree. apply A'. rewrite L, G, process_singleton_latest, Hagree.
      reflexivity.
Qed.

(** X16. One pass for a tag publishes, in this order, one alert event for each
    alert of the evaluation (same tag, zone name and position, in the order
    of the alerts) and then the position update; it also requests the
    buzzer once for each alert, and returns the alerts of the evaluation. *)
Theorem update_publishes_alerts_then_position (app : AppState) (w : World)
    (tag : TagLocationInfo) :
  let pos := (x_coordinate tag, y_coordinate tag) in
  let alerts :=
    (process_positions (geofencing app) (clock w) [(tag_id tag, pos)]).1.1 in
  let res := update_body app w tag in
  exists events,
    Forall2 alert_event alerts events
    /\ published res.1.2
       = published w ++ events
         ++ [position_update (tag_id tag) (x_coordinate tag) (y_coordinate tag)
               (battery tag) (timestamp tag) (0 <? len alerts)]
    /\ buzzed res.1.2 = buzzed w ++ map alert_tag_id alerts.
Proof.
  cbv zeta.
  destruct (update_body_effect app w tag) as (msgs & F & (P & _) & _ & _ & B).
  exists msgs. auto.
Qed.

(** X17. Fan-out of one location update: every subscriber whose connection is
    open stays subscribed and receives exactly the events published by the
    update, in the order of publication; the connections of the others are
    not touched; no subscriber is added; and as soon as an event was
    published, only subscribers with an open connection are left. *)
Theorem events_reach_open_subscribers (self : UWBCollector) (app : AppState)
    (w : World) (tags : list TagLocationInfo) :
  let r := _process_location_update self app w tags in
  exists events,
    published r.2 = published w ++ events
    /\ (forall c, c ∈ dashboard_clients app -> live (channels w) c ->
          c ∈ dashboard_clients r.1
          /\ exists ch, channels w !! c = Some ch
               /\ channels r.2 !! c = Some (mkChannel true (inbox ch ++ events)))
    /\ (forall c, c ∉ dashboard_clients app \/ ~ live (channels w) c ->
          channels r.2 !! c = channels w !! c)
    /\ (forall c, c ∈ dashboard_clients r.1 -> c ∈ dashboard_clients app)
    /\ (events <> [] ->
        forall c, c ∈ dashboard_clients r.1 -> live (channels w) c).
Proof.
  cbv zeta. unfold _process_location_update.
  destruct (update_fold_effect (target_tags self tags) app w) as (msgs & P & _).
  exists msgs. exact P.
Qed.

Lemma elem_of_target_tags (self : UWBCollector) (tags : list TagLocationInfo)
    (t : TagLocationInfo) :
  t ∈ target_tags self tags ->
  t ∈ tags /\ (target_tag_id self = 0 \/ tag_id t = target_tag_id self).
Proof.
  unfold target_tags. destruct (target_tag_id self =? 0) eqn:E.
  - intros H. split; [exact H | left; lia].
  - intros H. apply list_elem_of_filter in H as [H1 H2]. auto.
Qed.

(** X18. Target-tag filtering: a location update publishes one position update
    for each tag it keeps, in their order, and every event it publishes is
    about a tag of the input; when a target tag id other than 0 is set,
    every event is about that tag. When no tag is kept, nothing changes. *)
Theorem only_target_tags_processed (self : UWBCollector) (app : AppState)
    (w : World) (tags : list TagLocationInfo) :
  let r := _process_location_update self app w tags in
  exists events,
    published r.2 = published w ++ events
    /\ map message_tag (position_updates events)
       = map tag_id (target_tags self tags)
    /\ Forall (fun m => (exists t, t ∈ tags /\ message_tag m = tag_id t)
                        /\ (target_tag_id self = 0
                            \/ message_tag m = target_tag_id self)) events
    /\ (target_tags self tags = [] -> r = (app, w)).
Proof.
  cbv zeta. unfold _process_location_update. fold (target_tags self tags).
  destruct (update_fold_effect (target_tags self tags) app w)
    as (msgs & (P & _) & T & U & _).
  cbv zeta in *. exists msgs. split; [exact P |]. split; [exact U |].
  split.
  - eapply Forall_impl; [exact T |]. intros m (t & Ht & Hm).
    apply elem_of_target_tags in Ht as [Ht1 Ht2].
    split; [exists t; auto |]. rewrite Hm. exact Ht2.
  - intros ->. reflexivity.
Qed.

Lemma fold_insert_other (kept : list TagLocationInfo) (id : Z) :
  forall m : gmap Z (Q * Q),
  (forall t, t ∈ kept -> tag_id t <> id) ->
  fold_left (fun m t => <[tag_id t := (x_coordinate t, y_coordinate t)]> m)
    kept m !! id = m !! id.
Proof.
  induction kept as [| t kept IH]; intros m H; cbn [fold_left]; [reflexivity |].
  rewrite IH by (intros t' Ht'; apply H; right; exact Ht').
  apply lookup_insert_ne, H. left.
Qed.

(** X19. The position endpoint after a location update: for each kept tag that
    no later kept tag overrides, [get_tag_position] answers with its
    coordinates; a tag id that no kept tag carries gets the answer it got
    before (the 404 response if it was never seen); and the positions the
    application tracks stay equal to those the geofencing service tracks. *)
Theorem latest_position_served (self : UWBCollector) (app : AppState)
    (w : World) (tags : list TagLocationInfo) :
  let r := _process_location_update self app w tags in
  (forall l1 t l2,
     target_tags self tags = l1 ++ t :: l2 ->
     (forall t', t' ∈ l2 -> tag_id t' <> tag_id t) ->
     get_tag_position r.1 (tag_id t)
     = tag_position (tag_id t) (x_coordinate t) (y_coordinate t))
  /\ (forall id,
        (forall t, t ∈ target_tags self tags -> tag_id t <> id) ->
        get_tag_position r.1 id = get_tag_position app id)
  /\ (app_latest_positions app = latest_positions (geofencing app) ->
      app_latest_positions r.1 = latest_positions (geofencing r.1)).
Proof.
  cbv zeta. unfold _process_location_update. fold (target_tags self tags).
  destruct (update_fold_effect (target_tags self tags) app w)
    as (msgs & _ & _ & _ & L & A).
  cbv zeta in *. split; [| split; [| exact A]].
  - intros l1 t l2 E Hlast. unfold get_tag_position.
    rewrite L, E, fold_left_app. cbn [fold_left].
    rewrite fold_insert_other by exact Hlast.
    rewrite lookup_insert_eq. reflexivity.
  - intros id H. unfold get_tag_position.
    rewrite L, fold_insert_other by exact H. reflexivity.
Qed.

(** X20. The connection loop at start-up: it calls [connect] at most three
    times and stops at the first success; it sleeps once after each failed
    attempt except the last possible one; the receive task is created
    exactly when an attempt succeeded, and the loop gives up exactly when
    all three failed. *)
Theorem connection_retry_bounded (connect : Z -> bool) :
  let st := lifespan_connect connect in
  (1 <= attempts_made st <= 3)%nat
  /\ sleeps st = (attempts_made st - 1)%nat
  /\ (streaming st = true <-> connect 1 = true \/ connect 2 = true \/ connect 3 = true)
  /\ (streaming st = true ->
      connect (Z.of_nat (attempts_made st)) = true
      /\ forall k, 1 <= k < Z.of_nat (attempts_made st) -> connect k = false)
  /\ authenticated st = streaming st
  /\ gave_up st = negb (streaming st).
Proof.
  cbv zeta. unfold lifespan_connect.
  change (map Z.of_nat (seq 1 (Z.to_nat max_retries))) with [1; 2; 3].
  cbn [connect_loop attempts_made sleeps authenticated streaming gave_up].
  change (1 <? max_retries) with true. change (2 <? max_retries) with true.
  change (3 <? max_retries) with false.
  destruct (connect 1) eqn:E1; [| destruct (connect 2) eqn:E2;
    [| destruct (connect 3) eqn:E3]];
    cbn [attempts_made sleeps authenticated streaming gave_up negb Nat.sub];
    (split; [lia |]); (split; [reflexivity |]);
    (split; [split; [auto | intros H; try reflexivity;
                             destruct H as [H | [H | H]]; congruence] |]);
    (split; [| split; reflexivity]).
  - intros _. split; [exact E1 | intros k Hk; lia].
  - intros _. split; [exact E2 |]. intros k Hk.
    replace k with 1 by lia. exact E1.
  - intros _. split; [exact E3 |]. intros k Hk.
    assert (k = 1 \/ k = 2) as [-> | ->] by lia; assumption.
  - discriminate.
Qed.

End DeliveryFacts.

(** ** What writes the hysteresis map *)

Section WriteFacts.

Import Geofence.

Lemma writes_refl (st : LoopState) : writes_with_alerts st st.
Proof.
  exists []. rewrite app_nil_r. split; [reflexivity |].
  split; [apply clock_suffix_refl | auto].
Qed.

Lemma writes_trans (a b c : LoopState) :
  writes_with_alerts a b -> writes_with_alerts b c -> writes_with_alerts a c.
Proof.
  intros (e1 & A1 & K1 & W1) (e2 & A2 & K2 & W2).
  exists (e1 ++ e2). split; [rewrite A2, A1, app_assoc; reflexivity |].
  split; [eapply clock_suffix_trans; eassumption |].
  intros k t Hk. destruct (W2 k t Hk) as [Hb | (al & Hal & Hkey & i & ->)].
  - destruct (W1 k t Hb) as [Ha | (al & Hal & Hkey & i & ->)]; [left; exact Ha |].
    right. exists al. split; [apply elem_of_app; left; exact Hal |].
    split; [exact Hkey | exists i; reflexivity].
  - right. exists al. split; [apply elem_of_app; right; exact Hal |].
    split; [exact Hkey |]. destruct K1 as [j Hj]. exists (j + i)%nat. apply Hj.
Qed.

Lemma zone_body_writes (tag : Z) (x y : Q) (st : LoopState) (z : Zone) :
  writes_with_alerts st (zone_body tag x y st z).
Proof.
  pose proof (zone_body_own_key tag x y st z) as (_ & K & Hframe & Hout & Hin).
  cbv zeta in *.
  destruct (contains_point z x y) eqn:E.
  - destruct (Hin eq_refl) as (fire & _ & _ & Ha & Hset & Hkeep).
    exists (if fire then [mkAlert tag z (x, y)] else []).
    split; [exact Ha |]. split; [exact K |].
    intros k t Hk. destruct (decide (k = (tag, name z))) as [-> | Hne].
    + destruct fire.
      * destruct (Hset eq_refl) as [i Hi]. rewrite Hi in Hk. injection Hk as <-.
        right. exists (mkAlert tag z (x, y)).
        split; [left |]. split; [reflexivity | exists i; reflexivity].
      * left. rewrite <- (Hkeep eq_refl). exact Hk.
    + left. rewrite <- (Hframe k Hne). exact Hk.
  - destruct (Hout eq_refl) as [Hnone Ha].
    exists []. rewrite app_nil_r. split; [exact Ha |]. split; [exact K |].
    intros k t Hk. destruct (decide (k = (tag, name z))) as [-> | Hne].
    + rewrite Hnone in Hk. discriminate.
    + left. rewrite <- (Hframe k Hne). exact Hk.
Qed.

Lemma zones_fold_writes (tag : Z) (x y : Q) (zs : list Zone) :
  forall st, writes_with_alerts st (fold_left (zone_body tag x y) zs st).
Proof.
  induction zs as [| z zs IH]; intros st; cbn [fold_left].
  - apply writes_refl.
  - eapply writes_trans; [apply zone_body_writes | apply IH].
Qed.

Lemma positions_fold_writes (ps : list (Z * (Q * Q))) :
  forall st, writes_with_alerts st (fold_left position_body ps st).
Proof.
  induction ps as [| [tag [x y]] ps IH]; intros st; cbn [fold_left].
  - apply writes_refl.
  - eapply writes_trans; [| apply IH].
    unfold position_body. destruct st as [[svc clk] alerts].
    destruct (filtered_out svc tag); [apply writes_refl |].
    apply zones_fold_writes.
Qed.

(** X14. The hysteresis map is written only together with an alert: every entry
    that an evaluation call leaves behind either was there before with the
    same timestamp, or belongs to an alert the call returned and holds a
    reading of the clock taken during the call. *)
Theorem entries_written_only_with_alert (svc : GeofencingService)
    (clk : Clock) (positions : list (Z * (Q * Q))) (key : Z * string) (t : Q) :
  let res := process_positions svc clk positions in
  _fired res.1.2 !! key = Some t ->
  _fired svc !! key = Some t
  \/ exists a, a ∈ res.1.1 /\ alert_key a = key /\ exists i : nat, t = clk i.
Proof.
  cbv zeta. rewrite process_positions_unfold. cbv zeta. cbn [fst snd].
  set (st0 := (set_latest_positions svc _, clk, [])).
  destruct (positions_fold_writes positions st0) as (extra & A & _ & W).
  intros Hk. rewrite A. cbn [snd Datatypes.app].
  destruct (W key t Hk) as [H | H]; [left; exact H | right; exact H].
Qed.

End WriteFacts.

(** ** The further properties at concrete inputs *)

Section MoreInstances.

Import Struct Geofence Codec Dashboard.

Lemma decoder_ignores_footer_witness :
  _parse_tag_location_data (body_one_tag ++ [x00; x00; x00; x00])
  = _parse_tag_location_data (body_one_tag ++ [x01; x02; x03; x04; x05]).
Proof.
  apply decoder_ignores_footer.
  - vm_compute. discriminate.
  - vm_compute. reflexivity.
  - vm_compute. discriminate.
  - vm_compute. discriminate.
Defined.

Lemma decoded_records_in_range_witness :
  exists ft r,
    index frame_one_tag 2 = Ok ft /\ recognized ft
    /\ raw_in_range r
    /\ scaled 0x81 (raw_at frame_one_tag 4) = scaled ft r.
Proof.
  destruct (decoded_records_in_range frame_one_tag
              [scaled 0x81 (raw_at frame_one_tag 4)]
              (scaled 0x81 (raw_at frame_one_tag 4)))
    as (ft & r & H1 & H2 & H3 & H4 & _).
  - vm_compute. reflexivity.
  - left.
  - exists ft, r. auto.
Defined.

Lemma decode_location_frame_witness :
  _parse_tag_location_data (location_frame 0x81 [raw_7] [x00; x00; x00; x00])
  = Ok [scaled 0x81 raw_7].
Proof.
  apply (decode_location_frame 0x81 [raw_7] [x00; x00; x00; x00]).
  - left. reflexivity.
  - constructor; [| constructor].
    unfold raw_in_range, raw_7. cbn. lia.
  - vm_compute. reflexivity.
  - vm_compute. discriminate.
Defined.

Lemma auth_packet_errors_witness :
  _create_auth_packet (UWBCollector_init (str_lit "admin") [0xD800] 0)
  = Raise UnicodeEncodeError.
Proof.
  apply (proj1 (auth_packet_errors (str_lit "admin") [0xD800] 0)).
  reflexivity.
Defined.

Lemma auth_packet_username_field_witness :
  exists packet ub tail,
    _create_auth_packet collector_all = Ok packet
    /\ packet = [xcc; x5f; x27] ++ be_bytes 4 (len (str_lit "admin")) ++ ub ++ tail
    /\ len ub = len (str_lit "admin").
Proof.
  destruct (_create_auth_packet collector_all) as [packet | e] eqn:E.
  - destruct (auth_packet_username_field (str_lit "admin") (str_lit "secret") 0
                packet E) as (ub & tail & Hu & Hp & _ & _ & _ & Hascii).
    exists packet, ub, tail. split; [reflexivity |]. split; [exact Hp |].
    apply Hascii. repeat constructor.
  - exfalso. vm_compute in E. discriminate.
Defined.

Lemma alerts_are_justified_witness :
  exists tag x y z,
    mkAlert 7 zone_A ((3 # 2)%Q, (3 # 2)%Q) = mkAlert tag z (x, y)
    /\ (tag, (x, y)) ∈ [(7, ((3 # 2)%Q, (3 # 2)%Q))]
    /\ filtered_out service_all tag = false
    /\ z ∈ zones service_all
    /\ contains_point z x y = true.
Proof.
  apply (alerts_are_justified service_all (frozen 0)).
  vm_compute. left.
Defined.

Lemma batch_positions_tracked_witness :
  latest_positions
    (process_positions service_42 (frozen 0) [(1, ((3 # 2)%Q, (3 # 2)%Q))]).1.2
    !! 1 = Some ((3 # 2)%Q, (3 # 2)%Q).
Proof.
  apply (proj1 (batch_positions_tracked service_42 (frozen 0)
                  [(1, ((3 # 2)%Q, (3 # 2)%Q))] (NoDup_singleton _))).
  left.
Defined.

Lemma unprocessed_tag_untouched_witness :
  _fired (process_positions service_42 (frozen 0)
            [(1, ((3 # 2)%Q, (3 # 2)%Q))]).1.2 !! (1, "A"%string)
  = _fired service_42 !! (1, "A"%string).
Proof.
  apply (proj1 (unprocessed_tag_untouched service_42 (frozen 0)
                  [(1, ((3 # 2)%Q, (3 # 2)%Q))] 1 (or_intror eq_refl))).
Defined.

Lemma alerts_spaced_by_retrigger_witness :
  Forall (fun a' => alert_key a'
                    <> alert_key (mkAlert 7 zone_A ((3 # 2)%Q, (3 # 2)%Q)))
    (process_positions
       (process_positions service_all (frozen 0)
          [(7, ((3 # 2)%Q, (3 # 2)%Q))]).1.2
       (frozen 4) [(7, ((3 # 2)%Q, (3 # 2)%Q))]).1.1.
Proof.
  apply Forall_forall.
  apply (alerts_spaced_by_retrigger service_all
           [(7, ((3 # 2)%Q, (3 # 2)%Q))] [(7, ((3 # 2)%Q, (3 # 2)%Q))]
           0%Q 4%Q 5%Q).
  - reflexivity.
  - apply NoDup_singleton.
  - apply NoDup_singleton.
  - apply NoDup_singleton.
  - reflexivity.
  - vm_compute. left.
Defined.

Lemma entries_written_only_with_alert_witness :
  _fired service_all !! (7, "A"%string) = Some 0%Q
  \/ exists a,
       a ∈ (process_positions service_all (frozen 0)
              [(7, ((3 # 2)%Q, (3 # 2)%Q))]).1.1
       /\ alert_key a = (7, "A"%string)
       /\ exists i : nat, 0%Q = frozen 0 i.
Proof.
  apply (entries_written_only_with_alert service_all (frozen 0)
           [(7, ((3 # 2)%Q, (3 # 2)%Q))] (7, "A"%string) 0%Q).
  vm_compute. reflexivity.
Defined.

Lemma corners_on_boundary_witness :
  Forall (fun p =>
            Shapely.polygon_touches (_polygon zone_A) p = true
            /\ Shapely.polygon_contains (_polygon zone_A) p = false
            /\ contains_point zone_A p.1 p.2 = true)
         (get_corners zone_A).
Proof.
  apply Forall_forall.
  apply (corners_on_boundary 1 1 2 2 "A" zone_A eq_refl).
Defined.

Lemma events_reach_open_subscribers_witness :
  let r := _process_location_update collector_all three_clients
             (second_closed 1) [tag_7] in
  exists events,
    published r.2 = published (second_closed 1) ++ events
    /\ exists ch,
         channels (second_closed 1) !! 1%positive = Some ch
         /\ channels r.2 !! 1%positive = Some (mkChannel true (inbox ch ++ events)).
Proof.
  cbv zeta.
  destruct (events_reach_open_subscribers collector_all three_clients
              (second_closed 1) [tag_7]) as (events & P & L & _).
  exists events. split; [exact P |].
  apply (L 1%positive).
  - vm_compute. reflexivity.
  - eexists. split; [vm_compute; reflexivity | reflexivity].
Defined.

Lemma only_target_tags_processed_witness :
  _process_location_update collector_42 three_clients (second_closed 1) [tag_7]
  = (three_clients, second_closed 1).
Proof.
  destruct (only_target_tags_processed collector_42 three_clients
              (second_closed 1) [tag_7]) as (events & _ & _ & _ & H).
  apply H. reflexivity.
Defined.

Lemma latest_position_served_witness :
  get_tag_position
    (_process_location_update collector_all three_clients
       (second_closed 1) [tag_7]).1 7
  = tag_position 7 (3 # 2) (3 # 2).
Proof.
  apply (proj1 (latest_position_served collector_all three_clients
                  (second_closed 1) [tag_7]) [] tag_7 []).
  - reflexivity.
  - intros t' Ht'. apply elem_of_nil in Ht'. contradiction.
Defined.

Lemma connection_retry_bounded_witness :
  second_attempt (Z.of_nat (attempts_made (lifespan_connect second_attempt))) = true
  /\ forall k,
       1 <= k < Z.of_nat (attempts_made (lifespan_connect second_attempt)) ->
       second_attempt k = false.
Proof.
  apply (proj1 (proj2 (proj2 (proj2 (connection_retry_bounded second_attempt))))).
  reflexivity.
Defined.

End MoreInstances.
